(** * Sun-angle constraints of a spacecraft pointing: notebooks/utils.py

    A shallow embedding of [get_critical_angles], [check_range],
    [calculate_allowable_map] and [build_grid], and the properties the
    specification states about them.

    Numbers.  The program computes with float64 values.  They are idealised
    here as real numbers, to which one value [NaN] is added: it is what
    [numpy.arcsin] returns for an argument outside [-1, 1].  Rounding is not
    computed.  Where it decides what the program does, in the components of
    the Sun vector that reach arcsin, it is a parameter:
    [get_critical_angles_fl] takes the rounding of the vector, and
    [get_critical_angles] is the function in exact arithmetic; likewise for
    the three functions that call it.

    Libraries.  [scipy.spatial.transform.Rotation] is modelled by what it
    stores and computes: a stack of unit quaternions in scalar-last order
    (x, y, z, w), the Hamilton product for [*], and the rotation matrix of a
    quaternion for [apply].  numpy arrays are flat lists in C order, with a
    shape where the program looks at one.

    State.  What an invalid operation of numpy does depends on state the
    functions do not own: numpy's error state and the filter of the warnings
    module.  The world the functions run in holds both, with the warnings
    issued, the lines printed and the files written. *)

From Stdlib Require Import String.
From Stdlib Require Import Reals Lra Lia List ZArith Bool.
From Stdlib Require Import Machin.
From Stdlib Require Import Sorted.
Import ListNotations.
Open Scope string_scope.
Open Scope list_scope.

Open Scope R_scope.

(** ** Values *)

(** A float64 as the program can observe it. *)
Inductive num : Type :=
| Finite (x : R)
| NaN.

(** A numpy array: its shape and its elements in C order.  A Python scalar
    is the array of shape [[]] with one element. *)
Record ndarray (A : Type) : Type := mkArr { shape : list nat; data : list A }.
Arguments mkArr {A} shape data.
Arguments shape {A} _.
Arguments data {A} _.

Definition scalar {A : Type} (x : A) : ndarray A := mkArr [] [x].

Definition size_of (s : list nat) : nat := fold_right Nat.mul 1%nat s.

(** The arrays numpy can hold: as many elements as the shape says. *)
Definition well_shaped {A : Type} (a : ndarray A) : Prop :=
  length (data a) = size_of (shape a).

(** The dynamic type of the [roll] argument of [calculate_allowable_map], as
    far as [isinstance] tells values apart. *)
Inductive pyobj : Type :=
| PyFloat (x : R)            (* float; numpy.float64 is a subclass of float *)
| PyInt (n : Z)              (* int; bool is a subclass of int *)
| NpInteger (n : Z)          (* numpy.integer, of a signed type: int8 ... int64 *)
| NpFloating (x : R)         (* numpy.float16, float32, longdouble *)
| NdArray (a : ndarray R)    (* numpy.ndarray *)
| PyList (l : list R)        (* list or tuple of numbers *)
| PyStr (s : string)
| PyNone.

(** What the three angle arguments of [get_critical_angles] can be: one
    number or a one-dimensional array. *)
Inductive array_like : Type :=
| Scalar (x : R)
| Array (xs : list R).

Inductive exn : Type :=
| ValueError (arg : pyobj)            (* [raise ValueError(roll)] *)
| RotationCountError (n m : nat)      (* scipy: unequal numbers of rotations *)
| ZeroNormError                       (* scipy: zero norm quaternion *)
| ReshapeError (n : nat) (s : list nat)   (* numpy: cannot reshape *)
| AxisError                           (* numpy: axis 0 of a 0-d array *)
| StackError                          (* numpy: vstack of unequal rows *)
| IndexError                          (* numpy: mask of another shape *)
| TruthValueError                     (* numpy: truth value of an array *)
| TypeError                           (* numpy: array to Python scalar *)
| OverflowError                       (* int too large to convert to float *)
| FloatingPointError (msg : string)   (* numpy, under seterr(invalid='raise') *)
| WarningError (msg : string).        (* a warning, under the filter 'error' *)

Inductive res (A : Type) : Type :=
| Ok (a : A)
| Raise (e : exn).
Arguments Ok {A} a.
Arguments Raise {A} e.

(** ** The world outside the functions *)

(** One call of [print] in [check_range]: the arguments of the format
    ["%3d %2d %6.2f %6.2f %s %s %s"]. *)
Record line : Type := mkLine {
  l_day : Z;
  l_sign_x : Z;
  l_sun_angle : num;
  l_sun_angle_SC : num;
  l_cx : string;
  l_cy : string;
  l_cz : string
}.

(** [numpy.seterr(invalid=...)]: 'ignore', 'warn', the mode numpy starts
    with, and 'raise'.  The modes 'call', 'print' and 'log' are left out. *)
Inductive err_mode : Type := ErrIgnore | ErrWarn | ErrRaise.

(** The action the filter of the warnings module takes on a warning of
    numpy: it lets the warning through ('default', the action Python starts
    with, and also 'always', 'module' and 'once'), drops it or raises it. *)
Inductive filter_action : Type := FilterDefault | FilterIgnore | FilterError.

(** What has happened to the warning machinery: a warning was let through
    by the filter, the error state of numpy was set, the filter was set.
    Whether a warning let through is shown once or every time is not
    modelled. *)
Inductive wevent : Type :=
| Issued (msg : string)
| SetErr (m : err_mode)
| SetFilter (a : filter_action).

Record World : Type := mkWorld {
  warnings : list wevent;                    (* the events so far, oldest first *)
  stdout : list line;                        (* lines printed so far *)
  files : list (string * list (list R))      (* pickled arrays, by path *)
}.

(** The error state of numpy and the action of the filter that the events
    leave in force; 'warn' and 'default' when none was set. *)
Definition np_invalid (evs : list wevent) : err_mode :=
  fold_left (fun m ev => match ev with SetErr m' => m' | _ => m end)
            evs ErrWarn.

Definition wfilter (evs : list wevent) : filter_action :=
  fold_left (fun a ev => match ev with SetFilter a' => a' | _ => a end)
            evs FilterDefault.

Definition M (A : Type) : Type := World -> res A * World.

Definition ret {A : Type} (a : A) : M A := fun w => (Ok a, w).

Definition bind {A B : Type} (c : M A) (k : A -> M B) : M B :=
  fun w =>
    match c w with
    | (Ok a, w') => k a w'
    | (Raise e, w') => (Raise e, w')
    end.

Definition raise {A : Type} (e : exn) : M A := fun w => (Raise e, w).

(** [warnings.warn(msg)]: the filter decides whether the warning is issued,
    dropped or raised. *)
Definition warn (msg : string) : M unit :=
  fun w =>
    match wfilter (warnings w) with
    | FilterDefault =>
        (Ok tt, mkWorld (warnings w ++ [Issued msg]) (stdout w) (files w))
    | FilterIgnore => (Ok tt, w)
    | FilterError => (Raise (WarningError msg), w)
    end.

(** What numpy does at an invalid operation: its error state decides. *)
Definition invalid_value (msg : string) : M unit :=
  fun w =>
    match np_invalid (warnings w) with
    | ErrIgnore => (Ok tt, w)
    | ErrWarn => warn msg w
    | ErrRaise => (Raise (FloatingPointError msg), w)
    end.

Definition print (l : line) : M unit :=
  fun w => (Ok tt, mkWorld (warnings w) (stdout w ++ [l]) (files w)).

Definition pickle_dump (rows : list (list R)) (path : string) : M unit :=
  fun w => (Ok tt, mkWorld (warnings w) (stdout w) ((path, rows) :: files w)).

(** [with warnings.catch_warnings(): warnings.simplefilter('ignore'); c]:
    [c] runs under the filter 'ignore', and the filter is as before when the
    block is left. *)
Definition catch_warnings_ignore {A : Type} (c : M A) : M A :=
  fun w =>
    match c (mkWorld (warnings w ++ [SetFilter FilterIgnore]) (stdout w)
                     (files w)) with
    | (r, w') => (r, mkWorld (warnings w) (stdout w') (files w'))
    end.

Notation "x <- c ;; k" := (bind c (fun x => k))
  (at level 61, c at next level, right associativity).
Notation "c ;;; k" := (bind c (fun _ => k))
  (at level 61, right associativity).

(** ** numpy *)

Definition Rltb (x y : R) : bool := if Rlt_dec x y then true else false.
Definition Rleb (x y : R) : bool := if Rle_dec x y then true else false.
Definition Reqb (x y : R) : bool := if Req_dec_T x y then true else false.

(** [numpy.sign]. *)
Definition np_sign (x : R) : R :=
  if Rlt_dec x 0 then -1 else if Rlt_dec 0 x then 1 else 0.

(** [.astype(int)]: the conversion of C, which drops the fraction. *)
Definition astype_int (x : R) : Z :=
  if Rle_dec 0 x then Int_part x else (- Int_part (- x))%Z.

(** [numpy.arcsin] on one element. *)
Definition arcsin1 (x : R) : num :=
  if Rle_dec (-1) x then
    if Rle_dec x 1 then Finite (asin x) else NaN
  else NaN.

Definition in_arcsin_domain (x : R) : bool := Rleb (-1) x && Rleb x 1.

(** [numpy.arcsin] on an array: NaN at an element outside the domain, and
    one invalid operation for the array when there is such an element. *)
Definition np_arcsin (xs : list R) : M (list num) :=
  (if forallb in_arcsin_domain xs then ret tt
   else invalid_value "invalid value encountered in arcsin") ;;;
  ret (map arcsin1 xs).

Definition num_abs (a : num) : num :=
  match a with Finite x => Finite (Rabs x) | NaN => NaN end.

Definition num_scale (c : R) (a : num) : num :=
  match a with Finite x => Finite (c * x) | NaN => NaN end.

(** Comparisons with NaN are false. *)
Definition num_ltb (a : num) (b : R) : bool :=
  match a with Finite x => Rltb x b | NaN => false end.

Definition num_gtb (a : num) (b : R) : bool :=
  match a with Finite x => Rltb b x | NaN => false end.

Definition deg2rad (x : R) : R := x * (PI / 180).

Definition neg (a : array_like) : array_like :=
  match a with
  | Scalar x => Scalar (- x)
  | Array xs => Array (map Ropp xs)
  end.

(** ** scipy.spatial.transform.Rotation *)

Record quat : Type := mkQ { qx : R; qy : R; qz : R; qw : R }.

Definition vec : Type := (R * R * R)%type.

Inductive axis : Type := AxisX | AxisY | AxisZ.

(** A Rotation object: its quaternions, and whether it was made from one
    angle ([single]) or from an array of angles. *)
Record Rotation : Type := mkRot { single : bool; quats : list quat }.

Definition elementary_quat (ax : axis) (angle : R) : quat :=
  let s := sin (angle / 2) in
  let c := cos (angle / 2) in
  match ax with
  | AxisX => mkQ s 0 0 c
  | AxisY => mkQ 0 s 0 c
  | AxisZ => mkQ 0 0 s c
  end.

(** [Rotation.from_euler(ax, angles, degrees=True)] for one axis. *)
Definition from_euler (ax : axis) (angles : array_like) : Rotation :=
  match angles with
  | Scalar a => mkRot true [elementary_quat ax (deg2rad a)]
  | Array xs => mkRot false (map (fun a => elementary_quat ax (deg2rad a)) xs)
  end.

(** The Hamilton product of [p] and [q]. *)
Definition compose_quat (p q : quat) : quat :=
  mkQ (qw p * qx q + qw q * qx p + (qy p * qz q - qz p * qy q))
      (qw p * qy q + qw q * qy p + (qz p * qx q - qx p * qz q))
      (qw p * qz q + qw q * qz p + (qx p * qy q - qy p * qx q))
      (qw p * qw q - qx p * qx q - qy p * qy q - qz p * qz q).

Fixpoint zip_with {A B C : Type} (f : A -> B -> C) (l : list A) (m : list B)
  : list C :=
  match l, m with
  | a :: l', b :: m' => f a b :: zip_with f l' m'
  | _, _ => []
  end.

(** The product of two stacks: one against many, or one against one. *)
Definition compose_quats (ps qs : list quat) : list quat :=
  match ps, qs with
  | [p], _ => map (compose_quat p) qs
  | _, [q] => map (fun p => compose_quat p q) ps
  | _, _ => zip_with compose_quat ps qs
  end.

Definition quat_norm (q : quat) : R :=
  sqrt (qx q * qx q + qy q * qy q + qz q * qz q + qw q * qw q).

Definition quat_div (q : quat) (n : R) : quat :=
  mkQ (qx q / n) (qy q / n) (qz q / n) (qw q / n).

(** [Rotation(quat, normalize=True)]. *)
Definition normalized (is_single : bool) (qs : list quat) : M Rotation :=
  if existsb (fun q => Reqb (quat_norm q) 0) qs then raise ZeroNormError
  else ret (mkRot is_single (map (fun q => quat_div q (quat_norm q)) qs)).

(** [p * q]: the rotation [q] followed by the rotation [p]. *)
Definition rot_mul (p q : Rotation) : M Rotation :=
  let len_self := length (quats p) in
  let len_other := length (quats q) in
  if negb ((len_self =? 1)%nat || (len_other =? 1)%nat
           || (len_self =? len_other)%nat)
  then raise (RotationCountError len_self len_other)
  else normalized (single p && single q) (compose_quats (quats p) (quats q)).

(** [Rotation.as_matrix] of one quaternion, by rows. *)
Definition as_matrix (q : quat) : vec * vec * vec :=
  let x := qx q in let y := qy q in let z := qz q in let w := qw q in
  let x2 := x * x in let y2 := y * y in let z2 := z * z in let w2 := w * w in
  let xy := x * y in let zw := z * w in let xz := x * z in
  let yw := y * w in let yz := y * z in let xw := x * w in
  ((x2 - y2 - z2 + w2, 2 * (xy - zw), 2 * (xz + yw)),
   (2 * (xy + zw), - x2 + y2 - z2 + w2, 2 * (yz - xw)),
   (2 * (xz - yw), 2 * (yz + xw), - x2 - y2 + z2 + w2)).

Definition dot (a b : vec) : R :=
  let '(a0, a1, a2) := a in
  let '(b0, b1, b2) := b in
  a0 * b0 + a1 * b1 + a2 * b2.

Definition mat_vec (m : vec * vec * vec) (v : vec) : vec :=
  let '(r0, r1, r2) := m in (dot r0 v, dot r1 v, dot r2 v).

(** [numpy.atleast_2d(r.apply(v))] for one vector [v]: one row for each
    rotation of the stack. *)
Definition apply_2d (r : Rotation) (v : vec) : list vec :=
  map (fun q => mat_vec (as_matrix q) v) (quats r).

Definition col0 (v : vec) : R := fst (fst v).
Definition col1 (v : vec) : R := snd (fst v).
Definition col2 (v : vec) : R := snd v.

(** ** get_critical_angles *)

(** The [return] statement of [get_critical_angles], as a function of
    [vsunf]. *)
Definition angles_of_vsunf (vsunf : list vec)
  : M (list Z * list num * list num) :=
  let sign_x := map astype_int (map np_sign (map col0 vsunf)) in
  asin_z <- np_arcsin (map col2 vsunf) ;;
  asin_y <- np_arcsin (map col1 vsunf) ;;
  ret (sign_x,
       map (num_scale 57.296) asin_z,
       map (num_scale 57.296) (map num_abs asin_y)).

(** What float64 arithmetic makes of [vsunf].  The arithmetic is not
    modelled operation by operation: numbers are real numbers, and a rounding
    says, for the arguments of a call, which rows the program holds where
    exact arithmetic gives [rows].  The four functions take the rounding as
    their first argument, under a name that ends in [_fl]; under the name of
    the source each is the function in exact arithmetic. *)
Definition rounding : Type :=
  array_like -> array_like -> array_like -> list vec -> list vec.

Definition exact_arithmetic : rounding := fun _ _ _ rows => rows.

Definition get_critical_angles_fl (fl : rounding)
    (dlong decl roll : array_like) : M (list Z * list num * list num) :=
  let rlong := from_euler AxisX (neg dlong) in
  let rlat := from_euler AxisY (neg decl) in
  let rroll := from_euler AxisZ (neg roll) in
  rroll_rlat <- rot_mul rroll rlat ;;
  rfinal <- rot_mul rroll_rlat rlong ;;
  let vsun := (0, 0, -1) in
  let vsunf := fl dlong decl roll (apply_2d rfinal vsun) in
  angles_of_vsunf vsunf.

(** The function in exact arithmetic. *)
Definition get_critical_angles (dlong decl roll : array_like)
  : M (list Z * list num * list num) :=
  get_critical_angles_fl exact_arithmetic dlong decl roll.

(** ** check_range *)

(** [if a:] on an array: defined for one element. *)
Definition truth_value (bs : list bool) : M bool :=
  match bs with
  | [b] => ret b
  | _ => raise TruthValueError
  end.

(** An array as the argument of [%d] or [%f]: defined for one element. *)
Definition item {A : Type} (xs : list A) : M A :=
  match xs with
  | [x] => ret x
  | _ => raise TypeError
  end.

(** [range(lo, hi, 1)]. *)
Definition range (lo hi : Z) : list Z :=
  map (fun k => (lo + Z.of_nat k)%Z) (seq 0 (Z.to_nat (hi - lo))).

Fixpoint for_each {A : Type} (xs : list A) (body : A -> M unit) : M unit :=
  match xs with
  | [] => ret tt
  | x :: xs' => body x ;;; for_each xs' body
  end.

(** The body of the loop of [check_range], for the day [i]. *)
Definition check_range_day_fl (fl : rounding) (dlong decl roll ylim : R)
    (i : Z) : M unit :=
  ans <- get_critical_angles_fl fl (Scalar (dlong + IZR i)) (Scalar decl)
           (Scalar roll) ;;
  let '(ans0, ans1, ans2) := ans in
  on_minus_x <- truth_value (map (fun s => (s <? 0)%Z) ans0) ;;
  let cx := if on_minus_x then "Sun on -X" else "" in
  above <- truth_value (map (fun a => num_gtb a (-5)) ans1) ;;
  let cz := if above then "Sun above sunshade" else "" in
  beyond <- truth_value (map (fun a => num_gtb a ylim) ans2) ;;
  let cy := if beyond then "Sun > Y angle limit" else "" in
  s <- item ans0 ;;
  a <- item ans1 ;;
  c <- item ans2 ;;
  print (mkLine i s a c cx cy cz).

Definition check_range_fl (fl : rounding) (dlong decl roll ylim : R)
    (ndays : Z) : M unit :=
  for_each (range (- ndays) (ndays + 1))
           (check_range_day_fl fl dlong decl roll ylim).

(** The loop body and the function in exact arithmetic. *)
Definition check_range_day (dlong decl roll ylim : R) (i : Z) : M unit :=
  check_range_day_fl exact_arithmetic dlong decl roll ylim i.

Definition check_range (dlong decl roll ylim : R) (ndays : Z) : M unit :=
  check_range_fl exact_arithmetic dlong decl roll ylim ndays.

(** ** calculate_allowable_map *)

(** Whether a Python int converts to a float64: the ints that round to a
    finite number, those below 2^1024 - 2^970 in magnitude.  The others make
    numpy raise OverflowError when the angle is made an array of floats. *)
Definition int_fits_float (n : Z) : bool :=
  (Z.abs n <? 2 ^ 1024 - 2 ^ 970)%Z.

Definition arr_map {A B : Type} (f : A -> B) (a : ndarray A) : ndarray B :=
  mkArr (shape a) (map f (data a)).

(** [numpy.asarray([a, b, c])] for three arrays of the shape of [a]. *)
Definition asarray3 {A : Type} (a b c : ndarray A) : ndarray A :=
  mkArr (3%nat :: shape a) (data a ++ data b ++ data c).

Definition ravel {A : Type} (a : ndarray A) : list A := data a.

Definition reshape {A : Type} (xs : list A) (s : list nat) : M (ndarray A) :=
  if (length xs =? size_of s)%nat then ret (mkArr s xs)
  else raise (ReshapeError (length xs) s).

(** [a.all(axis=0)]. *)
Definition all_axis0 (a : ndarray bool) : M (ndarray bool) :=
  match shape a with
  | [] => raise AxisError
  | k :: s =>
      let n := size_of s in
      ret (mkArr s
             (map (fun j =>
                     forallb (fun i => nth (i * n + j) (data a) true)
                             (seq 0 k))
                  (seq 0 n)))
  end.

Definition calculate_allowable_map_fl (fl : rounding) (dlong decl : ndarray R)
    (roll : pyobj) (ylim ndays : R) : M (ndarray bool) :=
  let dlong3 := asarray3 (arr_map (fun x => x - ndays) dlong) dlong
                         (arr_map (fun x => x + ndays) dlong) in
  let decl3 := asarray3 decl decl decl in
  angles <-
    match roll with
    | PyFloat x =>
        get_critical_angles_fl fl (Array (ravel dlong3)) (Array (ravel decl3))
                            (Scalar x)
    | PyInt n =>
        if int_fits_float n
        then get_critical_angles_fl fl (Array (ravel dlong3)) (Array (ravel decl3))
                                 (Scalar (IZR n))
        else raise OverflowError
    | NpInteger n =>
        get_critical_angles_fl fl (Array (ravel dlong3)) (Array (ravel decl3))
                            (Scalar (IZR n))
    | NdArray a =>
        let roll3 := asarray3 a a a in
        get_critical_angles_fl fl (Array (ravel dlong3)) (Array (ravel decl3))
                            (Array (ravel roll3))
    | _ => raise (ValueError roll)
    end ;;
  let '(sign_x, sun_angle, sun_angle_SC) := angles in
  let all_conditions :=
    zip_with andb
      (zip_with andb (map (fun s => (0 <? s)%Z) sign_x)
                     (map (fun a => num_ltb a (-5)) sun_angle))
      (map (fun a => num_ltb a ylim) sun_angle_SC) in
  reshaped <- reshape all_conditions (shape dlong3) ;;
  all_axis0 reshaped.

(** The function in exact arithmetic. *)
Definition calculate_allowable_map (dlong decl : ndarray R) (roll : pyobj)
    (ylim ndays : R) : M (ndarray bool) :=
  calculate_allowable_map_fl exact_arithmetic dlong decl roll ylim ndays.

(** ** build_grid *)

(** [numpy.mgrid[lo0:hi0, lo1:hi1]]. *)
Definition mgrid (lo0 hi0 lo1 hi1 : Z) : ndarray Z * ndarray Z :=
  let n0 := Z.to_nat (hi0 - lo0) in
  let n1 := Z.to_nat (hi1 - lo1) in
  (mkArr [n0; n1]
     (flat_map (fun i => map (fun _ => (lo0 + Z.of_nat i)%Z) (seq 0 n1))
               (seq 0 n0)),
   mkArr [n0; n1]
     (flat_map (fun _ => map (fun j => (lo1 + Z.of_nat j)%Z) (seq 0 n1))
               (seq 0 n0))).

(** [a[::2, ::2]] for an array of two dimensions. *)
Definition every_other (a : ndarray Z) : ndarray Z :=
  match shape a with
  | [n0; n1] =>
      let m0 := ((n0 + 1) / 2)%nat in
      let m1 := ((n1 + 1) / 2)%nat in
      mkArr [m0; m1]
        (flat_map (fun i =>
                     map (fun j => nth (2 * i * n1 + 2 * j) (data a) 0%Z)
                         (seq 0 m1))
                  (seq 0 m0))
  | _ => a
  end.

(** [numpy.arange(lo, hi, step)] for a positive step. *)
Definition arange (lo hi step : Z) : list Z :=
  map (fun k => (lo + step * Z.of_nat k)%Z)
      (seq 0 (Z.to_nat ((hi - lo + step - 1) / step))).

Fixpoint shape_eqb (s t : list nat) : bool :=
  match s, t with
  | [], [] => true
  | a :: s', b :: t' => (a =? b)%nat && shape_eqb s' t'
  | _, _ => false
  end.

(** [a[mask]] for a boolean array of the shape of [a]: the elements under
    [True], in C order. *)
Definition mask_select {A : Type} (a : ndarray A) (mask : ndarray bool)
  : M (list A) :=
  if shape_eqb (shape a) (shape mask)
  then ret (map fst (filter snd (combine (data a) (data mask))))
  else raise IndexError.

(** [mask.sum()]. *)
Definition count_true (mask : ndarray bool) : nat :=
  length (filter (fun b => b) (data mask)).

Definition same_lengths {A : Type} (rows : list (list A)) : bool :=
  match rows with
  | [] => true
  | r :: rest => forallb (fun r' => (length r' =? length r)%nat) rest
  end.

(** [numpy.vstack] of rows: a two-dimensional array, as the list of its
    rows. *)
Definition vstack (rows : list (list R)) : M (list (list R)) :=
  if same_lengths rows then ret rows else raise StackError.

(** [numpy.vstack] of two-dimensional arrays. *)
Definition vstack_blocks (blocks : list (list (list R))) : M (list (list R)) :=
  if same_lengths (concat blocks) then ret (concat blocks)
  else raise StackError.

(** [a.T] for a two-dimensional array. *)
Definition transpose (rows : list (list R)) : list (list R) :=
  match rows with
  | [] => []
  | r :: _ => map (fun i => map (fun row => nth i row 0) rows)
                  (seq 0 (length r))
  end.

(** One turn of the loop of [build_grid]: the block appended to [r]. *)
Definition build_grid_block_fl (fl : rounding) (dlong decl : ndarray Z)
    (roll : Z) : M (list (list R)) :=
  allowable <- catch_warnings_ignore
                 (calculate_allowable_map_fl fl (arr_map IZR dlong)
                    (arr_map IZR decl) (NpInteger roll) 15 14) ;;
  dlong_sel <- mask_select dlong allowable ;;
  decl_sel <- mask_select decl allowable ;;
  stacked <- vstack [map IZR dlong_sel; map IZR decl_sel;
                     map (fun one => one * IZR roll)
                         (repeat 1 (count_true allowable))] ;;
  ret (transpose stacked).

Fixpoint for_append {A B : Type} (xs : list A) (body : A -> M B) (r : list B)
  : M (list B) :=
  match xs with
  | [] => ret r
  | x :: xs' => b <- body x ;; for_append xs' body (r ++ [b])
  end.

Definition grid_path : string := "allowable_pointings_grid.p".

(** The array [a] of zeros and the index [kdx] are not used by the function
    and are left out. *)
Definition build_grid_fl (fl : rounding) : M unit :=
  let '(dlong0, decl0) := mgrid (-180) 179 (-90) 90 in
  let dlong := every_other dlong0 in
  let decl := every_other decl0 in
  let rolls := arange (-180) 179 5 in
  r <- for_append rolls (build_grid_block_fl fl dlong decl) [] ;;
  r <- vstack_blocks r ;;
  pickle_dump r grid_path.

(** One turn of the loop and the function in exact arithmetic. *)
Definition build_grid_block (dlong decl : ndarray Z) (roll : Z)
  : M (list (list R)) :=
  build_grid_block_fl exact_arithmetic dlong decl roll.

Definition build_grid : M unit := build_grid_fl exact_arithmetic.

(** ** The specification's reading of the evaluator *)

(** The rotation matrices about the three axes, acting on a column vector;
    the angle is in degrees. *)
Definition Rx (deg : R) (v : vec) : vec :=
  let t := deg2rad deg in
  let '(x, y, z) := v in
  (x, cos t * y - sin t * z, sin t * y + cos t * z).

Definition Ry (deg : R) (v : vec) : vec :=
  let t := deg2rad deg in
  let '(x, y, z) := v in
  (cos t * x + sin t * z, y, - sin t * x + cos t * z).

Definition Rz (deg : R) (v : vec) : vec :=
  let t := deg2rad deg in
  let '(x, y, z) := v in
  (cos t * x - sin t * y, sin t * x + cos t * y, z).

(** The sign of a real number, as an integer. *)
Definition sign (x : R) : Z :=
  if Rlt_dec x 0 then (-1)%Z else if Rlt_dec 0 x then 1%Z else 0%Z.

(** The Sun in spacecraft coordinates: the dlong rotation first, the roll
    rotation last. *)
Definition spec_sun_vector (dlong decl roll : R) : vec :=
  Rz (- roll) (Ry (- decl) (Rx (- dlong) (0, 0, -1))).

Definition spec_critical_angles (dlong decl roll : R) : Z * R * R :=
  let v := spec_sun_vector dlong decl roll in
  (sign (col0 v), 57.296 * asin (col2 v), 57.296 * Rabs (asin (col1 v))).

(** ** The evaluator at one orientation *)

(** The quaternion of [rroll * rlat * rlong] for one orientation. *)
Definition rfinal_quat (dlong decl roll : R) : quat :=
  compose_quat
    (compose_quat (elementary_quat AxisZ (deg2rad (- roll)))
                  (elementary_quat AxisY (deg2rad (- decl))))
    (elementary_quat AxisX (deg2rad (- dlong))).

(** The row of [vsunf] for one orientation. *)
Definition sun_vector (dlong decl roll : R) : vec :=
  mat_vec (as_matrix (rfinal_quat dlong decl roll)) (0, 0, -1).

(** The three entries [get_critical_angles] returns for one orientation. *)
Definition critical_angles_at (dlong decl roll : R) : Z * num * num :=
  let v := sun_vector dlong decl roll in
  (astype_int (np_sign (col0 v)),
   num_scale 57.296 (arcsin1 (col2 v)),
   num_scale 57.296 (num_abs (arcsin1 (col1 v)))).

Definition sign_x_at (d e r : R) : Z := fst (fst (critical_angles_at d e r)).
Definition sun_angle_at (d e r : R) : num := snd (fst (critical_angles_at d e r)).
Definition sun_angle_SC_at (d e r : R) : num := snd (critical_angles_at d e r).

(** The three conditions of [calculate_allowable_map] at one orientation. *)
Definition conditions_at (ylim d e r : R) : bool :=
  (0 <? sign_x_at d e r)%Z
  && num_ltb (sun_angle_at d e r) (-5)
  && num_ltb (sun_angle_SC_at d e r) ylim.

Definition norm_sq (q : quat) : R :=
  qx q * qx q + qy q * qy q + qz q * qz q + qw q * qw q.

Definition unit_quat (q : quat) : Prop := norm_sq q = 1.

Fixpoint zip_with3 {A B C D : Type} (f : A -> B -> C -> D)
    (l : list A) (m : list B) (n : list C) : list D :=
  match l, m, n with
  | a :: l', b :: m', c :: n' => f a b c :: zip_with3 f l' m' n'
  | _, _, _ => []
  end.

(** An orientation (dlong, decl, roll), and a function of the three angles
    applied to it. *)
Definition at3 {A : Type} (f : R -> R -> R -> A) (t : R * R * R) : A :=
  f (fst (fst t)) (snd (fst t)) (snd t).

(** What [get_critical_angles] returns once [rfinal] is known to hold the
    quaternions of the orientations [ts]. *)
Definition results_of (ts : list (R * R * R)) : list Z * list num * list num :=
  (map (at3 sign_x_at) ts, map (at3 sun_angle_at) ts,
   map (at3 sun_angle_SC_at) ts).

Definition zip3 (ds es rs : list R) : list (R * R * R) :=
  zip_with3 (fun d e r => (d, e, r)) ds es rs.

(** Order on float64 values, false at NaN as the comparisons of numpy are. *)
Definition num_lt (a : num) (b : R) : Prop :=
  match a with Finite x => x < b | NaN => False end.

(** The specification's allowability: the three conditions at the start, the
    middle and the end of the sector. *)
Definition spec_allowable (ylim ndays d e r : R) : bool :=
  conditions_at ylim (d - ndays) e r
  && conditions_at ylim d e r
  && conditions_at ylim (d + ndays) e r.

(** The rolls the first branch of [calculate_allowable_map] takes, with
    their value. *)
Definition scalar_roll (roll : pyobj) : option R :=
  match roll with
  | PyFloat x => Some x
  | PyInt n => if int_fits_float n then Some (IZR n) else None
  | NpInteger n => Some (IZR n)
  | _ => None
  end.

(** The specification's clamp of an arcsin argument, and of the two
    components of a vector that reach arcsin. *)
Definition clamp (x : R) : R := Rmax (-1) (Rmin 1 x).

Definition clamp_vec (v : vec) : vec :=
  (col0 v, clamp (col1 v), clamp (col2 v)).

(** The grid of [build_grid]: the cells (dlong, decl) in C order, and the
    rolls. *)
Definition grid_cells : list (Z * Z) :=
  flat_map (fun i => map (fun j => ((-180 + 2 * Z.of_nat i)%Z,
                                    (-90 + 2 * Z.of_nat j)%Z))
                         (seq 0 90))
           (seq 0 180).

Definition grid_rolls : list Z :=
  map (fun k => (-180 + 5 * Z.of_nat k)%Z) (seq 0 72).

(** The rows the specification asks of the grid: one for each allowable
    triple, roll by roll. *)
Definition spec_grid_rows : list (list R) :=
  flat_map (fun roll =>
              map (fun c => [IZR (fst c); IZR (snd c); 1 * IZR roll])
                  (filter (fun c => spec_allowable 15 14 (IZR (fst c))
                                      (IZR (snd c)) (IZR roll))
                          grid_cells))
           grid_rolls.

(** Two worlds in which the error state of numpy and the filter of the
    warnings module are the same. *)
Definition same_settings (w1 w2 : World) : Prop :=
  np_invalid (warnings w1) = np_invalid (warnings w2)
  /\ wfilter (warnings w1) = wfilter (warnings w2).


(** What one call of [numpy.arcsin] adds to the events, when the warning is
    neither dropped nor raised. *)
Definition arcsin_events (xs : list R) : list wevent :=
  if forallb in_arcsin_domain xs then []
  else [Issued "invalid value encountered in arcsin"].

(** The three arrays the [return] statement computes from the rows
    [vsunf]. *)
Definition angles_of_rows (vsunf : list vec) : list Z * list num * list num :=
  (map (fun v => sign (col0 v)) vsunf,
   map (fun v => num_scale 57.296 (arcsin1 (col2 v))) vsunf,
   map (fun v => num_scale 57.296 (num_abs (arcsin1 (col1 v)))) vsunf).

(** Whether the two components of every row that reach arcsin are in its
    domain. *)
Definition rows_in_domain (vsunf : list vec) : bool :=
  forallb in_arcsin_domain (map col2 vsunf)
  && forallb in_arcsin_domain (map col1 vsunf).


(** A world in which nothing has happened yet. *)
Definition empty_world : World := mkWorld [] [] [].

(** A component a rounding error has pushed below -1 by one unit in the last
    place of a float64. *)
Definition drifted : R := - (1 + / 4503599627370496).

(** Two roundings: the Z component, or the Y component, of every row comes
    out too large in magnitude by one unit in the last place. *)
Definition drift_z : rounding :=
  fun _ _ _ rows =>
    map (fun v => (col0 v, col1 v, col2 v * (1 + / 4503599627370496))) rows.

Definition drift_y : rounding :=
  fun _ _ _ rows =>
    map (fun v => (col0 v, col1 v * (1 + / 4503599627370496), col2 v)) rows.

(** A rounding that works element by element on arrays dlong and decl with
    a roll that is a number: the row of an orientation is [f dlong decl roll]
    of the exact row, whatever the array it is computed in. *)
Definition elementwise (fl : rounding) (f : R -> R -> R -> vec -> vec)
  : Prop :=
  forall (ds es : list R) (r : R) (rows : list vec),
    length es = length ds -> length rows = length ds ->
    fl (Array ds) (Array es) (Scalar r) rows
    = zip_with3 (fun d e v => f d e r v) ds es rows.

(** The row of [vsunf] for one orientation, under such a rounding. *)
Definition row_under (f : R -> R -> R -> vec -> vec) (d e r : R) : vec :=
  f d e r (sun_vector d e r).

(** The three conditions of [calculate_allowable_map] on one row of
    [vsunf]. *)
Definition conditions_of_row (ylim : R) (v : vec) : bool :=
  (0 <? sign (col0 v))%Z
  && num_ltb (num_scale 57.296 (arcsin1 (col2 v))) (-5)
  && num_ltb (num_scale 57.296 (num_abs (arcsin1 (col1 v)))) ylim.

(** Allowability under such a rounding: the three conditions at the start,
    the middle and the end of the sector. *)
Definition allowable_under (f : R -> R -> R -> vec -> vec)
    (ylim ndays d e r : R) : bool :=
  conditions_of_row ylim (row_under f (d - ndays) e r)
  && conditions_of_row ylim (row_under f d e r)
  && conditions_of_row ylim (row_under f (d + ndays) e r).

(** The block of one roll under such a rounding. *)
Definition rows_under (f : R -> R -> R -> vec -> vec) (cells : list (Z * Z))
    (roll : Z) : list (list R) :=
  map (fun c => [IZR (fst c); IZR (snd c); 1 * IZR roll])
      (filter (fun c => allowable_under f 15 14 (IZR (fst c)) (IZR (snd c))
                                        (IZR roll))
              cells).

(** What [drift_y] does to one row. *)
Definition drift_y_row (d e r : R) (v : vec) : vec :=
  (col0 v, col1 v * (1 + / 4503599627370496), col2 v).

(** The line [check_range] prints for the day [i] when [v] is the row of
    [vsunf] for that day. *)
Definition line_of_row (ylim : R) (i : Z) (v : vec) : line :=
  let sx := sign (col0 v) in
  let sa := num_scale 57.296 (arcsin1 (col2 v)) in
  let sc := num_scale 57.296 (num_abs (arcsin1 (col1 v))) in
  mkLine i sx sa sc
    (if (sx <? 0)%Z then "Sun on -X" else "")
    (if num_gtb sc ylim then "Sun > Y angle limit" else "")
    (if num_gtb sa (-5) then "Sun above sunshade" else "").

(** The rows of [vsunf] for three numbers, under a rounding. *)
Definition vsunf_of (fl : rounding) (dlong decl roll : R) : list vec :=
  fl (Scalar dlong) (Scalar decl) (Scalar roll) [sun_vector dlong decl roll].

(** The line [check_range] prints for the day [i]. *)
Definition day_line (dlong decl roll ylim : R) (i : Z) : line :=
  let sx := sign_x_at (dlong + IZR i) decl roll in
  let sa := sun_angle_at (dlong + IZR i) decl roll in
  let sc := sun_angle_SC_at (dlong + IZR i) decl roll in
  mkLine i sx sa sc
    (if (sx <? 0)%Z then "Sun on -X" else "")
    (if num_gtb sc ylim then "Sun > Y angle limit" else "")
    (if num_gtb sa (-5) then "Sun above sunshade" else "").

(** The block of one roll: a row for each cell of the grid that is
    allowable at that roll. *)
Definition block_rows (cells : list (Z * Z)) (roll : Z) : list (list R) :=
  map (fun c => [IZR (fst c); IZR (snd c); 1 * IZR roll])
      (filter (fun c => spec_allowable 15 14 (IZR (fst c)) (IZR (snd c))
                                       (IZR roll))
              cells).

(** * Properties *)

(** In a goal, the functions under [exact_arithmetic] by their names. *)
Ltac fold_exact :=
  repeat match goal with
  | |- context [get_critical_angles_fl exact_arithmetic ?a ?b ?c] =>
      change (get_critical_angles_fl exact_arithmetic a b c)
        with (get_critical_angles a b c)
  | |- context [calculate_allowable_map_fl exact_arithmetic ?a ?b ?c ?d ?e] =>
      change (calculate_allowable_map_fl exact_arithmetic a b c d e)
        with (calculate_allowable_map a b c d e)
  | |- context [check_range_day_fl exact_arithmetic ?a ?b ?c ?d] =>
      change (check_range_day_fl exact_arithmetic a b c d)
        with (check_range_day a b c d)
  | |- context [build_grid_block_fl exact_arithmetic ?a ?b] =>
      change (build_grid_block_fl exact_arithmetic a b)
        with (build_grid_block a b)
  end.


(** ** Booleans of real comparisons *)

Lemma Rltb_true (x y : R) : Rltb x y = true <-> x < y.
Proof. unfold Rltb. destruct (Rlt_dec x y); split; intros; auto; discriminate. Qed.

Lemma Rltb_false (x y : R) : Rltb x y = false <-> y <= x.
Proof.
  unfold Rltb. destruct (Rlt_dec x y); split; intros; auto; try discriminate; lra.
Qed.

Lemma Rleb_true (x y : R) : Rleb x y = true <-> x <= y.
Proof. unfold Rleb. destruct (Rle_dec x y); split; intros; auto; discriminate. Qed.

Lemma Reqb_false (x y : R) : x <> y -> Reqb x y = false.
Proof. unfold Reqb. destruct (Req_dec_T x y); intros; [contradiction | reflexivity]. Qed.

Lemma in_arcsin_domain_true (x : R) :
  in_arcsin_domain x = true <-> -1 <= x <= 1.
Proof.
  unfold in_arcsin_domain. rewrite andb_true_iff, !Rleb_true. tauto.
Qed.

Lemma arcsin1_in_domain (x : R) :
  -1 <= x <= 1 -> arcsin1 x = Finite (asin x).
Proof.
  intros [H1 H2]. unfold arcsin1.
  destruct (Rle_dec (-1) x); [| contradiction].
  destruct (Rle_dec x 1); [reflexivity | contradiction].
Qed.

Lemma arcsin1_above (x : R) : 1 < x -> arcsin1 x = NaN.
Proof.
  intros H. unfold arcsin1.
  destruct (Rle_dec (-1) x); [| reflexivity].
  destruct (Rle_dec x 1); [lra | reflexivity].
Qed.

Lemma arcsin1_below (x : R) : x < -1 -> arcsin1 x = NaN.
Proof.
  intros H. unfold arcsin1.
  destruct (Rle_dec (-1) x); [lra | reflexivity].
Qed.

(** ** sign and the conversion to int *)

Lemma Int_part_IZR (z : Z) : Int_part (IZR z) = z.
Proof.
  unfold Int_part.
  assert (H : up (IZR z) = (z + 1)%Z).
  { symmetry. apply tech_up; rewrite plus_IZR; lra. }
  rewrite H. lia.
Qed.

Lemma astype_int_IZR (z : Z) : astype_int (IZR z) = z.
Proof.
  unfold astype_int. destruct (Rle_dec 0 (IZR z)).
  - apply Int_part_IZR.
  - rewrite <- opp_IZR, Int_part_IZR. lia.
Qed.

Lemma np_sign_IZR (x : R) : np_sign x = IZR (sign x).
Proof.
  unfold np_sign, sign.
  destruct (Rlt_dec x 0); [reflexivity |].
  destruct (Rlt_dec 0 x); reflexivity.
Qed.

Lemma astype_int_np_sign (x : R) : astype_int (np_sign x) = sign x.
Proof. rewrite np_sign_IZR. apply astype_int_IZR. Qed.

Lemma sign_cases (x : R) :
  (x < 0 /\ sign x = (-1)%Z) \/ (x = 0 /\ sign x = 0%Z) \/ (0 < x /\ sign x = 1%Z).
Proof.
  unfold sign.
  destruct (Rlt_dec x 0); [left; auto |].
  destruct (Rlt_dec 0 x); [right; right; auto |].
  right; left. split; [lra | reflexivity].
Qed.

(** ** Quaternions *)

Lemma elementary_quat_unit (ax : axis) (t : R) : unit_quat (elementary_quat ax t).
Proof.
  unfold unit_quat, norm_sq, elementary_quat.
  pose proof (sin2_cos2 (t / 2)) as H. unfold Rsqr in H.
  destruct ax; simpl; lra.
Qed.

Lemma norm_sq_compose (p q : quat) :
  norm_sq (compose_quat p q) = norm_sq p * norm_sq q.
Proof. unfold norm_sq, compose_quat. simpl. ring. Qed.

Lemma compose_quat_unit (p q : quat) :
  unit_quat p -> unit_quat q -> unit_quat (compose_quat p q).
Proof.
  unfold unit_quat. intros Hp Hq. rewrite norm_sq_compose, Hp, Hq. ring.
Qed.

Lemma quat_norm_unit (q : quat) : unit_quat q -> quat_norm q = 1.
Proof.
  unfold unit_quat, norm_sq, quat_norm. intros ->. apply sqrt_1.
Qed.

Lemma quat_div_unit (q : quat) : unit_quat q -> quat_div q (quat_norm q) = q.
Proof.
  intros H. rewrite (quat_norm_unit q H). destruct q. unfold quat_div. simpl.
  f_equal; field.
Qed.

Lemma rfinal_quat_unit (d e r : R) : unit_quat (rfinal_quat d e r).
Proof.
  unfold rfinal_quat. repeat apply compose_quat_unit; apply elementary_quat_unit.
Qed.

(** The matrix of a product is the product of the matrices. *)
Lemma as_matrix_compose (p q : quat) (v : vec) :
  mat_vec (as_matrix (compose_quat p q)) v
  = mat_vec (as_matrix p) (mat_vec (as_matrix q) v).
Proof.
  destruct p as [px py pz pw], q as [ux uy uz uw], v as [[x y] z].
  unfold mat_vec, as_matrix, compose_quat, dot. simpl.
  f_equal; [f_equal |]; ring.
Qed.

Lemma double_angle (t : R) :
  cos t = cos (t / 2) * cos (t / 2) - sin (t / 2) * sin (t / 2)
  /\ sin t = 2 * sin (t / 2) * cos (t / 2)
  /\ sin (t / 2) * sin (t / 2) + cos (t / 2) * cos (t / 2) = 1.
Proof.
  pose proof (cos_2a (t / 2)) as Hc. pose proof (sin_2a (t / 2)) as Hs.
  pose proof (sin2_cos2 (t / 2)) as H1. unfold Rsqr in H1.
  replace (2 * (t / 2)) with t in Hc, Hs by field.
  auto.
Qed.

Ltac half_angle t x y z :=
  let Hc := fresh "Hc" in
  let Hs := fresh "Hs" in
  let H1 := fresh "H1" in
  destruct (double_angle t) as (Hc & Hs & H1);
  rewrite Hc, Hs;
  pose proof (f_equal (Rmult x) H1);
  pose proof (f_equal (Rmult y) H1);
  pose proof (f_equal (Rmult z) H1);
  f_equal; [f_equal |]; lra.

Lemma as_matrix_x (deg : R) (v : vec) :
  mat_vec (as_matrix (elementary_quat AxisX (deg2rad deg))) v = Rx deg v.
Proof.
  destruct v as [[x y] z]. unfold Rx, mat_vec, as_matrix, elementary_quat, dot.
  simpl. half_angle (deg2rad deg) x y z.
Qed.

Lemma as_matrix_y (deg : R) (v : vec) :
  mat_vec (as_matrix (elementary_quat AxisY (deg2rad deg))) v = Ry deg v.
Proof.
  destruct v as [[x y] z]. unfold Ry, mat_vec, as_matrix, elementary_quat, dot.
  simpl. half_angle (deg2rad deg) x y z.
Qed.

Lemma as_matrix_z (deg : R) (v : vec) :
  mat_vec (as_matrix (elementary_quat AxisZ (deg2rad deg))) v = Rz deg v.
Proof.
  destruct v as [[x y] z]. unfold Rz, mat_vec, as_matrix, elementary_quat, dot.
  simpl. half_angle (deg2rad deg) x y z.
Qed.

Lemma sun_vector_spec (d e r : R) : sun_vector d e r = spec_sun_vector d e r.
Proof.
  unfold sun_vector, spec_sun_vector, rfinal_quat.
  rewrite !as_matrix_compose, as_matrix_x, as_matrix_y, as_matrix_z.
  reflexivity.
Qed.

(** A rotation keeps the length of the vector. *)
Lemma rotated_norm (q : quat) (v : vec) :
  dot (mat_vec (as_matrix q) v) (mat_vec (as_matrix q) v)
  = norm_sq q * norm_sq q * dot v v.
Proof.
  destruct q as [x y z w], v as [[a b] c].
  unfold mat_vec, as_matrix, dot, norm_sq. simpl. ring.
Qed.

Lemma sun_vector_unit (d e r : R) :
  dot (sun_vector d e r) (sun_vector d e r) = 1.
Proof.
  unfold sun_vector. rewrite rotated_norm, (rfinal_quat_unit d e r).
  unfold dot. ring.
Qed.

Lemma sun_vector_bounds (d e r : R) :
  -1 <= col0 (sun_vector d e r) <= 1
  /\ -1 <= col1 (sun_vector d e r) <= 1
  /\ -1 <= col2 (sun_vector d e r) <= 1.
Proof.
  pose proof (sun_vector_unit d e r) as H.
  destruct (sun_vector d e r) as [[x y] z]. unfold dot in H.
  unfold col0, col1, col2. simpl. repeat split; nra.
Qed.

(** ** Running the monad *)

Lemma bind_ok {A B : Type} (c : M A) (k : A -> M B) (w w' : World) (a : A) :
  c w = (Ok a, w') -> bind c k w = k a w'.
Proof. intros H. unfold bind. rewrite H. reflexivity. Qed.

Lemma bind_raise {A B : Type} (c : M A) (k : A -> M B) (w w' : World) (e : exn) :
  c w = (Raise e, w') -> bind c k w = (Raise e, w').
Proof. intros H. unfold bind. rewrite H. reflexivity. Qed.

(** ** Stacks of rotations *)



Lemma zip_with_length {A B C : Type} (f : A -> B -> C) (l : list A) (m : list B) :
  length l = length m -> length (zip_with f l m) = length l.
Proof.
  revert m. induction l as [| a l IH]; intros [| b m] H; simpl in *;
    try discriminate; auto.
Qed.

Lemma zip_with3_length {A B C D : Type} (f : A -> B -> C -> D) l m n :
  length m = length l -> length n = length l ->
  length (zip_with3 f l m n) = length l.
Proof.
  revert m n. induction l as [| a l IH]; intros [| b m] [| c n] Hm Hn;
    simpl in *; try discriminate; auto.
Qed.

Lemma zip_with3_nth {A B C D : Type} (f : A -> B -> C -> D) l m n i da db dc dd :
  length m = length l -> length n = length l -> (i < length l)%nat ->
  nth i (zip_with3 f l m n) dd = f (nth i l da) (nth i m db) (nth i n dc).
Proof.
  revert m n i. induction l as [| a l IH]; intros [| b m] [| c n] i Hm Hn Hi;
    simpl in *; try discriminate; try lia.
  destruct i as [| i]; [reflexivity |]. apply IH; lia.
Qed.

Lemma compose_quats_zip (ps qs : list quat) :
  length ps = length qs -> compose_quats ps qs = zip_with compose_quat ps qs.
Proof.
  destruct ps as [| p [| p' ps]]; destruct qs as [| q [| q' qs]];
    simpl; intros H; try discriminate; reflexivity.
Qed.

Lemma compose_quats_unit (ps qs : list quat) :
  Forall unit_quat ps -> Forall unit_quat qs ->
  Forall unit_quat (compose_quats ps qs).
Proof.
  intros Hp Hq.
  assert (Hmapl : forall p, unit_quat p ->
            Forall unit_quat (map (compose_quat p) qs)).
  { intros p Hu. apply Forall_map. eapply Forall_impl; [| exact Hq].
    intros q Hq'. apply compose_quat_unit; assumption. }
  assert (Hmapr : forall q, unit_quat q ->
            Forall unit_quat (map (fun p => compose_quat p q) ps)).
  { intros q Hu. apply Forall_map. eapply Forall_impl; [| exact Hp].
    intros p Hp'. apply compose_quat_unit; assumption. }
  assert (Hzip : Forall unit_quat (zip_with compose_quat ps qs)).
  { clear Hmapl Hmapr. revert qs Hq.
    induction Hp as [| p ps Hu Hps IH]; intros qs Hq; [constructor |].
    destruct Hq as [| q qs Hv Hqs]; simpl; constructor.
    - apply compose_quat_unit; assumption.
    - apply IH; assumption. }
  unfold compose_quats.
  destruct ps as [| p [| p' ps']].
  - destruct qs as [| q [| q' qs']]; auto;
      apply Hmapr; inversion Hq; assumption.
  - apply Hmapl. inversion Hp; assumption.
  - destruct qs as [| q [| q' qs']]; auto;
      apply Hmapr; inversion Hq; assumption.
Qed.

Lemma normalized_unit (b : bool) (qs : list quat) (w : World) :
  Forall unit_quat qs -> normalized b qs w = (Ok (mkRot b qs), w).
Proof.
  intros H. unfold normalized.
  assert (He : existsb (fun q => Reqb (quat_norm q) 0) qs = false).
  { induction H as [| q qs Hq Hqs IH]; [reflexivity |]. simpl.
    rewrite IH, (quat_norm_unit q Hq), Reqb_false by lra. reflexivity. }
  rewrite He. clear He.
  assert (Hm : map (fun q => quat_div q (quat_norm q)) qs = qs).
  { induction H as [| q qs Hq Hqs IH]; [reflexivity |]. simpl.
    rewrite IH, quat_div_unit by assumption. reflexivity. }
  rewrite Hm. reflexivity.
Qed.

Lemma rot_mul_ok (p q : Rotation) (w : World) :
  Forall unit_quat (quats p) -> Forall unit_quat (quats q) ->
  (length (quats p) = 1 \/ length (quats q) = 1
   \/ length (quats p) = length (quats q))%nat ->
  rot_mul p q w
  = (Ok (mkRot (single p && single q) (compose_quats (quats p) (quats q))), w).
Proof.
  intros Hp Hq Hlen. unfold rot_mul.
  assert (Hc : ((length (quats p) =? 1)%nat || (length (quats q) =? 1)%nat
                || (length (quats p) =? length (quats q))%nat) = true).
  { rewrite !orb_true_iff, !Nat.eqb_eq. tauto. }
  rewrite Hc. simpl. apply normalized_unit, compose_quats_unit; assumption.
Qed.

Lemma rot_mul_mismatch (p q : Rotation) (w : World) :
  length (quats p) <> 1%nat -> length (quats q) <> 1%nat ->
  length (quats p) <> length (quats q) ->
  rot_mul p q w
  = (Raise (RotationCountError (length (quats p)) (length (quats q))), w).
Proof.
  intros H1 H2 H3. unfold rot_mul.
  apply Nat.eqb_neq in H1, H2, H3. rewrite H1, H2, H3. reflexivity.
Qed.

Lemma from_euler_unit (ax : axis) (a : array_like) :
  Forall unit_quat (quats (from_euler ax a)).
Proof.
  destruct a as [x | xs]; simpl.
  - constructor; [apply elementary_quat_unit | constructor].
  - apply Forall_map, Forall_forall. intros; apply elementary_quat_unit.
Qed.

(** ** The evaluator on a stack of orientations *)

Lemma np_arcsin_in_domain (xs : list R) (w : World) :
  Forall (fun x => -1 <= x <= 1) xs ->
  np_arcsin xs w = (Ok (map (fun x => Finite (asin x)) xs), w).
Proof.
  intros H. unfold np_arcsin.
  assert (Hd : forallb in_arcsin_domain xs = true).
  { apply forallb_forall. rewrite Forall_forall in H. intros x Hx.
    apply in_arcsin_domain_true, H, Hx. }
  rewrite Hd. unfold bind, ret. f_equal. f_equal.
  apply map_ext_in. intros x Hx. rewrite Forall_forall in H.
  apply arcsin1_in_domain, H, Hx.
Qed.

(** *** The settings *)

Lemma np_invalid_issued (evs : list wevent) (msg : string) :
  np_invalid (evs ++ [Issued msg]) = np_invalid evs.
Proof. unfold np_invalid. rewrite fold_left_app. reflexivity. Qed.

Lemma wfilter_issued (evs : list wevent) (msg : string) :
  wfilter (evs ++ [Issued msg]) = wfilter evs.
Proof. unfold wfilter. rewrite fold_left_app. reflexivity. Qed.



Lemma same_settings_trans (w1 w2 w3 : World) :
  same_settings w1 w2 -> same_settings w2 w3 -> same_settings w1 w3.
Proof. intros [H1 H2] [H3 H4]. split; congruence. Qed.

Lemma world_eta (w : World) : mkWorld (warnings w) (stdout w) (files w) = w.
Proof. destruct w. reflexivity. Qed.

Lemma arcsin_events_in_domain (xs : list R) :
  Forall (fun x => -1 <= x <= 1) xs -> arcsin_events xs = [].
Proof.
  intros H. unfold arcsin_events.
  assert (Hd : forallb in_arcsin_domain xs = true).
  { apply forallb_forall. rewrite Forall_forall in H. intros x Hx.
    apply in_arcsin_domain_true, H, Hx. }
  rewrite Hd. reflexivity.
Qed.

Lemma arcsin_events_settings (xs : list R) (evs : list wevent) :
  np_invalid (evs ++ arcsin_events xs) = np_invalid evs
  /\ wfilter (evs ++ arcsin_events xs) = wfilter evs.
Proof.
  unfold arcsin_events. destruct (forallb in_arcsin_domain xs).
  - rewrite app_nil_r. split; reflexivity.
  - split; [apply np_invalid_issued | apply wfilter_issued].
Qed.

(** [numpy.arcsin] under the settings numpy and Python start with: the
    values, NaN among them, and one warning when an element is outside the
    domain. *)
Lemma np_arcsin_default (xs : list R) (w : World) :
  np_invalid (warnings w) = ErrWarn -> wfilter (warnings w) = FilterDefault ->
  np_arcsin xs w
  = (Ok (map arcsin1 xs),
     mkWorld (warnings w ++ arcsin_events xs) (stdout w) (files w)).
Proof.
  intros He Hf. unfold np_arcsin, arcsin_events, bind, ret, invalid_value, warn.
  destruct (forallb in_arcsin_domain xs).
  - rewrite app_nil_r, world_eta. reflexivity.
  - rewrite He, Hf. reflexivity.
Qed.

(** [numpy.arcsin] under any settings: what it returns or raises is decided
    by the elements and the two settings. *)
Lemma np_arcsin_result (xs : list R) (w : World) :
  fst (np_arcsin xs w)
  = if forallb in_arcsin_domain xs then Ok (map arcsin1 xs)
    else match np_invalid (warnings w), wfilter (warnings w) with
         | ErrRaise, _ =>
             Raise (FloatingPointError "invalid value encountered in arcsin")
         | ErrWarn, FilterError =>
             Raise (WarningError "invalid value encountered in arcsin")
         | _, _ => Ok (map arcsin1 xs)
         end.
Proof.
  unfold np_arcsin, bind, ret, invalid_value, warn.
  destruct (forallb in_arcsin_domain xs); [reflexivity |].
  destruct (np_invalid (warnings w)), (wfilter (warnings w)); reflexivity.
Qed.

Lemma np_arcsin_keeps (xs : list R) (w : World) :
  same_settings (snd (np_arcsin xs w)) w
  /\ stdout (snd (np_arcsin xs w)) = stdout w
  /\ files (snd (np_arcsin xs w)) = files w.
Proof.
  unfold np_arcsin, bind, ret, invalid_value, warn, same_settings.
  destruct (forallb in_arcsin_domain xs); [cbn; auto |].
  destruct (np_invalid (warnings w)) eqn:He, (wfilter (warnings w)) eqn:Hf;
    cbn [fst snd warnings stdout files]; rewrite ?np_invalid_issued,
      ?wfilter_issued, ?He, ?Hf; auto.
Qed.


Lemma critical_angles_at_finite (d e r : R) :
  critical_angles_at d e r
  = (sign (col0 (sun_vector d e r)),
     Finite (57.296 * asin (col2 (sun_vector d e r))),
     Finite (57.296 * Rabs (asin (col1 (sun_vector d e r))))).
Proof.
  unfold critical_angles_at.
  destruct (sun_vector_bounds d e r) as (_ & H1 & H2).
  rewrite astype_int_np_sign, !arcsin1_in_domain by assumption. reflexivity.
Qed.

Lemma evaluate_stack (b : bool) (ts : list (R * R * R)) (w : World) :
  let rfinal := mkRot b (map (at3 rfinal_quat) ts) in
  let vsunf := apply_2d rfinal (0, 0, -1) in
  (asin_z <- np_arcsin (map col2 vsunf) ;;
   asin_y <- np_arcsin (map col1 vsunf) ;;
   ret (map astype_int (map np_sign (map col0 vsunf)),
        map (num_scale 57.296) asin_z,
        map (num_scale 57.296) (map num_abs asin_y))) w
  = (Ok (results_of ts), w).
Proof.
  intros rfinal vsunf.
  assert (Hv : vsunf = map (at3 sun_vector) ts).
  { unfold vsunf, apply_2d, rfinal. simpl. rewrite map_map. reflexivity. }
  rewrite Hv.
  erewrite bind_ok.
  2:{ apply np_arcsin_in_domain. rewrite !map_map. apply Forall_map.
      apply Forall_forall. intros [[d e] r] _. unfold at3. simpl.
      apply sun_vector_bounds. }
  erewrite bind_ok.
  2:{ apply np_arcsin_in_domain. rewrite !map_map. apply Forall_map.
      apply Forall_forall. intros [[d e] r] _. unfold at3. simpl.
      apply sun_vector_bounds. }
  unfold ret, results_of. rewrite !map_map.
  apply (f_equal2 pair); [| reflexivity]. apply (f_equal Ok).
  apply (f_equal2 pair); [apply (f_equal2 pair) |];
    apply map_ext; intros [[d e] r]; unfold at3, sign_x_at, sun_angle_at,
      sun_angle_SC_at; cbn [fst snd]; rewrite critical_angles_at_finite;
      cbn [fst snd].
  - apply astype_int_np_sign.
  - reflexivity.
  - reflexivity.
Qed.

Lemma gca_from_rfinal (dlong decl roll : array_like) (w : World) (b : bool)
    (ts : list (R * R * R)) :
  (rroll_rlat <- rot_mul (from_euler AxisZ (neg roll))
                         (from_euler AxisY (neg decl)) ;;
   rot_mul rroll_rlat (from_euler AxisX (neg dlong))) w
  = (Ok (mkRot b (map (at3 rfinal_quat) ts)), w) ->
  get_critical_angles dlong decl roll w = (Ok (results_of ts), w).
Proof.
  intros H. unfold get_critical_angles, get_critical_angles_fl, exact_arithmetic. unfold bind at 1 2. unfold bind in H.
  destruct (rot_mul (from_euler AxisZ (neg roll)) (from_euler AxisY (neg decl)) w)
    as [[rr | e] w1]; [| discriminate].
  destruct (rot_mul rr (from_euler AxisX (neg dlong)) w1) as [[rf | e] w2];
    [| discriminate].
  injection H as -> ->. exact (evaluate_stack b ts w).
Qed.

(** The three angles are numbers. *)
Lemma gca_scalars (d e r : R) (w : World) :
  get_critical_angles (Scalar d) (Scalar e) (Scalar r) w
  = (Ok (results_of [(d, e, r)]), w).
Proof.
  apply gca_from_rfinal with (b := true).
  erewrite bind_ok.
  2:{ apply rot_mul_ok; try apply from_euler_unit. left. reflexivity. }
  rewrite rot_mul_ok; try apply from_euler_unit.
  - reflexivity.
  - apply compose_quats_unit; apply from_euler_unit.
  - left. reflexivity.
Qed.


Lemma zip_with_nil_r {A B C : Type} (f : A -> B -> C) (l : list A) :
  zip_with f l [] = [].
Proof. destruct l; reflexivity. Qed.

Lemma rfinal_quats_zip (ds es rs : list R) :
  zip_with compose_quat
    (zip_with compose_quat
       (map (fun a => elementary_quat AxisZ (deg2rad a)) (map Ropp rs))
       (map (fun a => elementary_quat AxisY (deg2rad a)) (map Ropp es)))
    (map (fun a => elementary_quat AxisX (deg2rad a)) (map Ropp ds))
  = map (at3 rfinal_quat) (zip3 ds es rs).
Proof.
  unfold zip3. revert es rs.
  induction ds as [| d ds IH]; intros es rs.
  - simpl. apply zip_with_nil_r.
  - destruct es as [| e es]; [destruct rs; reflexivity |].
    destruct rs as [| r rs]; [reflexivity |].
    simpl. rewrite IH. reflexivity.
Qed.

(** The three angles are arrays of one length. *)
Lemma gca_arrays (ds es rs : list R) (w : World) :
  length es = length ds -> length rs = length ds ->
  get_critical_angles (Array ds) (Array es) (Array rs) w
  = (Ok (results_of (zip3 ds es rs)), w).
Proof.
  intros He Hr. apply gca_from_rfinal with (b := false).
  assert (Hin : compose_quats (quats (from_euler AxisZ (neg (Array rs))))
                  (quats (from_euler AxisY (neg (Array es))))
                = zip_with compose_quat
                    (quats (from_euler AxisZ (neg (Array rs))))
                    (quats (from_euler AxisY (neg (Array es))))).
  { apply compose_quats_zip. simpl. rewrite !length_map. lia. }
  assert (Hlen : length (zip_with compose_quat
                    (quats (from_euler AxisZ (neg (Array rs))))
                    (quats (from_euler AxisY (neg (Array es)))))
                 = length (quats (from_euler AxisX (neg (Array ds))))).
  { rewrite zip_with_length; simpl; rewrite !length_map; lia. }
  erewrite bind_ok.
  2:{ apply rot_mul_ok; try apply from_euler_unit. right; right.
      simpl. rewrite !length_map. lia. }
  rewrite rot_mul_ok; try apply from_euler_unit.
  - cbn [quats single andb]. rewrite Hin, compose_quats_zip by exact Hlen.
    simpl. rewrite rfinal_quats_zip. reflexivity.
  - apply compose_quats_unit; apply from_euler_unit.
  - right; right. cbn [quats]. rewrite Hin. exact Hlen.
Qed.

Lemma rfinal_quats_scalar_roll (ds es : list R) (r : R) :
  zip_with compose_quat
    (map (compose_quat (elementary_quat AxisZ (deg2rad (- r))))
       (map (fun a => elementary_quat AxisY (deg2rad a)) (map Ropp es)))
    (map (fun a => elementary_quat AxisX (deg2rad a)) (map Ropp ds))
  = map (at3 rfinal_quat) (zip_with (fun d e => (d, e, r)) ds es).
Proof.
  revert es. induction ds as [| d ds IH]; intros es.
  - simpl. apply zip_with_nil_r.
  - destruct es as [| e es]; [reflexivity |]. simpl. rewrite IH. reflexivity.
Qed.

Lemma rfinal_arrays_scalar_roll (ds es : list R) (r : R) (w : World) :
  length es = length ds ->
  (rroll_rlat <- rot_mul (from_euler AxisZ (neg (Scalar r)))
                         (from_euler AxisY (neg (Array es))) ;;
   rot_mul rroll_rlat (from_euler AxisX (neg (Array ds)))) w
  = (Ok (mkRot false
           (map (at3 rfinal_quat) (zip_with (fun d e => (d, e, r)) ds es))),
     w).
Proof.
  intros He.
  erewrite bind_ok.
  2:{ apply rot_mul_ok; try apply from_euler_unit. left. reflexivity. }
  assert (Hin : compose_quats (quats (from_euler AxisZ (neg (Scalar r))))
                  (quats (from_euler AxisY (neg (Array es))))
                = map (compose_quat (elementary_quat AxisZ (deg2rad (- r))))
                    (map (fun a => elementary_quat AxisY (deg2rad a))
                         (map Ropp es))).
  { reflexivity. }
  assert (Hlen : length (map (compose_quat (elementary_quat AxisZ (deg2rad (- r))))
                    (map (fun a => elementary_quat AxisY (deg2rad a))
                         (map Ropp es)))
                 = length (quats (from_euler AxisX (neg (Array ds))))).
  { simpl. rewrite !length_map. lia. }
  rewrite rot_mul_ok; try apply from_euler_unit.
  - cbn [quats single andb]. rewrite Hin, compose_quats_zip by exact Hlen.
    cbn [from_euler neg quats]. rewrite rfinal_quats_scalar_roll. reflexivity.
  - apply compose_quats_unit; apply from_euler_unit.
  - right; right. cbn [quats]. rewrite Hin. exact Hlen.
Qed.

(** dlong and decl are arrays of one length, and roll is a number. *)
Lemma gca_arrays_scalar_roll (ds es : list R) (r : R) (w : World) :
  length es = length ds ->
  get_critical_angles (Array ds) (Array es) (Scalar r) w
  = (Ok (results_of (zip_with (fun d e => (d, e, r)) ds es)), w).
Proof.
  intros He. apply gca_from_rfinal with (b := false).
  apply rfinal_arrays_scalar_roll, He.
Qed.

(** The same under a rounding: the return statement runs on what the
    rounding makes of the rows of the orientations [ts]. *)
Lemma gca_fl_from_rfinal (fl : rounding) (dlong decl roll : array_like)
    (w : World) (b : bool) (ts : list (R * R * R)) :
  (rroll_rlat <- rot_mul (from_euler AxisZ (neg roll))
                         (from_euler AxisY (neg decl)) ;;
   rot_mul rroll_rlat (from_euler AxisX (neg dlong))) w
  = (Ok (mkRot b (map (at3 rfinal_quat) ts)), w) ->
  get_critical_angles_fl fl dlong decl roll w
  = angles_of_vsunf (fl dlong decl roll (map (at3 sun_vector) ts)) w.
Proof.
  intros H. unfold get_critical_angles_fl. unfold bind at 1 2.
  unfold bind in H.
  destruct (rot_mul (from_euler AxisZ (neg roll)) (from_euler AxisY (neg decl)) w)
    as [[rr | e] w1]; [| discriminate].
  destruct (rot_mul rr (from_euler AxisX (neg dlong)) w1) as [[rf | e] w2];
    [| discriminate].
  injection H as -> ->. unfold apply_2d. cbn [quats]. rewrite map_map.
  reflexivity.
Qed.

(** ** Claims about get_critical_angles *)

Lemma nth_map_default {A B : Type} (f : A -> B) (l : list A) (i : nat)
    (da : A) (db : B) :
  (i < length l)%nat -> nth i (map f l) db = f (nth i l da).
Proof.
  intros Hi. rewrite (nth_indep (map f l) db (f da)).
  - apply map_nth.
  - rewrite length_map. exact Hi.
Qed.

Lemma zip3_length (ds es rs : list R) :
  length es = length ds -> length rs = length ds ->
  length (zip3 ds es rs) = length ds.
Proof. apply zip_with3_length. Qed.

Lemma zip3_nth (ds es rs : list R) (i : nat) :
  length es = length ds -> length rs = length ds -> (i < length ds)%nat ->
  nth i (zip3 ds es rs) (0, 0, 0) = (nth i ds 0, nth i es 0, nth i rs 0).
Proof.
  intros He Hr Hi. unfold zip3.
  apply (zip_with3_nth (fun d e r => (d, e, r)) ds es rs i 0 0 0 (0, 0, 0));
    assumption.
Qed.

Lemma results_of_one (d e r : R) :
  results_of [(d, e, r)]
  = ([sign (col0 (sun_vector d e r))],
     [Finite (57.296 * asin (col2 (sun_vector d e r)))],
     [Finite (57.296 * Rabs (asin (col1 (sun_vector d e r))))]).
Proof.
  unfold results_of, at3, sign_x_at, sun_angle_at, sun_angle_SC_at.
  cbn [map fst snd]. rewrite critical_angles_at_finite. reflexivity.
Qed.

Lemma results_of_one_at (d e r : R) :
  results_of [(d, e, r)]
  = ([sign_x_at d e r], [sun_angle_at d e r], [sun_angle_SC_at d e r]).
Proof. reflexivity. Qed.

(** C1. For all real dlong, decl and roll, [get_critical_angles] returns
    the sign of vx as an integer, 57.296 * arcsin(vz) and
    57.296 * |arcsin(vy)|, where v is Rz(-roll) (Ry(-decl) (Rx(-dlong) (0, 0, -1))):
    the dlong rotation is applied first and the roll rotation last.  The
    vector the code computes from the quaternion product is that vector. *)
Theorem get_critical_angles_spec (dlong decl roll : R) (w : World) :
  sun_vector dlong decl roll = spec_sun_vector dlong decl roll
  /\ get_critical_angles (Scalar dlong) (Scalar decl) (Scalar roll) w
     = (Ok ([fst (fst (spec_critical_angles dlong decl roll))],
            [Finite (snd (fst (spec_critical_angles dlong decl roll)))],
            [Finite (snd (spec_critical_angles dlong decl roll))]), w).
Proof.
  split; [apply sun_vector_spec |].
  rewrite gca_scalars, results_of_one, sun_vector_spec. reflexivity.
Qed.

Lemma PI_bounds : 3.14157 < PI < 3.14161.
Proof.
  pose proof (PI_2_3_7_ineq 3) as H.
  unfold PI_2_3_7_tg, Ratan_seq, tg_alt in H. simpl in H. lra.
Qed.

Lemma deg2rad_0 : deg2rad (- 0) = 0.
Proof. unfold deg2rad. lra. Qed.

Lemma sun_vector_origin : sun_vector 0 0 0 = (0, 0, -1).
Proof.
  rewrite sun_vector_spec. unfold spec_sun_vector, Rx, Ry, Rz.
  rewrite deg2rad_0, cos_0, sin_0. f_equal; [f_equal |]; lra.
Qed.

Lemma asin_m1 : asin (-1) = - (PI / 2).
Proof.
  replace (-1) with (Ropp 1) by lra. rewrite asin_opp, asin_1. reflexivity.
Qed.

(** C7. At dlong = decl = roll = 0 the vector is (0, 0, -1), sign_x is 0,
    sun_angle is within a thousandth of a degree of -90 (it is
    -57.296 * pi / 2) and sun_angle_SC is 0. *)
Theorem get_critical_angles_origin (w : World) :
  exists sa : R,
    sun_vector 0 0 0 = (0, 0, -1)
    /\ get_critical_angles (Scalar 0) (Scalar 0) (Scalar 0) w
       = (Ok ([0%Z], [Finite sa], [Finite 0]), w)
    /\ Rabs (sa - -90) < 0.001.
Proof.
  exists (57.296 * - (PI / 2)). split; [apply sun_vector_origin |]. split.
  - rewrite gca_scalars, results_of_one.
    rewrite sun_vector_origin. unfold col0, col1, col2. simpl.
    rewrite asin_m1, asin_0, Rabs_R0, Rmult_0_r.
    assert (Hs : sign 0 = 0%Z).
    { destruct (sign_cases 0) as [[H _] | [[_ H] | [H _]]]; [lra | exact H | lra]. }
    rewrite Hs. reflexivity.
  - pose proof PI_bounds as [Hl Hu]. apply Rabs_def1; lra.
Qed.

(** C8. For three arrays of one length the three results have that length,
    and their entries at i are what the function returns for the numbers
    dlong[i], decl[i] and roll[i]. *)
Theorem get_critical_angles_elementwise (ds es rs : list R) (w : World)
    (He : length es = length ds) (Hr : length rs = length ds) :
  exists (sxs : list Z) (sas scs : list num),
    get_critical_angles (Array ds) (Array es) (Array rs) w
    = (Ok (sxs, sas, scs), w)
    /\ length sxs = length ds /\ length sas = length ds
    /\ length scs = length ds
    /\ forall i, (i < length ds)%nat ->
         get_critical_angles (Scalar (nth i ds 0)) (Scalar (nth i es 0))
                             (Scalar (nth i rs 0)) w
         = (Ok ([nth i sxs 0%Z], [nth i sas NaN], [nth i scs NaN]), w).
Proof.
  exists (map (at3 sign_x_at) (zip3 ds es rs)),
    (map (at3 sun_angle_at) (zip3 ds es rs)),
    (map (at3 sun_angle_SC_at) (zip3 ds es rs)).
  split; [apply gca_arrays; assumption |].
  rewrite !length_map, zip3_length by assumption.
  repeat split; try reflexivity.
  intros i Hi. rewrite gca_scalars, results_of_one_at.
  rewrite !(nth_map_default _ _ i (0, 0, 0)) by (rewrite zip3_length; assumption).
  rewrite zip3_nth by assumption. reflexivity.
Qed.

Lemma get_critical_angles_elementwise_witness :
  exists (sxs : list Z) (sas scs : list num),
    get_critical_angles (Array [0; 10]) (Array [0; 20]) (Array [0; 30])
                        empty_world
    = (Ok (sxs, sas, scs), empty_world)
    /\ length sxs = 2%nat /\ length sas = 2%nat /\ length scs = 2%nat
    /\ forall i, (i < 2)%nat ->
         get_critical_angles (Scalar (nth i [0; 10] 0))
                             (Scalar (nth i [0; 20] 0))
                             (Scalar (nth i [0; 30] 0)) empty_world
         = (Ok ([nth i sxs 0%Z], [nth i sas NaN], [nth i scs NaN]),
            empty_world).
Proof.
  apply (get_critical_angles_elementwise [0; 10] [0; 20] [0; 30] empty_world);
    reflexivity.
Defined.

(** ** The return statement *)

Lemma np_arcsin_quiet (xs : list R) (w : World) :
  forallb in_arcsin_domain xs = true ->
  np_arcsin xs w = (Ok (map arcsin1 xs), w).
Proof. intros H. unfold np_arcsin. rewrite H. reflexivity. Qed.

Lemma return_values (vsunf : list vec) :
  (map astype_int (map np_sign (map col0 vsunf)),
   map (num_scale 57.296) (map arcsin1 (map col2 vsunf)),
   map (num_scale 57.296) (map num_abs (map arcsin1 (map col1 vsunf))))
  = angles_of_rows vsunf.
Proof.
  unfold angles_of_rows. rewrite !map_map.
  apply (f_equal2 pair); [apply (f_equal2 pair) |]; try reflexivity.
  apply map_ext. intros v. apply astype_int_np_sign.
Qed.

Lemma rows_in_domain_true (vsunf : list vec) :
  rows_in_domain vsunf = true
  <-> Forall (fun v => -1 <= col2 v <= 1 /\ -1 <= col1 v <= 1) vsunf.
Proof.
  unfold rows_in_domain.
  rewrite andb_true_iff, !forallb_forall, Forall_forall. split.
  - intros [H2 H1] v Hv. split; apply in_arcsin_domain_true;
      [apply H2 | apply H1]; apply in_map; exact Hv.
  - intros H. split; intros x Hx; apply in_map_iff in Hx;
      destruct Hx as (v & <- & Hv); apply in_arcsin_domain_true;
      apply (H v Hv).
Qed.

(** Under the settings numpy and Python start with, the return statement
    returns: the values, NaN where a component is outside the domain of
    arcsin, and a warning for each of the two calls of arcsin that meets such
    a component. *)
Lemma angles_of_vsunf_default (vsunf : list vec) (w : World) :
  np_invalid (warnings w) = ErrWarn -> wfilter (warnings w) = FilterDefault ->
  angles_of_vsunf vsunf w
  = (Ok (angles_of_rows vsunf),
     mkWorld (warnings w ++ arcsin_events (map col2 vsunf)
                ++ arcsin_events (map col1 vsunf))
             (stdout w) (files w)).
Proof.
  intros He Hf. unfold angles_of_vsunf.
  rewrite (bind_ok _ _ _ _ _ (np_arcsin_default _ w He Hf)).
  destruct (arcsin_events_settings (map col2 vsunf) (warnings w)) as [He' Hf'].
  erewrite bind_ok.
  2:{ apply np_arcsin_default; cbn [warnings]; congruence. }
  unfold ret. cbn [warnings stdout files].
  rewrite <- app_assoc, return_values. reflexivity.
Qed.

(** Under any settings, with every component in the domain: the values, and
    nothing else happens. *)
Lemma angles_of_vsunf_in_domain (vsunf : list vec) (w : World) :
  rows_in_domain vsunf = true ->
  angles_of_vsunf vsunf w = (Ok (angles_of_rows vsunf), w).
Proof.
  unfold rows_in_domain. rewrite andb_true_iff. intros [H2 H1].
  unfold angles_of_vsunf.
  rewrite (bind_ok _ _ _ _ _ (np_arcsin_quiet _ w H2)).
  rewrite (bind_ok _ _ _ _ _ (np_arcsin_quiet _ w H1)).
  unfold ret. rewrite return_values. reflexivity.
Qed.

(** Under any settings: the settings and the rows decide between the values
    and an exception. *)
Lemma angles_of_vsunf_result (vsunf : list vec) (w : World) :
  fst (angles_of_vsunf vsunf w)
  = if rows_in_domain vsunf then Ok (angles_of_rows vsunf)
    else match np_invalid (warnings w), wfilter (warnings w) with
         | ErrRaise, _ =>
             Raise (FloatingPointError "invalid value encountered in arcsin")
         | ErrWarn, FilterError =>
             Raise (WarningError "invalid value encountered in arcsin")
         | _, _ => Ok (angles_of_rows vsunf)
         end.
Proof.
  unfold angles_of_vsunf, bind, rows_in_domain.
  pose proof (np_arcsin_result (map col2 vsunf) w) as R1.
  destruct (np_arcsin_keeps (map col2 vsunf) w) as ([K1 K2] & _).
  destruct (np_arcsin (map col2 vsunf) w) as [[az | e1] w1];
    cbn [fst snd] in *.
  - pose proof (np_arcsin_result (map col1 vsunf) w1) as R2.
    rewrite K1, K2 in R2.
    destruct (np_arcsin (map col1 vsunf) w1) as [[ay | e2] w2];
      cbn [fst snd] in *; unfold ret; cbn [fst];
      destruct (forallb in_arcsin_domain (map col2 vsunf)),
        (forallb in_arcsin_domain (map col1 vsunf)),
        (np_invalid (warnings w)), (wfilter (warnings w));
      cbn [andb]; try discriminate;
      try (injection R1 as ->; injection R2 as ->; rewrite return_values;
           reflexivity);
      try (injection R2 as ->; reflexivity).
  - destruct (forallb in_arcsin_domain (map col2 vsunf)),
      (np_invalid (warnings w)), (wfilter (warnings w));
      cbn [andb]; try discriminate; injection R1 as ->; reflexivity.
Qed.


(** What the return statement returns, when it returns, is the values of
    the rows. *)
Lemma angles_of_vsunf_ok (vsunf : list vec) (w w' : World)
    (res : list Z * list num * list num) :
  angles_of_vsunf vsunf w = (Ok res, w') -> res = angles_of_rows vsunf.
Proof.
  intros H. pose proof (angles_of_vsunf_result vsunf w) as R.
  rewrite H in R. cbn [fst] in R.
  destruct (rows_in_domain vsunf), (np_invalid (warnings w)),
    (wfilter (warnings w)); try discriminate; injection R as ->; reflexivity.
Qed.

(** *** The statements before it *)

Lemma rot_mul_pure (p q : Rotation) :
  exists r, forall w : World, rot_mul p q w = (r, w).
Proof.
  unfold rot_mul, normalized, raise, ret.
  destruct (negb _); [eexists; reflexivity |].
  destruct (existsb _ _); eexists; reflexivity.
Qed.

(** Under any rounding, a call either reaches the return statement, with
    rows that the world has no part in, or raises before it in every
    world. *)
Lemma gca_fl_return_or_raise (fl : rounding) (dlong decl roll : array_like) :
  (exists vsunf : list vec,
     forall w, get_critical_angles_fl fl dlong decl roll w
               = angles_of_vsunf vsunf w)
  \/ (exists e : exn,
        forall w, get_critical_angles_fl fl dlong decl roll w = (Raise e, w)).
Proof.
  unfold get_critical_angles_fl.
  destruct (rot_mul_pure (from_euler AxisZ (neg roll))
                         (from_euler AxisY (neg decl))) as [[rr | e] H1].
  - destruct (rot_mul_pure rr (from_euler AxisX (neg dlong)))
      as [[rf | e] H2].
    + left. eexists. intros w.
      rewrite (bind_ok _ _ _ _ _ (H1 w)), (bind_ok _ _ _ _ _ (H2 w)).
      reflexivity.
    + right. exists e. intros w.
      rewrite (bind_ok _ _ _ _ _ (H1 w)), (bind_raise _ _ _ _ _ (H2 w)).
      reflexivity.
  - right. exists e. intros w.
    rewrite (bind_raise _ _ _ _ _ (H1 w)). reflexivity.
Qed.

(** For three numbers the rotations are made and multiplied without an
    exception, and the return statement runs on what the rounding makes of
    the one row. *)
Lemma gca_fl_scalars (fl : rounding) (d e r : R) (w : World) :
  get_critical_angles_fl fl (Scalar d) (Scalar e) (Scalar r) w
  = angles_of_vsunf (vsunf_of fl d e r) w.
Proof.
  unfold get_critical_angles_fl.
  erewrite bind_ok.
  2:{ apply rot_mul_ok; try apply from_euler_unit. left. reflexivity. }
  erewrite bind_ok.
  2:{ apply rot_mul_ok; try apply from_euler_unit.
      - apply compose_quats_unit; apply from_euler_unit.
      - left. reflexivity. }
  reflexivity.
Qed.

Lemma drifted_below : drifted < -1.
Proof.
  unfold drifted.
  assert (H : 0 < / 4503599627370496) by (apply Rinv_0_lt_compat; lra).
  lra.
Qed.

Lemma sign_trit (x : R) :
  (sign x = (-1)%Z \/ sign x = 0%Z \/ sign x = 1%Z)
  /\ (sign x = 0%Z <-> x = 0).
Proof.
  destruct (sign_cases x) as [[Hx Hs] | [[Hx Hs] | [Hx Hs]]]; rewrite Hs.
  - split; [auto |]. split; [discriminate | lra].
  - split; [auto |]. split; auto.
  - split; [auto |]. split; [discriminate | lra].
Qed.

Lemma sign_0 : sign 0 = 0%Z.
Proof. apply sign_trit. reflexivity. Qed.

Lemma arcsin_events_out (xs : list R) :
  Exists (fun x => ~ -1 <= x <= 1) xs ->
  arcsin_events xs = [Issued "invalid value encountered in arcsin"].
Proof.
  intros H. unfold arcsin_events.
  destruct (forallb in_arcsin_domain xs) eqn:E; [| reflexivity].
  exfalso. apply Exists_exists in H. destruct H as (x & Hx & Hn).
  apply Hn, in_arcsin_domain_true.
  rewrite forallb_forall in E. apply E, Hx.
Qed.

(** The vector of exact arithmetic at the pole of the Sun, whatever the
    roll, and a quarter of a turn of dlong away from it. *)
Lemma sun_vector_pole (r : R) : sun_vector 0 0 r = (0, 0, -1).
Proof.
  rewrite sun_vector_spec. unfold spec_sun_vector, Rx, Ry, Rz.
  rewrite deg2rad_0, cos_0, sin_0. f_equal; [f_equal |]; ring.
Qed.


Lemma vsunf_of_drift_z : vsunf_of drift_z 0 0 3 = [(0, 0, drifted)].
Proof.
  unfold vsunf_of, drift_z. rewrite sun_vector_pole.
  unfold col0, col1, col2, drifted. cbn [map fst snd].
  f_equal. f_equal. ring.
Qed.


(** What the two roundings give: at dlong = 0, decl = 0, roll = 3 the
    Z component is -(1 + 2^-52) and sun_angle is NaN; at dlong = 90,
    decl = 3, roll = 0 the Y component is and sun_angle_SC is NaN.  Each time
    one warning is issued. *)
Lemma gca_fl_drift_z :
  get_critical_angles_fl drift_z (Scalar 0) (Scalar 0) (Scalar 3) empty_world
  = (Ok ([0%Z], [NaN], [Finite 0]),
     mkWorld [Issued "invalid value encountered in arcsin"] [] []).
Proof.
  pose proof drifted_below as Hd.
  rewrite gca_fl_scalars, vsunf_of_drift_z.
  rewrite angles_of_vsunf_default by reflexivity.
  unfold angles_of_rows, col0, col1, col2. cbn [map fst snd].
  rewrite (arcsin1_below drifted) by lra.
  rewrite (arcsin1_in_domain 0) by lra.
  rewrite asin_0, sign_0. cbn [num_abs num_scale].
  rewrite Rabs_R0, Rmult_0_r.
  rewrite arcsin_events_out by (constructor; lra).
  rewrite arcsin_events_in_domain by (constructor; [lra | constructor]).
  reflexivity.
Qed.


(** ** The invariants of the results *)


Lemma arcsin1_nan (x : R) : arcsin1 x = NaN <-> ~ -1 <= x <= 1.
Proof.
  split.
  - intros H Hx. rewrite (arcsin1_in_domain x Hx) in H. discriminate.
  - intros H. destruct (Rle_dec (-1) x) as [H1 | H1].
    + apply arcsin1_above. lra.
    + apply arcsin1_below. lra.
Qed.





(** ** What of the world reaches the result *)









(** ** No clamp before arcsin *)

Lemma clamp_drifted : clamp drifted = -1.
Proof.
  pose proof drifted_below as H. unfold clamp.
  rewrite (Rmin_right 1 drifted) by lra. apply Rmax_left. lra.
Qed.

(** C3, as stated, fails.  At dlong = 0, decl = 0, roll = 3 the Z
    component of the vector is -1 in exact arithmetic.  Under a rounding
    that leaves it one unit in the last place beyond, the function gives NaN
    for sun_angle, with a warning.  Were the component clamped before
    arcsin, the angle would be -57.296 * pi / 2, as it is for the clamped
    row. *)
Lemma no_clamp_before_arcsin :
  get_critical_angles_fl drift_z (Scalar 0) (Scalar 0) (Scalar 3) empty_world
  = (Ok ([0%Z], [NaN], [Finite 0]),
     mkWorld [Issued "invalid value encountered in arcsin"] [] [])
  /\ angles_of_vsunf (map clamp_vec (vsunf_of drift_z 0 0 3)) empty_world
     = (Ok ([0%Z], [Finite (57.296 * - (PI / 2))], [Finite 0]), empty_world).
Proof.
  split; [apply gca_fl_drift_z |].
  rewrite vsunf_of_drift_z.
  unfold clamp_vec, col0, col1, col2. cbn [map fst snd].
  rewrite clamp_drifted.
  assert (H0 : clamp 0 = 0).
  { unfold clamp. rewrite (Rmin_right 1 0) by lra. apply Rmax_right. lra. }
  rewrite H0, angles_of_vsunf_in_domain.
  - unfold angles_of_rows, col0, col1, col2. cbn [map fst snd].
    rewrite (arcsin1_in_domain (-1)), (arcsin1_in_domain 0) by lra.
    rewrite asin_m1, asin_0, sign_0. cbn [num_abs num_scale].
    rewrite Rabs_R0, Rmult_0_r. reflexivity.
  - apply rows_in_domain_true. constructor; [| constructor].
    unfold col1, col2. cbn [fst snd]. lra.
Qed.

Lemma sun_vector_in_domain (d e r : R) :
  rows_in_domain [sun_vector d e r] = true.
Proof.
  apply rows_in_domain_true. constructor; [| constructor].
  destruct (sun_vector_bounds d e r) as (_ & H1 & H2). split; assumption.
Qed.

(** C3, amended.  For three numbers the rotations are made and multiplied
    without an exception, and the function is its return statement on the
    rows [vsunf] that the rounding leaves.  There is no clamp: each component
    is passed to arcsin as it is, and one outside [-1, 1] gives NaN.  Under
    the settings numpy and Python start with, the function then still
    returns, with a warning for each of the two calls of arcsin that met
    such a component, and nothing is printed or written.  Under
    seterr(invalid='raise'), or with warnings turned into errors, such a
    component makes the function raise.  With the components in [-1, 1],
    as they are in exact arithmetic, the angles are numbers and nothing else
    happens, under any settings. *)
Theorem get_critical_angles_unclamped (fl : rounding) (dlong decl roll : R)
    (w : World)
    (Herr : np_invalid (warnings w) = ErrWarn)
    (Hfil : wfilter (warnings w) = FilterDefault) :
  (forall w0,
     get_critical_angles_fl fl (Scalar dlong) (Scalar decl) (Scalar roll) w0
     = angles_of_vsunf (vsunf_of fl dlong decl roll) w0)
  /\ get_critical_angles_fl fl (Scalar dlong) (Scalar decl) (Scalar roll) w
     = (Ok (map (fun v => sign (col0 v)) (vsunf_of fl dlong decl roll),
            map (fun v => num_scale 57.296 (arcsin1 (col2 v)))
                (vsunf_of fl dlong decl roll),
            map (fun v => num_scale 57.296 (num_abs (arcsin1 (col1 v))))
                (vsunf_of fl dlong decl roll)),
        mkWorld (warnings w
                   ++ arcsin_events (map col2 (vsunf_of fl dlong decl roll))
                   ++ arcsin_events (map col1 (vsunf_of fl dlong decl roll)))
                (stdout w) (files w))
  /\ (forall x : R, arcsin1 x = NaN <-> ~ -1 <= x <= 1)
  /\ (forall x : R, -1 <= x <= 1 -> arcsin1 x = Finite (asin x))
  /\ (forall xs : list R,
        (Forall (fun x => -1 <= x <= 1) xs /\ arcsin_events xs = [])
        \/ (Exists (fun x => ~ -1 <= x <= 1) xs
            /\ arcsin_events xs
               = [Issued "invalid value encountered in arcsin"]))
  /\ (forall w0 : World,
        rows_in_domain (vsunf_of fl dlong decl roll) = true ->
        get_critical_angles_fl fl (Scalar dlong) (Scalar decl) (Scalar roll)
                               w0
        = (Ok (angles_of_rows (vsunf_of fl dlong decl roll)), w0))
  /\ (forall w0 : World,
        rows_in_domain (vsunf_of fl dlong decl roll) = false ->
        fst (get_critical_angles_fl fl (Scalar dlong) (Scalar decl)
               (Scalar roll) w0)
        = match np_invalid (warnings w0), wfilter (warnings w0) with
          | ErrRaise, _ =>
              Raise (FloatingPointError "invalid value encountered in arcsin")
          | ErrWarn, FilterError =>
              Raise (WarningError "invalid value encountered in arcsin")
          | _, _ => Ok (angles_of_rows (vsunf_of fl dlong decl roll))
          end)
  /\ (rows_in_domain (vsunf_of fl dlong decl roll) = true
      <-> Forall (fun v => -1 <= col2 v <= 1 /\ -1 <= col1 v <= 1)
                 (vsunf_of fl dlong decl roll))
  /\ rows_in_domain (vsunf_of exact_arithmetic dlong decl roll) = true.
Proof.
  split; [intros w0; apply gca_fl_scalars |].
  split.
  { rewrite gca_fl_scalars. apply angles_of_vsunf_default; assumption. }
  split; [apply arcsin1_nan |]. split; [apply arcsin1_in_domain |]. split.
  { intros xs.
    destruct (Forall_Exists_dec (fun x => -1 <= x <= 1)) with (l := xs)
      as [H | H].
    - intros x. destruct (Rle_dec (-1) x); [destruct (Rle_dec x 1) |].
      + left. lra.
      + right. lra.
      + right. lra.
    - left. split; [exact H | apply arcsin_events_in_domain, H].
    - right. split; [exact H | apply arcsin_events_out, H]. }
  split.
  { intros w0 H. rewrite gca_fl_scalars. apply angles_of_vsunf_in_domain, H. }
  split.
  { intros w0 H. rewrite gca_fl_scalars, angles_of_vsunf_result, H.
    reflexivity. }
  split; [apply rows_in_domain_true | apply sun_vector_in_domain].
Qed.

Lemma get_critical_angles_unclamped_witness :
  get_critical_angles_fl drift_z (Scalar 0) (Scalar 0) (Scalar 3) empty_world
  = (Ok (map (fun v => sign (col0 v)) (vsunf_of drift_z 0 0 3),
         map (fun v => num_scale 57.296 (arcsin1 (col2 v)))
             (vsunf_of drift_z 0 0 3),
         map (fun v => num_scale 57.296 (num_abs (arcsin1 (col1 v))))
             (vsunf_of drift_z 0 0 3)),
     mkWorld (warnings empty_world
                ++ arcsin_events (map col2 (vsunf_of drift_z 0 0 3))
                ++ arcsin_events (map col1 (vsunf_of drift_z 0 0 3)))
             (stdout empty_world) (files empty_world)).
Proof.
  exact (proj1 (proj2 (get_critical_angles_unclamped drift_z 0 0 3
                         empty_world eq_refl eq_refl))).
Defined.

(** ** calculate_allowable_map *)

Lemma zip_with_app {A B C : Type} (f : A -> B -> C) (a b : list A) (c d : list B) :
  length a = length c ->
  zip_with f (a ++ b) (c ++ d) = zip_with f a c ++ zip_with f b d.
Proof.
  revert c. induction a as [| x a IH]; intros [| y c] H; simpl in *;
    try discriminate; [reflexivity |].
  rewrite IH by lia. reflexivity.
Qed.

Lemma zip_with3_app {A B C D : Type} (f : A -> B -> C -> D)
    (a a' : list A) (b b' : list B) (c c' : list C) :
  length b = length a -> length c = length a ->
  zip_with3 f (a ++ a') (b ++ b') (c ++ c')
  = zip_with3 f a b c ++ zip_with3 f a' b' c'.
Proof.
  revert b c. induction a as [| x a IH]; intros [| y b] [| z c] Hb Hc;
    simpl in *; try discriminate; [reflexivity |].
  rewrite IH by lia. reflexivity.
Qed.

Lemma conditions_of_results (ylim : R) (ts : list (R * R * R)) :
  zip_with andb
    (zip_with andb (map (fun s => (0 <? s)%Z) (map (at3 sign_x_at) ts))
                   (map (fun a => num_ltb a (-5)) (map (at3 sun_angle_at) ts)))
    (map (fun a => num_ltb a ylim) (map (at3 sun_angle_SC_at) ts))
  = map (at3 (conditions_at ylim)) ts.
Proof.
  induction ts as [| t ts IH]; [reflexivity |].
  cbn [map zip_with]. rewrite IH. reflexivity.
Qed.

Lemma all_axis0_three (a b c : list bool) (s : list nat) (w : World) :
  length a = size_of s -> length b = size_of s -> length c = size_of s ->
  all_axis0 (mkArr (3%nat :: s) (a ++ b ++ c)) w
  = (Ok (mkArr s (zip_with3 (fun x y z => x && y && z) a b c)), w).
Proof.
  intros Ha Hb Hc. unfold all_axis0, ret. cbn [shape data].
  apply (f_equal2 pair); [| reflexivity]. apply (f_equal Ok).
  apply (f_equal (mkArr s)).
  apply (nth_ext _ _ true true).
  - rewrite length_map, length_seq, zip_with3_length; lia.
  - intros i Hi. rewrite length_map, length_seq in Hi.
    rewrite (nth_map_default _ _ i 0%nat) by (rewrite length_seq; exact Hi).
    rewrite seq_nth by exact Hi.
    rewrite (zip_with3_nth _ a b c i true true true true) by lia.
    cbn [seq forallb Nat.add Nat.mul].
    rewrite app_nth1 by lia.
    rewrite (app_nth2 a) by lia. rewrite app_nth1 by lia.
    rewrite (app_nth2 a) by lia. rewrite app_nth2 by lia.
    replace (size_of s + 0 + i - length a)%nat with i by lia.
    replace (size_of s + (size_of s + 0) + i - length a - length b)%nat
      with i by lia.
    rewrite andb_true_r, andb_assoc. reflexivity.
Qed.

(** What follows the call of [get_critical_angles] in
    [calculate_allowable_map], when the call has returned the angles of the
    orientations [t1 ++ t2 ++ t3]: those of the start, the middle and the
    end of the sector. *)
Lemma allowable_of_results (s : list nat) (ylim : R)
    (t1 t2 t3 : list (R * R * R)) (w : World) :
  length t1 = size_of s -> length t2 = size_of s -> length t3 = size_of s ->
  (let '(sign_x, sun_angle, sun_angle_SC) := results_of (t1 ++ t2 ++ t3) in
   let all_conditions :=
     zip_with andb
       (zip_with andb (map (fun s => (0 <? s)%Z) sign_x)
                      (map (fun a => num_ltb a (-5)) sun_angle))
       (map (fun a => num_ltb a ylim) sun_angle_SC) in
   reshaped <- reshape all_conditions (3%nat :: s) ;;
   all_axis0 reshaped) w
  = (Ok (mkArr s (zip_with3 (fun x y z => x && y && z)
                    (map (at3 (conditions_at ylim)) t1)
                    (map (at3 (conditions_at ylim)) t2)
                    (map (at3 (conditions_at ylim)) t3))), w).
Proof.
  intros H1 H2 H3. unfold results_of. rewrite conditions_of_results.
  unfold reshape.
  assert (Hlen : (length (map (at3 (conditions_at ylim)) (t1 ++ t2 ++ t3))
                  =? size_of (3%nat :: s))%nat = true).
  { apply Nat.eqb_eq. rewrite length_map, !length_app. cbn [size_of fold_right].
    fold (size_of s). lia. }
  rewrite Hlen. unfold bind at 1. unfold ret at 1.
  rewrite !map_app. apply all_axis0_three; rewrite length_map; assumption.
Qed.

Lemma allowable_cells (ylim ndays r : R) (ds es : list R) :
  zip_with3 (fun x y z => x && y && z)
    (map (at3 (conditions_at ylim))
       (zip_with (fun d e => (d, e, r)) (map (fun x => x - ndays) ds) es))
    (map (at3 (conditions_at ylim)) (zip_with (fun d e => (d, e, r)) ds es))
    (map (at3 (conditions_at ylim))
       (zip_with (fun d e => (d, e, r)) (map (fun x => x + ndays) ds) es))
  = zip_with (fun d e => spec_allowable ylim ndays d e r) ds es.
Proof.
  revert es. induction ds as [| d ds IH]; intros [| e es]; try reflexivity.
  cbn [map zip_with zip_with3]. rewrite IH. reflexivity.
Qed.

(** dlong and decl hold as many elements as each other, and roll is a
    number. *)
Lemma calculate_allowable_map_scalar_roll (dlong decl : ndarray R)
    (roll : pyobj) (r ylim ndays : R) (w : World) :
  well_shaped dlong -> length (data decl) = length (data dlong) ->
  scalar_roll roll = Some r ->
  calculate_allowable_map dlong decl roll ylim ndays w
  = (Ok (mkArr (shape dlong)
           (zip_with (fun d e => spec_allowable ylim ndays d e r)
                     (data dlong) (data decl))), w).
Proof.
  intros Hd He Hr. unfold well_shaped in Hd.
  assert (Hcall :
    get_critical_angles
      (Array (ravel (asarray3 (arr_map (fun x => x - ndays) dlong) dlong
                              (arr_map (fun x => x + ndays) dlong))))
      (Array (ravel (asarray3 decl decl decl))) (Scalar r) w
    = (Ok (results_of
             (zip_with (fun d e => (d, e, r))
                       (map (fun x => x - ndays) (data dlong)) (data decl)
              ++ zip_with (fun d e => (d, e, r)) (data dlong) (data decl)
              ++ zip_with (fun d e => (d, e, r))
                          (map (fun x => x + ndays) (data dlong)) (data decl))),
       w)).
  { unfold ravel, asarray3, arr_map. cbn [data shape].
    rewrite gca_arrays_scalar_roll
      by (rewrite !length_app, !length_map; lia).
    rewrite !zip_with_app by (rewrite ?length_map; lia). reflexivity. }
  unfold calculate_allowable_map, calculate_allowable_map_fl; fold_exact.
  erewrite bind_ok.
  2:{ destruct roll as [x | n | n | x | a | l | s |]; cbn [scalar_roll] in Hr;
        try discriminate Hr.
      - injection Hr as <-. exact Hcall.
      - destruct (int_fits_float n); [| discriminate Hr].
        injection Hr as <-. exact Hcall.
      - injection Hr as <-. exact Hcall. }
  rewrite <- allowable_cells.
  apply allowable_of_results;
    rewrite zip_with_length; rewrite ?length_map; lia.
Qed.

Lemma num_ltb_true (a : num) (b : R) : num_ltb a b = true <-> num_lt a b.
Proof.
  destruct a as [x |]; simpl; [apply Rltb_true |].
  split; [discriminate | contradiction].
Qed.

Lemma conditions_at_iff (ylim t e r : R) (w : World) :
  conditions_at ylim t e r = true
  <-> exists (sx : Z) (sa sc : num),
        get_critical_angles (Scalar t) (Scalar e) (Scalar r) w
        = (Ok ([sx], [sa], [sc]), w)
        /\ (0 < sx)%Z /\ num_lt sa (-5) /\ num_lt sc ylim.
Proof.
  unfold conditions_at. rewrite !andb_true_iff, Z.ltb_lt, !num_ltb_true.
  rewrite gca_scalars, results_of_one_at. split.
  - intros [[H1 H2] H3]. eexists _, _, _. split; [reflexivity | auto].
  - intros (sx & sa & sc & E & H1 & H2 & H3).
    injection E as <- <- <-. auto.
Qed.

(** C2. For numbers dlong and decl and a roll that is a number,
    [calculate_allowable_map] returns a boolean, and it is true if and only
    if at each of dlong - ndays, dlong and dlong + ndays, with decl and roll
    as given, what [get_critical_angles] returns has sign_x > 0,
    sun_angle < -5 and sun_angle_SC < ylim. *)
Theorem calculate_allowable_map_iff (dlong decl r ylim ndays : R)
    (roll : pyobj) (w : World) (Hroll : scalar_roll roll = Some r) :
  exists b : bool,
    calculate_allowable_map (scalar dlong) (scalar decl) roll ylim ndays w
    = (Ok (scalar b), w)
    /\ (b = true
        <-> Forall
              (fun t =>
                 exists (sx : Z) (sa sc : num),
                   get_critical_angles (Scalar t) (Scalar decl) (Scalar r) w
                   = (Ok ([sx], [sa], [sc]), w)
                   /\ (0 < sx)%Z /\ num_lt sa (-5) /\ num_lt sc ylim)
              [dlong - ndays; dlong; dlong + ndays]).
Proof.
  exists (spec_allowable ylim ndays dlong decl r). split.
  - rewrite (calculate_allowable_map_scalar_roll _ _ roll r); auto.
    reflexivity.
  - unfold spec_allowable. rewrite !andb_true_iff.
    rewrite !Forall_cons_iff, <- !conditions_at_iff.
    split; [intros [[H1 H2] H3] | intros (H1 & H2 & H3 & _)]; auto.
Qed.

Lemma calculate_allowable_map_iff_witness :
  exists b : bool,
    calculate_allowable_map (scalar 0) (scalar 0) (PyInt 0) 15 14 empty_world
    = (Ok (scalar b), empty_world)
    /\ (b = true
        <-> Forall
              (fun t =>
                 exists (sx : Z) (sa sc : num),
                   get_critical_angles (Scalar t) (Scalar 0) (Scalar 0)
                                       empty_world
                   = (Ok ([sx], [sa], [sc]), empty_world)
                   /\ (0 < sx)%Z /\ num_lt sa (-5) /\ num_lt sc 15)
              [0 - 14; 0; 0 + 14]).
Proof.
  apply (calculate_allowable_map_iff 0 0 0 15 14 (PyInt 0) empty_world).
  reflexivity.
Defined.

Lemma allowable_cells3 (ylim ndays : R) (ds es rs : list R) :
  zip_with3 (fun x y z => x && y && z)
    (map (at3 (conditions_at ylim)) (zip3 (map (fun x => x - ndays) ds) es rs))
    (map (at3 (conditions_at ylim)) (zip3 ds es rs))
    (map (at3 (conditions_at ylim)) (zip3 (map (fun x => x + ndays) ds) es rs))
  = zip_with3 (spec_allowable ylim ndays) ds es rs.
Proof.
  unfold zip3. revert es rs.
  induction ds as [| d ds IH]; intros [| e es] [| r rs]; try reflexivity.
  cbn [map zip_with3]. rewrite IH. reflexivity.
Qed.

(** dlong, decl and the array roll hold as many elements as each other;
    their shapes are not compared. *)
Lemma calculate_allowable_map_array_roll (dlong decl a : ndarray R)
    (ylim ndays : R) (w : World) :
  well_shaped dlong -> length (data decl) = length (data dlong) ->
  length (data a) = length (data dlong) ->
  calculate_allowable_map dlong decl (NdArray a) ylim ndays w
  = (Ok (mkArr (shape dlong)
           (zip_with3 (spec_allowable ylim ndays)
                      (data dlong) (data decl) (data a))), w).
Proof.
  intros Hd He Ha. unfold well_shaped in Hd.
  unfold calculate_allowable_map, calculate_allowable_map_fl; fold_exact.
  erewrite bind_ok.
  2:{ unfold ravel, asarray3, arr_map. cbn [data shape].
      rewrite gca_arrays by (rewrite !length_app, !length_map; lia).
      unfold zip3.
      rewrite !zip_with3_app by (rewrite ?length_map; lia).
      reflexivity. }
  rewrite <- allowable_cells3.
  apply allowable_of_results; fold (zip3 (map (fun x => x - ndays) (data dlong))
                                         (data decl) (data a));
    fold (zip3 (data dlong) (data decl) (data a));
    fold (zip3 (map (fun x => x + ndays) (data dlong)) (data decl) (data a));
    rewrite zip3_length; rewrite ?length_map; lia.
Qed.

Lemma calculate_allowable_map_count_mismatch (dlong decl a : ndarray R)
    (ylim ndays : R) (w : World) :
  length (data decl) = length (data dlong) ->
  length (data a) <> length (data dlong) ->
  calculate_allowable_map dlong decl (NdArray a) ylim ndays w
  = (Raise (RotationCountError (3 * length (data a))
                               (3 * length (data dlong))), w).
Proof.
  intros He Ha. unfold calculate_allowable_map, calculate_allowable_map_fl; fold_exact.
  erewrite bind_raise; [reflexivity |].
  unfold get_critical_angles, get_critical_angles_fl, exact_arithmetic. erewrite bind_raise; [reflexivity |].
  rewrite rot_mul_mismatch;
    unfold ravel, asarray3; cbn [from_euler neg quats data];
    rewrite ?length_map, ?length_app; try lia.
  apply (f_equal2 pair); [| reflexivity]. apply (f_equal Raise).
  apply (f_equal2 RotationCountError); lia.
Qed.

Lemma calculate_allowable_map_rejects (dlong decl : ndarray R) (roll : pyobj)
    (ylim ndays : R) (w : World) :
  scalar_roll roll = None -> (forall n, roll <> PyInt n) ->
  (forall a, roll <> NdArray a) ->
  calculate_allowable_map dlong decl roll ylim ndays w
  = (Raise (ValueError roll), w).
Proof.
  intros Hs Hn Ha. unfold calculate_allowable_map, calculate_allowable_map_fl; fold_exact.
  erewrite bind_raise; [reflexivity |].
  destruct roll as [x | n | n | x | a | l | s |]; try discriminate Hs;
    try reflexivity.
  - exfalso. eapply Hn. reflexivity.
  - exfalso. eapply Ha. reflexivity.
Qed.

(** A Python int too large for a float64 passes the check of the type and
    fails where the angle is made an array of floats. *)
Lemma calculate_allowable_map_overflow (dlong decl : ndarray R) (n : Z)
    (ylim ndays : R) (w : World) :
  int_fits_float n = false ->
  calculate_allowable_map dlong decl (PyInt n) ylim ndays w
  = (Raise OverflowError, w).
Proof.
  intros Hn. unfold calculate_allowable_map, calculate_allowable_map_fl; fold_exact. rewrite Hn. reflexivity.
Qed.

Lemma zip_with_nth {A B C : Type} (f : A -> B -> C) (l : list A) (m : list B)
    (i : nat) (da : A) (db : B) (dc : C) :
  length m = length l -> (i < length l)%nat ->
  nth i (zip_with f l m) dc = f (nth i l da) (nth i m db).
Proof.
  revert m i. induction l as [| a l IH]; intros [| b m] i Hm Hi;
    simpl in *; try discriminate; try lia.
  destruct i as [| i]; [reflexivity |]. apply IH; lia.
Qed.

(** A roll that is a number is used at every cell of the map. *)
Lemma scalar_roll_cells (dlong decl : ndarray R) (roll : pyobj)
    (r ylim ndays : R) (w : World) :
  well_shaped dlong -> length (data decl) = length (data dlong) ->
  scalar_roll roll = Some r ->
  exists m : ndarray bool,
    calculate_allowable_map dlong decl roll ylim ndays w = (Ok m, w)
    /\ shape m = shape dlong
    /\ length (data m) = length (data dlong)
    /\ forall j, (j < length (data dlong))%nat ->
         calculate_allowable_map (scalar (nth j (data dlong) 0))
           (scalar (nth j (data decl) 0)) roll ylim ndays w
         = (Ok (scalar (nth j (data m) false)), w).
Proof.
  intros Hd He Hr. eexists. split;
    [apply (calculate_allowable_map_scalar_roll _ _ roll r); assumption |].
  cbn [shape data]. split; [reflexivity |].
  split; [apply zip_with_length; symmetry; exact He |].
  intros j Hj.
  rewrite (calculate_allowable_map_scalar_roll _ _ roll r);
    [| reflexivity | reflexivity | exact Hr].
  cbn [scalar shape data zip_with].
  rewrite (zip_with_nth _ _ _ j 0 0) by assumption. reflexivity.
Qed.

(** A roll that is an array is paired with dlong and decl element by
    element, in C order. *)
Lemma array_roll_cells (dlong decl a : ndarray R) (ylim ndays : R)
    (w : World) :
  well_shaped dlong -> length (data decl) = length (data dlong) ->
  length (data a) = length (data dlong) ->
  exists m : ndarray bool,
    calculate_allowable_map dlong decl (NdArray a) ylim ndays w = (Ok m, w)
    /\ shape m = shape dlong
    /\ length (data m) = length (data dlong)
    /\ forall j, (j < length (data dlong))%nat ->
         calculate_allowable_map (scalar (nth j (data dlong) 0))
           (scalar (nth j (data decl) 0)) (PyFloat (nth j (data a) 0))
           ylim ndays w
         = (Ok (scalar (nth j (data m) false)), w).
Proof.
  intros Hd He Ha. eexists. split;
    [apply calculate_allowable_map_array_roll; assumption |].
  cbn [shape data]. split; [reflexivity |].
  split; [apply zip_with3_length; assumption |].
  intros j Hj.
  rewrite (calculate_allowable_map_scalar_roll _ _ (PyFloat _)
             (nth j (data a) 0)); [| reflexivity | reflexivity | reflexivity].
  cbn [scalar shape data zip_with].
  rewrite (zip_with3_nth _ _ _ _ j 0 0 0 false) by assumption. reflexivity.
Qed.

(** C4, as stated, fails.  dlong and decl have shape (1, 2) and roll is an
    array of shape (2, 1): roll is not shaped as they are, and the call
    returns a map all the same. *)
Lemma mismatched_roll_shape_accepted :
  shape (mkArr [2%nat; 1%nat] [0; 0]) <> shape (mkArr [1%nat; 2%nat] [0; 0])
  /\ exists m : ndarray bool,
       calculate_allowable_map (mkArr [1%nat; 2%nat] [0; 0])
         (mkArr [1%nat; 2%nat] [0; 0])
         (NdArray (mkArr [2%nat; 1%nat] [0; 0])) 15 14 empty_world
       = (Ok m, empty_world).
Proof.
  split; [cbn [shape]; intros H; discriminate H |].
  eexists. apply calculate_allowable_map_array_roll; reflexivity.
Qed.

(** C4, amended.  For arrays dlong and decl of one size,
    [calculate_allowable_map] takes a roll that is a Python float, a Python
    int that converts to a float or a numpy integer, and uses it at every
    cell; and it takes a roll that is a numpy array with as many elements as
    dlong, whatever its shape, and pairs it with dlong and decl element by
    element in C order.  The map has the shape of dlong, and its cell j is
    what the function returns for the numbers dlong[j], decl[j] and the roll
    of that cell.  A roll of any other type makes it raise ValueError(roll),
    the world left as it was.  Two rolls pass the check of the type and fail
    later: a Python int too large for a float, with OverflowError, and an
    array with another number of elements, with the error of the library
    about unequal numbers of rotations. *)
Theorem calculate_allowable_map_roll_check (dlong decl : ndarray R)
    (roll : pyobj) (ylim ndays : R) (w : World)
    (Hd : well_shaped dlong)
    (He : length (data decl) = length (data dlong)) :
  match roll with
  | PyFloat _ | NpInteger _ =>
      exists m : ndarray bool,
        calculate_allowable_map dlong decl roll ylim ndays w = (Ok m, w)
        /\ shape m = shape dlong
        /\ length (data m) = length (data dlong)
        /\ forall j, (j < length (data dlong))%nat ->
             calculate_allowable_map (scalar (nth j (data dlong) 0))
               (scalar (nth j (data decl) 0)) roll ylim ndays w
             = (Ok (scalar (nth j (data m) false)), w)
  | PyInt n =>
      if int_fits_float n
      then exists m : ndarray bool,
             calculate_allowable_map dlong decl roll ylim ndays w = (Ok m, w)
             /\ shape m = shape dlong
             /\ length (data m) = length (data dlong)
             /\ forall j, (j < length (data dlong))%nat ->
                  calculate_allowable_map (scalar (nth j (data dlong) 0))
                    (scalar (nth j (data decl) 0)) roll ylim ndays w
                  = (Ok (scalar (nth j (data m) false)), w)
      else calculate_allowable_map dlong decl roll ylim ndays w
           = (Raise OverflowError, w)
  | NdArray a =>
      if (length (data a) =? length (data dlong))%nat
      then exists m : ndarray bool,
             calculate_allowable_map dlong decl roll ylim ndays w = (Ok m, w)
             /\ shape m = shape dlong
             /\ length (data m) = length (data dlong)
             /\ forall j, (j < length (data dlong))%nat ->
                  calculate_allowable_map (scalar (nth j (data dlong) 0))
                    (scalar (nth j (data decl) 0))
                    (PyFloat (nth j (data a) 0)) ylim ndays w
                  = (Ok (scalar (nth j (data m) false)), w)
      else calculate_allowable_map dlong decl roll ylim ndays w
           = (Raise (RotationCountError (3 * length (data a))
                                        (3 * length (data dlong))), w)
  | NpFloating _ | PyList _ | PyStr _ | PyNone =>
      calculate_allowable_map dlong decl roll ylim ndays w
      = (Raise (ValueError roll), w)
  end.
Proof.
  destruct roll as [x | n | n | x | a | l | s |];
    try (apply calculate_allowable_map_rejects;
         [reflexivity | intros k Hk; discriminate Hk
         | intros a Ha; discriminate Ha]).
  - apply (scalar_roll_cells _ _ (PyFloat x) x); auto.
  - destruct (int_fits_float n) eqn:En.
    + apply (scalar_roll_cells _ _ (PyInt n) (IZR n)); auto.
      cbn [scalar_roll]. rewrite En. reflexivity.
    + apply calculate_allowable_map_overflow, En.
  - apply (scalar_roll_cells _ _ (NpInteger n) (IZR n)); auto.
  - destruct (Nat.eqb_spec (length (data a)) (length (data dlong))) as [Ha | Ha].
    + apply array_roll_cells; assumption.
    + apply calculate_allowable_map_count_mismatch; assumption.
Qed.

Lemma calculate_allowable_map_roll_check_witness :
  calculate_allowable_map (scalar 0) (scalar 0) (PyStr "north") 15 14
                          empty_world
  = (Raise (ValueError (PyStr "north")), empty_world).
Proof.
  apply (calculate_allowable_map_roll_check (scalar 0) (scalar 0)
           (PyStr "north") 15 14 empty_world); reflexivity.
Defined.

(** ** check_range *)

Lemma check_range_day_prints (d e r ylim : R) (i : Z) (w : World) :
  check_range_day d e r ylim i w
  = (Ok tt, mkWorld (warnings w) (stdout w ++ [day_line d e r ylim i])
                    (files w)).
Proof.
  unfold check_range_day, check_range_day_fl; fold_exact.
  erewrite bind_ok by (rewrite gca_scalars, results_of_one_at; reflexivity).
  reflexivity.
Qed.

Lemma for_each_prints (body : Z -> M unit) (f : Z -> line) (days : list Z)
    (w : World) :
  (forall i w', body i w'
                = (Ok tt, mkWorld (warnings w') (stdout w' ++ [f i]) (files w'))) ->
  for_each days body w
  = (Ok tt, mkWorld (warnings w) (stdout w ++ map f days) (files w)).
Proof.
  intros Hb. revert w. induction days as [| i days IH]; intros w.
  - simpl. rewrite app_nil_r. destruct w; reflexivity.
  - cbn [for_each]. erewrite bind_ok by apply Hb. rewrite IH.
    cbn [warnings stdout files map]. rewrite <- app_assoc. reflexivity.
Qed.

(** [check_range] prints one line for each day from -ndays to ndays. *)
Lemma check_range_prints (d e r ylim : R) (ndays : Z) (w : World) :
  check_range d e r ylim ndays w
  = (Ok tt, mkWorld (warnings w)
              (stdout w ++ map (day_line d e r ylim)
                               (range (- ndays) (ndays + 1)))
              (files w)).
Proof.
  unfold check_range, check_range_fl; fold_exact. apply for_each_prints. intros i w'.
  apply check_range_day_prints.
Qed.

Lemma conditions_at_boundary (ylim t e r : R) :
  sign_x_at t e r = 0%Z \/ sun_angle_at t e r = Finite (-5)
  \/ sun_angle_SC_at t e r = Finite ylim ->
  conditions_at ylim t e r = false.
Proof.
  unfold conditions_at. intros [H | [H | H]]; rewrite H.
  - reflexivity.
  - cbn [num_ltb]. rewrite (proj2 (Rltb_false (-5) (-5))) by lra.
    rewrite andb_false_r. reflexivity.
  - cbn [num_ltb]. rewrite (proj2 (Rltb_false ylim ylim)) by lra.
    apply andb_false_r.
Qed.

Lemma scalar_map_at (ylim ndays d e r : R) (w : World) :
  calculate_allowable_map (scalar d) (scalar e) (PyFloat r) ylim ndays w
  = (Ok (scalar (spec_allowable ylim ndays d e r)), w).
Proof.
  rewrite (calculate_allowable_map_scalar_roll _ _ (PyFloat r) r);
    reflexivity.
Qed.

Lemma sun_vector_quarter : sun_vector 90 0 0 = (0, -1, 0).
Proof.
  rewrite sun_vector_spec. unfold spec_sun_vector, Rx, Ry, Rz.
  rewrite deg2rad_0.
  replace (deg2rad (Ropp 90)) with (Ropp (PI / 2)) by (unfold deg2rad; lra).
  rewrite cos_neg, sin_neg, cos_PI2, sin_PI2, cos_0, sin_0.
  f_equal; [f_equal |]; lra.
Qed.

(** C10, as stated, fails.  At dlong = 90, decl = 0, roll = 0, on the day
    0, sign_x is 0, a boundary input, and [check_range] prints an alarm for
    that day: the Sun is in the plane of the sunshade, and
    "Sun above sunshade" is set. *)
Lemma check_range_alarm_at_boundary :
  check_range_day 90 0 0 15 0 empty_world
  = (Ok tt, mkWorld [] [day_line 90 0 0 15 0] [])
  /\ l_sign_x (day_line 90 0 0 15 0) = 0%Z
  /\ l_cz (day_line 90 0 0 15 0) = "Sun above sunshade".
Proof.
  split; [apply check_range_day_prints |].
  unfold day_line. cbn [l_sign_x l_cz].
  replace (90 + IZR 0) with 90 by lra.
  unfold sign_x_at, sun_angle_at.
  rewrite critical_angles_at_finite, sun_vector_quarter.
  cbn [fst snd col0 col2]. split.
  - destruct (sign_cases 0) as [[H _] | [[_ H] | [H _]]]; [lra | exact H | lra].
  - rewrite asin_0. cbn [num_gtb].
    rewrite (proj2 (Rltb_true (-5) (57.296 * 0))) by lra. reflexivity.
Qed.

(** C10, amended.  The alarms of [check_range] are set by strict
    comparisons: "Sun on -X" when sign_x < 0, "Sun above sunshade" when
    sun_angle > -5, "Sun > Y angle limit" when sun_angle_SC > ylim.  They
    are not the negations of the conditions of [calculate_allowable_map]:
    on a day where sign_x = 0, sun_angle = -5 or sun_angle_SC = ylim, the
    alarm of that condition is not printed, no alarm at all is printed
    unless another condition is strictly violated, and the map of that
    day's orientation is false, the day taken as the middle, the start or
    the end of the sector. *)
Theorem check_range_silent_at_boundary (d e r ylim : R) (i : Z) (w : World)
    (Hb : sign_x_at (d + IZR i) e r = 0%Z
          \/ sun_angle_at (d + IZR i) e r = Finite (-5)
          \/ sun_angle_SC_at (d + IZR i) e r = Finite ylim) :
  exists l : line,
    check_range_day d e r ylim i w
    = (Ok tt, mkWorld (warnings w) (stdout w ++ [l]) (files w))
    /\ get_critical_angles (Scalar (d + IZR i)) (Scalar e) (Scalar r) w
       = (Ok ([l_sign_x l], [l_sun_angle l], [l_sun_angle_SC l]), w)
    /\ l_cx l = (if (l_sign_x l <? 0)%Z then "Sun on -X" else "")
    /\ l_cz l = (if num_gtb (l_sun_angle l) (-5) then "Sun above sunshade"
                 else "")
    /\ l_cy l = (if num_gtb (l_sun_angle_SC l) ylim then "Sun > Y angle limit"
                 else "")
    /\ ((l_sign_x l = 0%Z /\ l_cx l = "")
        \/ (l_sun_angle l = Finite (-5) /\ l_cz l = "")
        \/ (l_sun_angle_SC l = Finite ylim /\ l_cy l = ""))
    /\ ((l_cx l = "" /\ l_cy l = "" /\ l_cz l = "")
        \/ (l_sign_x l < 0)%Z
        \/ num_gtb (l_sun_angle l) (-5) = true
        \/ num_gtb (l_sun_angle_SC l) ylim = true)
    /\ (forall (ndays : R) (w' : World),
          calculate_allowable_map (scalar (d + IZR i)) (scalar e) (PyFloat r)
                                  ylim ndays w'
          = (Ok (scalar false), w')
          /\ calculate_allowable_map (scalar (d + IZR i + ndays)) (scalar e)
                                     (PyFloat r) ylim ndays w'
             = (Ok (scalar false), w')
          /\ calculate_allowable_map (scalar (d + IZR i - ndays)) (scalar e)
                                     (PyFloat r) ylim ndays w'
             = (Ok (scalar false), w')).
Proof.
  exists (day_line d e r ylim i).
  split; [apply check_range_day_prints |].
  split; [rewrite gca_scalars, results_of_one_at; reflexivity |].
  unfold day_line. cbn [l_sign_x l_sun_angle l_sun_angle_SC l_cx l_cy l_cz].
  repeat (split; [reflexivity |]).
  split; [| split].
  - destruct Hb as [H | [H | H]]; rewrite H.
    + left. split; reflexivity.
    + right; left. split; [reflexivity |]. cbn [num_gtb].
      rewrite (proj2 (Rltb_false (-5) (-5))) by lra. reflexivity.
    + right; right. split; [reflexivity |]. cbn [num_gtb].
      rewrite (proj2 (Rltb_false ylim ylim)) by lra. reflexivity.
  - destruct (sign_x_at (d + IZR i) e r <? 0)%Z eqn:Ex;
      [right; left; apply Z.ltb_lt; exact Ex |].
    destruct (num_gtb (sun_angle_at (d + IZR i) e r) (-5));
      [right; right; left; reflexivity |].
    destruct (num_gtb (sun_angle_SC_at (d + IZR i) e r) ylim);
      [right; right; right; reflexivity |].
    left. repeat split.
  - pose proof (conditions_at_boundary ylim _ e r Hb) as Hc.
    intros ndays w'. rewrite !scalar_map_at. unfold spec_allowable.
    replace (d + IZR i + ndays - ndays) with (d + IZR i) by lra.
    replace (d + IZR i - ndays + ndays) with (d + IZR i) by lra.
    rewrite Hc, !andb_false_r. cbn [andb]. auto.
Qed.

Lemma sign_x_at_origin : sign_x_at (0 + IZR 0) 0 0 = 0%Z.
Proof.
  replace (0 + IZR 0) with 0 by lra.
  unfold sign_x_at. rewrite critical_angles_at_finite, sun_vector_origin.
  cbn [fst snd col0].
  destruct (sign_cases 0) as [[H _] | [[_ H] | [H _]]]; [lra | exact H | lra].
Qed.

Lemma check_range_silent_at_boundary_witness :
  exists l : line,
    check_range_day 0 0 0 15 0 empty_world
    = (Ok tt, mkWorld (warnings empty_world) (stdout empty_world ++ [l])
                      (files empty_world))
    /\ get_critical_angles (Scalar (0 + IZR 0)) (Scalar 0) (Scalar 0)
                           empty_world
       = (Ok ([l_sign_x l], [l_sun_angle l], [l_sun_angle_SC l]), empty_world)
    /\ l_cx l = (if (l_sign_x l <? 0)%Z then "Sun on -X" else "")
    /\ l_cz l = (if num_gtb (l_sun_angle l) (-5) then "Sun above sunshade"
                 else "")
    /\ l_cy l = (if num_gtb (l_sun_angle_SC l) 15 then "Sun > Y angle limit"
                 else "")
    /\ ((l_sign_x l = 0%Z /\ l_cx l = "")
        \/ (l_sun_angle l = Finite (-5) /\ l_cz l = "")
        \/ (l_sun_angle_SC l = Finite 15 /\ l_cy l = ""))
    /\ ((l_cx l = "" /\ l_cy l = "" /\ l_cz l = "")
        \/ (l_sign_x l < 0)%Z
        \/ num_gtb (l_sun_angle l) (-5) = true
        \/ num_gtb (l_sun_angle_SC l) 15 = true)
    /\ (forall (ndays : R) (w' : World),
          calculate_allowable_map (scalar (0 + IZR 0)) (scalar 0) (PyFloat 0)
                                  15 ndays w'
          = (Ok (scalar false), w')
          /\ calculate_allowable_map (scalar (0 + IZR 0 + ndays)) (scalar 0)
                                     (PyFloat 0) 15 ndays w'
             = (Ok (scalar false), w')
          /\ calculate_allowable_map (scalar (0 + IZR 0 - ndays)) (scalar 0)
                                     (PyFloat 0) 15 ndays w'
             = (Ok (scalar false), w')).
Proof.
  apply (check_range_silent_at_boundary 0 0 0 15 0 empty_world).
  left. exact sign_x_at_origin.
Defined.

(** At dlong = decl = roll = 0, on the day 0, sign_x is 0: [check_range]
    prints no alarm at all, and the orientation is not allowable. *)
Lemma check_range_origin_no_alarm :
  l_cx (day_line 0 0 0 15 0) = ""
  /\ l_cy (day_line 0 0 0 15 0) = ""
  /\ l_cz (day_line 0 0 0 15 0) = ""
  /\ spec_allowable 15 14 0 0 0 = false.
Proof.
  assert (Hsa : exists sa, sun_angle_at (0 + IZR 0) 0 0 = Finite sa /\ sa < -5).
  { replace (0 + IZR 0) with 0 by lra. unfold sun_angle_at.
    rewrite critical_angles_at_finite, sun_vector_origin.
    cbn [fst snd col2]. eexists. split; [reflexivity |].
    rewrite asin_m1. pose proof PI_bounds. lra. }
  assert (Hsc : sun_angle_SC_at (0 + IZR 0) 0 0 = Finite 0).
  { replace (0 + IZR 0) with 0 by lra. unfold sun_angle_SC_at.
    rewrite critical_angles_at_finite, sun_vector_origin.
    cbn [fst snd col1]. rewrite asin_0, Rabs_R0, Rmult_0_r. reflexivity. }
  destruct Hsa as (sa & Hsa & Hlt).
  unfold day_line. cbn [l_cx l_cy l_cz].
  rewrite sign_x_at_origin, Hsa, Hsc. cbn [num_gtb Z.ltb Z.compare].
  rewrite (proj2 (Rltb_false 15 0)) by lra.
  rewrite (proj2 (Rltb_false (-5) sa)) by lra.
  repeat (split; [reflexivity |]).
  unfold spec_allowable. rewrite (conditions_at_boundary 15 0 0 0).
  - rewrite andb_false_r. reflexivity.
  - left. pose proof sign_x_at_origin as H.
    replace (0 + IZR 0) with 0 in H by lra. exact H.
Qed.

(** ** build_grid *)

Lemma nth_grid {A : Type} (f : nat -> nat -> A) (n0 n1 a i j : nat) (d : A) :
  (i < n0)%nat -> (j < n1)%nat ->
  nth (i * n1 + j)
      (flat_map (fun i' => map (f i') (seq 0 n1)) (seq a n0)) d
  = f (a + i)%nat j.
Proof.
  revert a i. induction n0 as [| n0 IH]; intros a i Hi Hj; [lia |].
  cbn [seq flat_map]. destruct i as [| i].
  - rewrite app_nth1 by (rewrite length_map, length_seq; exact Hj).
    rewrite (nth_map_default _ _ _ 0%nat) by (rewrite length_seq; exact Hj).
    rewrite seq_nth by exact Hj. f_equal; lia.
  - rewrite app_nth2 by (rewrite length_map, length_seq; lia).
    rewrite length_map, length_seq.
    replace (S i * n1 + j - n1)%nat with (i * n1 + j)%nat by lia.
    rewrite IH by lia. f_equal; lia.
Qed.

Lemma map_flat_map {A B C : Type} (f : B -> C) (g : A -> list B) (l : list A) :
  map f (flat_map g l) = flat_map (fun x => map f (g x)) l.
Proof.
  induction l as [| x l IH]; [reflexivity |].
  cbn [flat_map]. rewrite map_app, IH. reflexivity.
Qed.

Lemma flat_map_ext_in {A B : Type} (f g : A -> list B) (l : list A) :
  (forall x, In x l -> f x = g x) -> flat_map f l = flat_map g l.
Proof.
  induction l as [| x l IH]; intros H; [reflexivity |].
  cbn [flat_map]. rewrite (H x) by (left; reflexivity).
  rewrite IH; [reflexivity |]. intros y Hy. apply H. right. exact Hy.
Qed.

Lemma mgrid_shape :
  Z.to_nat (179 - -180) = 359%nat /\ Z.to_nat (90 - -90) = 180%nat
  /\ ((359 + 1) / 2 = 180)%nat /\ ((180 + 1) / 2 = 90)%nat.
Proof. repeat split; vm_compute; reflexivity. Qed.

(** [dlong] after the two slices: -180, -178, ... 178 along the rows. *)
Lemma grid_dlong :
  every_other (fst (mgrid (-180) 179 (-90) 90))
  = mkArr [180%nat; 90%nat] (map fst grid_cells).
Proof.
  destruct mgrid_shape as (H0 & H1 & H2 & H3).
  unfold mgrid. rewrite H0, H1. unfold every_other. cbn [fst shape data].
  rewrite H2, H3. apply (f_equal (mkArr [180%nat; 90%nat])).
  unfold grid_cells. rewrite map_flat_map.
  apply flat_map_ext_in. intros i Hi. apply in_seq in Hi.
  rewrite map_map. apply map_ext_in. intros j Hj. apply in_seq in Hj.
  cbn [fst].
  rewrite (nth_grid (fun i' _ => (-180 + Z.of_nat i')%Z) 359 180 0 (2 * i) (2 * j))
    by lia.
  lia.
Qed.

(** [decl] after the two slices: -90, -88, ... 88 along the columns. *)
Lemma grid_decl :
  every_other (snd (mgrid (-180) 179 (-90) 90))
  = mkArr [180%nat; 90%nat] (map snd grid_cells).
Proof.
  destruct mgrid_shape as (H0 & H1 & H2 & H3).
  unfold mgrid. rewrite H0, H1. unfold every_other. cbn [snd shape data].
  rewrite H2, H3. apply (f_equal (mkArr [180%nat; 90%nat])).
  unfold grid_cells. rewrite map_flat_map.
  apply flat_map_ext_in. intros i Hi. apply in_seq in Hi.
  rewrite map_map. apply map_ext_in. intros j Hj. apply in_seq in Hj.
  cbn [snd].
  rewrite (nth_grid (fun _ j' => (-90 + Z.of_nat j')%Z) 359 180 0 (2 * i) (2 * j))
    by lia.
  lia.
Qed.

Lemma grid_arange : arange (-180) 179 5 = grid_rolls.
Proof. reflexivity. Qed.

Lemma grid_cells_length : length grid_cells = size_of [180%nat; 90%nat].
Proof.
  unfold grid_cells.
  assert (H : forall (l : list nat),
            length (flat_map (fun i => map (fun j => ((-180 + 2 * Z.of_nat i)%Z,
                                                      (-90 + 2 * Z.of_nat j)%Z))
                                           (seq 0 90)) l)
            = (length l * 90)%nat).
  { induction l as [| x l IH]; [reflexivity |].
    cbn [flat_map]. rewrite length_app, IH, length_map, length_seq.
    cbn [length]. lia. }
  rewrite H, length_seq. reflexivity.
Qed.

(** A block that leaves every world as it is leaves it so under
    [catch_warnings] too. *)
Lemma catch_warnings_ignore_quiet {A : Type} (c : M A) (w : World) (r : res A) :
  (forall w0, c w0 = (r, w0)) -> catch_warnings_ignore c w = (r, w).
Proof.
  intros H. unfold catch_warnings_ignore. rewrite H. cbn [stdout files].
  rewrite world_eta. reflexivity.
Qed.

Lemma zip_with_map_same {A B C D : Type} (f : B -> C -> D) (g : A -> B)
    (h : A -> C) (l : list A) :
  zip_with f (map g l) (map h l) = map (fun x => f (g x) (h x)) l.
Proof.
  induction l as [| x l IH]; [reflexivity |].
  cbn [map zip_with]. rewrite IH. reflexivity.
Qed.

Lemma shape_eqb_refl (s : list nat) : shape_eqb s s = true.
Proof.
  induction s as [| n s IH]; [reflexivity |].
  cbn [shape_eqb]. rewrite Nat.eqb_refl, IH. reflexivity.
Qed.

Lemma mask_select_filter {A B : Type} (f : A -> B) (p : A -> bool)
    (s : list nat) (l : list A) (w : World) :
  mask_select (mkArr s (map f l)) (mkArr s (map p l)) w
  = (Ok (map f (filter p l)), w).
Proof.
  unfold mask_select. cbn [shape data]. rewrite shape_eqb_refl. unfold ret.
  apply (f_equal2 pair); [| reflexivity]. apply (f_equal Ok).
  induction l as [| x l IH]; [reflexivity |].
  cbn [map combine filter snd]. destruct (p x); cbn [map fst]; rewrite IH;
    reflexivity.
Qed.

Lemma count_true_filter {A : Type} (p : A -> bool) (s : list nat) (l : list A) :
  count_true (mkArr s (map p l)) = length (filter p l).
Proof.
  unfold count_true. cbn [data].
  induction l as [| x l IH]; [reflexivity |].
  cbn [map filter]. destruct (p x); cbn [length]; rewrite IH; reflexivity.
Qed.

Lemma map_repeat_length {A B C : Type} (g : B -> C) (x : B) (l : list A) :
  map g (repeat x (length l)) = map (fun _ => g x) l.
Proof.
  induction l as [| y l IH]; [reflexivity |].
  cbn [length repeat map]. rewrite IH. reflexivity.
Qed.

Lemma transpose_columns {A : Type} (f g h : A -> R) (l : list A) :
  transpose [map f l; map g l; map h l] = map (fun x => [f x; g x; h x]) l.
Proof.
  unfold transpose. rewrite length_map.
  destruct l as [| x0 l0]; [reflexivity |].
  set (l := x0 :: l0).
  apply (nth_ext _ _ [] []).
  - rewrite !length_map, length_seq. reflexivity.
  - intros i Hi. rewrite length_map, length_seq in Hi.
    rewrite (nth_map_default _ _ i 0%nat) by (rewrite length_seq; exact Hi).
    rewrite seq_nth by exact Hi.
    rewrite (nth_map_default _ l i x0) by exact Hi.
    cbn [map Nat.add].
    rewrite !(nth_map_default _ l i x0) by exact Hi. reflexivity.
Qed.

Lemma same_lengths_const {A : Type} (n : nat) (rows : list (list A)) :
  Forall (fun r => length r = n) rows -> same_lengths rows = true.
Proof.
  intros H. destruct H as [| r rows Hr Hrows]; [reflexivity |].
  cbn [same_lengths]. apply forallb_forall. intros r' Hin.
  rewrite Forall_forall in Hrows. apply Nat.eqb_eq.
  rewrite (Hrows r' Hin), Hr. reflexivity.
Qed.

Lemma build_grid_block_rows (s : list nat) (cells : list (Z * Z)) (roll : Z)
    (w : World) :
  length cells = size_of s ->
  build_grid_block (mkArr s (map fst cells)) (mkArr s (map snd cells)) roll w
  = (Ok (block_rows cells roll), w).
Proof.
  intros Hlen. unfold build_grid_block, build_grid_block_fl; fold_exact.
  set (p := fun c : Z * Z =>
              spec_allowable 15 14 (IZR (fst c)) (IZR (snd c)) (IZR roll)).
  erewrite bind_ok.
  2:{ apply catch_warnings_ignore_quiet. intros w0.
      rewrite (calculate_allowable_map_scalar_roll _ _ (NpInteger roll)
                 (IZR roll)).
      - unfold arr_map. cbn [shape data]. rewrite !map_map.
        rewrite (zip_with_map_same
                   (fun d e => spec_allowable 15 14 d e (IZR roll))
                   (fun c => IZR (fst c)) (fun c => IZR (snd c))).
        fold p. reflexivity.
      - unfold well_shaped, arr_map. cbn [shape data].
        rewrite !length_map. exact Hlen.
      - unfold arr_map. cbn [data]. rewrite !length_map. reflexivity.
      - reflexivity. }
  erewrite bind_ok by apply mask_select_filter.
  erewrite bind_ok by apply mask_select_filter.
  rewrite count_true_filter, (map_repeat_length _ 1 (filter p cells)), !map_map.
  unfold vstack.
  assert (Hs : same_lengths
                 [map (fun x => IZR (fst x)) (filter p cells);
                  map (fun x => IZR (snd x)) (filter p cells);
                  map (fun _ : Z * Z => 1 * IZR roll) (filter p cells)]
               = true).
  { apply (same_lengths_const (length (filter p cells))).
    repeat constructor; apply length_map. }
  rewrite Hs. unfold bind at 1. unfold ret at 1.
  rewrite (transpose_columns (fun x => IZR (fst x)) (fun x => IZR (snd x))
             (fun _ => 1 * IZR roll)).
  reflexivity.
Qed.

Lemma for_append_ok {A B : Type} (body : A -> M B) (f : A -> B) (xs : list A)
    (r : list B) (w : World) :
  (forall x, body x w = (Ok (f x), w)) ->
  for_append xs body r w = (Ok (r ++ map f xs), w).
Proof.
  intros Hb. revert r. induction xs as [| x xs IH]; intros r.
  - cbn [for_append map]. rewrite app_nil_r. reflexivity.
  - cbn [for_append]. erewrite bind_ok by apply Hb.
    rewrite IH, <- app_assoc. reflexivity.
Qed.

Lemma block_rows_length (cells : list (Z * Z)) (roll : Z) :
  Forall (fun r => length r = 3%nat) (block_rows cells roll).
Proof.
  unfold block_rows. apply Forall_map, Forall_forall. intros; reflexivity.
Qed.

Lemma spec_grid_rows_blocks :
  flat_map (block_rows grid_cells) grid_rolls = spec_grid_rows.
Proof. unfold spec_grid_rows, block_rows. reflexivity. Qed.

Lemma build_grid_unfold :
  build_grid
  = (r <- for_append (arange (-180) 179 5)
            (build_grid_block
               (every_other (fst (mgrid (-180) 179 (-90) 90)))
               (every_other (snd (mgrid (-180) 179 (-90) 90))))
            [] ;;
     r <- vstack_blocks r ;;
     pickle_dump r grid_path).
Proof.
  unfold build_grid, build_grid_fl, mgrid. cbv beta iota zeta. reflexivity.
Qed.

Lemma build_grid_rows (w : World) :
  build_grid w
  = (Ok tt, mkWorld (warnings w) (stdout w)
              ((grid_path, spec_grid_rows) :: files w)).
Proof.
  rewrite build_grid_unfold, grid_dlong, grid_decl, grid_arange.
  erewrite bind_ok.
  2:{ apply (for_append_ok _ (block_rows grid_cells)). intros roll.
      apply build_grid_block_rows, grid_cells_length. }
  cbn [app]. unfold vstack_blocks.
  rewrite (same_lengths_const 3).
  2:{ apply Forall_concat, Forall_map, Forall_forall. intros roll _.
      apply block_rows_length. }
  unfold bind at 1. unfold ret at 1.
  rewrite <- flat_map_concat_map, spec_grid_rows_blocks.
  unfold pickle_dump. reflexivity.
Qed.

Lemma in_grid_cells (c : Z * Z) :
  In c grid_cells ->
  (-180 <= fst c <= 178)%Z /\ (fst c mod 2 = 0)%Z
  /\ (-90 <= snd c <= 88)%Z /\ (snd c mod 2 = 0)%Z.
Proof.
  unfold grid_cells. intros H.
  apply in_flat_map in H. destruct H as (i & Hi & H).
  apply in_map_iff in H. destruct H as (j & <- & Hj).
  apply in_seq in Hi. apply in_seq in Hj. cbn [fst snd].
  replace (-180 + 2 * Z.of_nat i)%Z with ((Z.of_nat i - 90) * 2)%Z by lia.
  replace (-90 + 2 * Z.of_nat j)%Z with ((Z.of_nat j - 45) * 2)%Z by lia.
  rewrite !Z_mod_mult. lia.
Qed.

Lemma in_grid_rolls (roll : Z) :
  In roll grid_rolls -> (-180 <= roll <= 178)%Z /\ (roll mod 5 = 0)%Z.
Proof.
  unfold grid_rolls. intros H.
  apply in_map_iff in H. destruct H as (k & <- & Hk). apply in_seq in Hk.
  replace (-180 + 5 * Z.of_nat k)%Z with ((Z.of_nat k - 36) * 5)%Z by lia.
  rewrite Z_mod_mult. lia.
Qed.

Lemma block_rows_schema (cells : list (Z * Z)) (rolls : list Z)
    (P : Z * Z -> Prop) (Q : Z -> Prop) :
  (forall c, In c cells -> P c) -> (forall r, In r rolls -> Q r) ->
  Forall
    (fun row =>
       exists (c : Z * Z) (ro : Z),
         row = [IZR (fst c); IZR (snd c); IZR ro] /\ P c /\ Q ro
         /\ spec_allowable 15 14 (IZR (fst c)) (IZR (snd c)) (IZR ro) = true)
    (flat_map (block_rows cells) rolls).
Proof.
  intros HP HQ. apply Forall_forall. intros row Hrow.
  apply in_flat_map in Hrow. destruct Hrow as (roll & Hroll & Hrow).
  unfold block_rows in Hrow.
  apply in_map_iff in Hrow. destruct Hrow as (c & <- & Hc).
  apply filter_In in Hc. destruct Hc as [Hc Hallow].
  exists c, roll. split; [rewrite Rmult_1_l; reflexivity |].
  split; [apply HP, Hc |]. split; [apply HQ, Hroll | exact Hallow].
Qed.

(** C6.  [build_grid] returns, and the array it pickles to
    allowable_pointings_grid.p has one row for each allowable triple of
    the grid, roll by roll.  Each row has three columns, in the order
    (dlong, decl, roll): dlong is an even number from -180 to 178, decl an
    even number from -90 to 88, and roll a multiple of 5 from -180 to 178. *)
Theorem build_grid_schema (w : World) :
  exists rows : list (list R),
    build_grid w
    = (Ok tt, mkWorld (warnings w) (stdout w) ((grid_path, rows) :: files w))
    /\ rows = spec_grid_rows
    /\ Forall
         (fun row =>
            exists dl de ro : Z,
              row = [IZR dl; IZR de; IZR ro]
              /\ (-180 <= dl <= 178)%Z /\ (dl mod 2 = 0)%Z
              /\ (-90 <= de <= 88)%Z /\ (de mod 2 = 0)%Z
              /\ (-180 <= ro <= 178)%Z /\ (ro mod 5 = 0)%Z
              /\ spec_allowable 15 14 (IZR dl) (IZR de) (IZR ro) = true)
         rows.
Proof.
  exists spec_grid_rows. split; [apply build_grid_rows |].
  split; [reflexivity |].
  rewrite <- spec_grid_rows_blocks.
  eapply Forall_impl;
    [| exact (block_rows_schema grid_cells grid_rolls _ _
                in_grid_cells in_grid_rolls)].
  intros row (c & ro & Hrow & (H1 & H2 & H3 & H4) & (H5 & H6) & Hallow).
  exists (fst c), (snd c), ro.
  exact (conj Hrow (conj H1 (conj H2 (conj H3 (conj H4 (conj H5 (conj H6 Hallow))))))).
Qed.

(** * Further properties of the code *)

(** ** The Sun vector in closed form *)

Lemma deg2rad_opp (x : R) : deg2rad (- x) = - deg2rad x.
Proof. unfold deg2rad. lra. Qed.

Lemma sun_vector_components (d e r : R) :
  sun_vector d e r
  = (cos (deg2rad r) * sin (deg2rad e) * cos (deg2rad d)
     - sin (deg2rad r) * sin (deg2rad d),
     - sin (deg2rad r) * sin (deg2rad e) * cos (deg2rad d)
     - cos (deg2rad r) * sin (deg2rad d),
     - (cos (deg2rad e) * cos (deg2rad d))).
Proof.
  rewrite sun_vector_spec. unfold spec_sun_vector, Rx, Ry, Rz.
  rewrite !deg2rad_opp, !cos_neg, !sin_neg.
  f_equal; [f_equal |]; ring.
Qed.

Lemma critical_angles_at_mirror (d e r : R) :
  critical_angles_at (- d) e (- r) = critical_angles_at d e r.
Proof.
  rewrite !critical_angles_at_finite, !sun_vector_components.
  unfold col0, col1, col2. cbn [fst snd].
  rewrite !deg2rad_opp, !cos_neg, !sin_neg.
  set (y := - sin (deg2rad r) * sin (deg2rad e) * cos (deg2rad d)
            - cos (deg2rad r) * sin (deg2rad d)).
  replace (- - sin (deg2rad r) * sin (deg2rad e) * cos (deg2rad d)
           - cos (deg2rad r) * - sin (deg2rad d))
    with (- y) by (unfold y; ring).
  rewrite (asin_opp y), Rabs_Ropp.
  replace (cos (deg2rad r) * sin (deg2rad e) * cos (deg2rad d)
           - - sin (deg2rad r) * - sin (deg2rad d))
    with (cos (deg2rad r) * sin (deg2rad e) * cos (deg2rad d)
          - sin (deg2rad r) * sin (deg2rad d)) by ring.
  reflexivity.
Qed.

Lemma conditions_at_mirror (ylim d e r : R) :
  conditions_at ylim (- d) e (- r) = conditions_at ylim d e r.
Proof.
  unfold conditions_at, sign_x_at, sun_angle_at, sun_angle_SC_at.
  rewrite critical_angles_at_mirror. reflexivity.
Qed.

Lemma spec_allowable_mirror (ylim ndays d e r : R) :
  spec_allowable ylim ndays (- d) e (- r) = spec_allowable ylim ndays d e r.
Proof.
  unfold spec_allowable.
  replace (- d - ndays) with (- (d + ndays)) by ring.
  replace (- d + ndays) with (- (d - ndays)) by ring.
  rewrite !conditions_at_mirror.
  destruct (conditions_at ylim (d + ndays) e r),
    (conditions_at ylim d e r), (conditions_at ylim (d - ndays) e r);
    reflexivity.
Qed.

(** X3.  The evaluator and the map are symmetric under the change of
    (dlong, roll) into (-dlong, -roll): the three results are the same, and
    so is the allowability. *)
Theorem mirror_symmetry (dlong decl roll ylim ndays : R) (w : World) :
  get_critical_angles (Scalar (- dlong)) (Scalar decl) (Scalar (- roll)) w
  = get_critical_angles (Scalar dlong) (Scalar decl) (Scalar roll) w
  /\ calculate_allowable_map (scalar (- dlong)) (scalar decl)
       (PyFloat (- roll)) ylim ndays w
     = calculate_allowable_map (scalar dlong) (scalar decl) (PyFloat roll)
         ylim ndays w.
Proof.
  split.
  - rewrite !gca_scalars, !results_of_one_at.
    unfold sign_x_at, sun_angle_at, sun_angle_SC_at.
    rewrite critical_angles_at_mirror. reflexivity.
  - rewrite !scalar_map_at, spec_allowable_mirror. reflexivity.
Qed.

(** ** The ranges of the two angles *)

Lemma PI_lower : 3.141581 < PI.
Proof.
  pose proof (PI_2_3_7_ineq 4) as H.
  unfold PI_2_3_7_tg, Ratan_seq, tg_alt in H. simpl in H. lra.
Qed.

(** X5.  Under any rounding, whatever [get_critical_angles] returns, for
    numbers or for arrays, each sun_angle is NaN or lies strictly between
    -90.001 and 90.001 degrees, and each sun_angle_SC is NaN or lies from 0 to
    below 90.001: arcsin stays within pi / 2 of 0, and 57.296 * pi / 2 is
    below 90.001.  The bound is not 90, since 57.296 is more than 180 / pi:
    for the row (0, 0, -1) sun_angle is 57.296 * -(pi / 2), which is below
    -90. *)
Theorem sun_angles_range (fl : rounding) (dlong decl roll : array_like)
    (w w' : World) (sxs : list Z) (sas scs : list num)
    (Hrun : get_critical_angles_fl fl dlong decl roll w
            = (Ok (sxs, sas, scs), w')) :
  Forall (fun sa => sa = NaN
                    \/ exists x, sa = Finite x /\ -90.001 < x < 90.001) sas
  /\ Forall (fun sc => sc = NaN
                       \/ exists x, sc = Finite x /\ 0 <= x < 90.001) scs
  /\ exists x, angles_of_rows [(0, 0, -1)] = ([0%Z], [Finite x], [Finite 0])
               /\ x < -90.
Proof.
  pose proof PI_bounds as [_ Hpi]. pose proof PI_lower as Hlo.
  split; [| split].
  - destruct (gca_fl_return_or_raise fl dlong decl roll)
      as [[vsunf Hv] | [e He]].
    2:{ rewrite He in Hrun. discriminate. }
    rewrite Hv in Hrun. apply angles_of_vsunf_ok in Hrun.
    unfold angles_of_rows in Hrun. injection Hrun as _ -> _.
    apply Forall_map, Forall_forall. intros v _.
    destruct (Rle_dec (-1) (col2 v)) as [H1 | H1];
      [destruct (Rle_dec (col2 v) 1) as [H2 | H2] |].
    + right. rewrite arcsin1_in_domain by lra. cbn [num_scale].
      eexists. split; [reflexivity |].
      pose proof (asin_bound (col2 v)) as [B1 B2]. lra.
    + left. rewrite arcsin1_above by lra. reflexivity.
    + left. rewrite arcsin1_below by lra. reflexivity.
  - destruct (gca_fl_return_or_raise fl dlong decl roll)
      as [[vsunf Hv] | [e He]].
    2:{ rewrite He in Hrun. discriminate. }
    rewrite Hv in Hrun. apply angles_of_vsunf_ok in Hrun.
    unfold angles_of_rows in Hrun. injection Hrun as _ _ ->.
    apply Forall_map, Forall_forall. intros v _.
    destruct (Rle_dec (-1) (col1 v)) as [H1 | H1];
      [destruct (Rle_dec (col1 v) 1) as [H2 | H2] |].
    + right. rewrite arcsin1_in_domain by lra. cbn [num_abs num_scale].
      eexists. split; [reflexivity |].
      pose proof (asin_bound (col1 v)) as [B1 B2].
      pose proof (Rabs_pos (asin (col1 v))) as B3.
      assert (B4 : Rabs (asin (col1 v)) <= PI / 2) by (apply Rabs_le; lra).
      lra.
    + left. rewrite arcsin1_above by lra. reflexivity.
    + left. rewrite arcsin1_below by lra. reflexivity.
  - exists (57.296 * - (PI / 2)). split; [| lra].
    unfold angles_of_rows, col0, col1, col2. cbn [map fst snd].
    rewrite (arcsin1_in_domain (-1)), (arcsin1_in_domain 0) by lra.
    rewrite asin_m1, asin_0, sign_0. cbn [num_abs num_scale].
    rewrite Rabs_R0, Rmult_0_r. reflexivity.
Qed.

Lemma sun_angles_range_witness :
  Forall (fun sa => sa = NaN
                    \/ exists x, sa = Finite x /\ -90.001 < x < 90.001)
         [NaN]
  /\ Forall (fun sc => sc = NaN
                       \/ exists x, sc = Finite x /\ 0 <= x < 90.001)
            [Finite 0]
  /\ exists x, angles_of_rows [(0, 0, -1)] = ([0%Z], [Finite x], [Finite 0])
               /\ x < -90.
Proof.
  apply (sun_angles_range drift_z (Scalar 0) (Scalar 0) (Scalar 3)
           empty_world
           (mkWorld [Issued "invalid value encountered in arcsin"] [] [])
           [0%Z]).
  exact gca_fl_drift_z.
Defined.

(** ** The report of check_range *)

Lemma range_length (lo hi : Z) : length (range lo hi) = Z.to_nat (hi - lo).
Proof. unfold range. rewrite length_map, length_seq. reflexivity. Qed.

Lemma arcsin_events_keep (xs ys : list R) (w : World) :
  same_settings
    (mkWorld (warnings w ++ arcsin_events xs ++ arcsin_events ys)
             (stdout w) (files w)) w.
Proof.
  unfold same_settings. cbn [warnings]. rewrite app_assoc.
  destruct (arcsin_events_settings ys (warnings w ++ arcsin_events xs))
    as [H1 H2].
  destruct (arcsin_events_settings xs (warnings w)) as [H3 H4].
  split; congruence.
Qed.

(** One turn of the loop under a rounding that leaves the row [v]. *)
Lemma check_range_day_fl_prints (fl : rounding) (d e r ylim : R) (i : Z)
    (v : vec) (w : World) :
  vsunf_of fl (d + IZR i) e r = [v] ->
  np_invalid (warnings w) = ErrWarn -> wfilter (warnings w) = FilterDefault ->
  check_range_day_fl fl d e r ylim i w
  = (Ok tt,
     mkWorld (warnings w ++ arcsin_events [col2 v] ++ arcsin_events [col1 v])
             (stdout w ++ [line_of_row ylim i v]) (files w)).
Proof.
  intros Hv He Hf. unfold check_range_day_fl.
  erewrite bind_ok.
  2:{ rewrite gca_fl_scalars, Hv. apply angles_of_vsunf_default; assumption. }
  reflexivity.
Qed.

Lemma check_range_fl_prints (fl : rounding) (d e r ylim : R) (days : list Z)
    (w : World) :
  (forall t : R, length (vsunf_of fl t e r) = 1%nat) ->
  np_invalid (warnings w) = ErrWarn -> wfilter (warnings w) = FilterDefault ->
  exists w' : World,
    for_each days (check_range_day_fl fl d e r ylim) w = (Ok tt, w')
    /\ stdout w'
       = stdout w
         ++ map (fun i => line_of_row ylim i
                            (hd (0, 0, 0) (vsunf_of fl (d + IZR i) e r)))
                days
    /\ files w' = files w
    /\ same_settings w' w.
Proof.
  intros Hlen. revert w. induction days as [| i days IH]; intros w He Hf.
  - exists w. cbn [for_each map]. rewrite app_nil_r.
    repeat split; reflexivity.
  - pose proof (Hlen (d + IZR i)) as Hi.
    destruct (vsunf_of fl (d + IZR i) e r) as [| v [| v' l]] eqn:Hv;
      try discriminate Hi.
    pose proof (check_range_day_fl_prints fl d e r ylim i v w Hv He Hf) as Hd.
    pose proof (arcsin_events_keep [col2 v] [col1 v] w) as [Ke Kf].
    cbn [warnings] in Ke, Kf.
    destruct (IH (mkWorld (warnings w ++ arcsin_events [col2 v]
                             ++ arcsin_events [col1 v])
                          (stdout w ++ [line_of_row ylim i v]) (files w)))
      as (w' & Hrun & Hout & Hfiles & Hset).
    { cbn [warnings]. rewrite Ke. exact He. }
    { cbn [warnings]. rewrite Kf. exact Hf. }
    exists w'. cbn [for_each]. rewrite (bind_ok _ _ _ _ _ Hd).
    split; [exact Hrun |]. split.
    { rewrite Hout. cbn [stdout map]. rewrite Hv, <- app_assoc. reflexivity. }
    split; [exact Hfiles |].
    apply (same_settings_trans _ _ _ Hset). split; cbn [warnings]; assumption.
Qed.

(** X7.  Under the settings numpy and Python start with, and under any
    rounding that leaves one row for one orientation, [check_range] returns
    for every orientation and every ndays.  It prints one line for each day
    from -ndays to ndays, in that order, 2 * ndays + 1 lines (none when
    ndays is negative), writes no file and leaves the two settings as they
    are.  Each line holds what [get_critical_angles] returns for dlong plus
    the day, and its three alarms are set by the strict comparisons
    sign_x < 0, sun_angle > -5 and sun_angle_SC > ylim, which are false at
    NaN. *)
Theorem check_range_report (fl : rounding) (dlong decl roll ylim : R)
    (ndays : Z) (w : World)
    (Hlen : forall t : R, length (vsunf_of fl t decl roll) = 1%nat)
    (Herr : np_invalid (warnings w) = ErrWarn)
    (Hfil : wfilter (warnings w) = FilterDefault) :
  exists (ls : list line) (w' : World),
    check_range_fl fl dlong decl roll ylim ndays w = (Ok tt, w')
    /\ stdout w' = stdout w ++ ls
    /\ files w' = files w
    /\ same_settings w' w
    /\ length ls = Z.to_nat (2 * ndays + 1)
    /\ map l_day ls = range (- ndays) (ndays + 1)
    /\ Forall
         (fun l =>
            fst (get_critical_angles_fl fl (Scalar (dlong + IZR (l_day l)))
                   (Scalar decl) (Scalar roll) w)
            = Ok ([l_sign_x l], [l_sun_angle l], [l_sun_angle_SC l])
            /\ l_cx l = (if (l_sign_x l <? 0)%Z then "Sun on -X" else "")
            /\ l_cz l = (if num_gtb (l_sun_angle l) (-5)
                         then "Sun above sunshade" else "")
            /\ l_cy l = (if num_gtb (l_sun_angle_SC l) ylim
                         then "Sun > Y angle limit" else ""))
         ls.
Proof.
  destruct (check_range_fl_prints fl dlong decl roll ylim
              (range (- ndays) (ndays + 1)) w Hlen Herr Hfil)
    as (w' & Hrun & Hout & Hfiles & Hset).
  eexists _, w'. split; [exact Hrun |]. split; [exact Hout |].
  split; [exact Hfiles |]. split; [exact Hset |]. split.
  { rewrite length_map, range_length. f_equal. lia. }
  split.
  { rewrite map_map. cbn [line_of_row l_day]. apply map_id. }
  apply Forall_map, Forall_forall. intros i _.
  cbn [line_of_row l_day l_sign_x l_sun_angle l_sun_angle_SC l_cx l_cy l_cz].
  split; [| repeat split; reflexivity].
  rewrite gca_fl_scalars, angles_of_vsunf_default by assumption.
  pose proof (Hlen (dlong + IZR i)) as Hi.
  destruct (vsunf_of fl (dlong + IZR i) decl roll) as [| v [| v' l]];
    try discriminate Hi.
  reflexivity.
Qed.

Lemma check_range_report_witness :
  exists (ls : list line) (w' : World),
    check_range_fl drift_z 0 0 3 15 0 empty_world = (Ok tt, w')
    /\ stdout w' = stdout empty_world ++ ls
    /\ files w' = files empty_world
    /\ same_settings w' empty_world
    /\ length ls = Z.to_nat (2 * 0 + 1)
    /\ map l_day ls = range (- 0) (0 + 1)
    /\ Forall
         (fun l =>
            fst (get_critical_angles_fl drift_z (Scalar (0 + IZR (l_day l)))
                   (Scalar 0) (Scalar 3) empty_world)
            = Ok ([l_sign_x l], [l_sun_angle l], [l_sun_angle_SC l])
            /\ l_cx l = (if (l_sign_x l <? 0)%Z then "Sun on -X" else "")
            /\ l_cz l = (if num_gtb (l_sun_angle l) (-5)
                         then "Sun above sunshade" else "")
            /\ l_cy l = (if num_gtb (l_sun_angle_SC l) 15
                         then "Sun > Y angle limit" else ""))
         ls.
Proof.
  apply (check_range_report drift_z 0 0 3 15 0 empty_world);
    [intros t; reflexivity | reflexivity | reflexivity].
Defined.

Lemma day_line_alarm (d e r ylim : R) (i : Z) :
  l_cx (day_line d e r ylim i) <> ""
  \/ l_cy (day_line d e r ylim i) <> ""
  \/ l_cz (day_line d e r ylim i) <> "" ->
  conditions_at ylim (d + IZR i) e r = false.
Proof.
  unfold day_line, conditions_at. cbn [l_cx l_cy l_cz].
  intros [H | [H | H]].
  - destruct (sign_x_at (d + IZR i) e r <? 0)%Z eqn:E;
      [| exfalso; apply H; reflexivity].
    apply Z.ltb_lt in E.
    assert (E' : (0 <? sign_x_at (d + IZR i) e r)%Z = false)
      by (apply Z.ltb_ge; lia).
    rewrite E'. reflexivity.
  - destruct (sun_angle_SC_at (d + IZR i) e r) as [x |];
      [| rewrite andb_false_r; reflexivity].
    cbn [num_gtb num_ltb] in *.
    destruct (Rltb ylim x) eqn:E; [| exfalso; apply H; reflexivity].
    apply Rltb_true in E.
    rewrite (proj2 (Rltb_false x ylim)) by lra. apply andb_false_r.
  - destruct (sun_angle_at (d + IZR i) e r) as [x |];
      [| rewrite andb_false_r; reflexivity].
    cbn [num_gtb num_ltb] in *.
    destruct (Rltb (-5) x) eqn:E; [| exfalso; apply H; reflexivity].
    apply Rltb_true in E.
    rewrite (proj2 (Rltb_false x (-5))) by lra.
    rewrite andb_false_r. reflexivity.
Qed.

(** X8.  An alarm that [check_range] prints for the first, the middle or the
    last day of the sector means that [calculate_allowable_map] finds the
    orientation not allowable for that sector. *)
Theorem alarm_implies_not_allowable (dlong decl roll ylim : R) (ndays : Z)
    (ls : list line) (l : line) (w : World)
    (Hrun : check_range dlong decl roll ylim ndays w
            = (Ok tt, mkWorld (warnings w) (stdout w ++ ls) (files w)))
    (Hin : In l ls)
    (Hday : l_day l = (- ndays)%Z \/ l_day l = 0%Z \/ l_day l = ndays)
    (Halarm : l_cx l <> "" \/ l_cy l <> "" \/ l_cz l <> "") :
  calculate_allowable_map (scalar dlong) (scalar decl) (PyFloat roll) ylim
                          (IZR ndays) w
  = (Ok (scalar false), w).
Proof.
  rewrite check_range_prints in Hrun.
  injection Hrun as Hls. apply app_inv_head in Hls. subst ls.
  apply in_map_iff in Hin. destruct Hin as (i & <- & _).
  apply day_line_alarm in Halarm. cbn [day_line l_day] in Hday.
  rewrite scalar_map_at. unfold spec_allowable.
  destruct Hday as [-> | [-> | ->]].
  - rewrite opp_IZR in Halarm.
    replace (dlong + - IZR ndays) with (dlong - IZR ndays) in Halarm by ring.
    rewrite Halarm. reflexivity.
  - replace (dlong + IZR 0) with dlong in Halarm by (simpl; ring).
    rewrite Halarm, andb_false_r. reflexivity.
  - rewrite Halarm, andb_false_r. reflexivity.
Qed.

Lemma day_line_quarter_cz :
  l_cz (day_line 90 0 0 15 0) = "Sun above sunshade".
Proof.
  unfold day_line. cbn [l_cz].
  replace (90 + IZR 0) with 90 by lra.
  unfold sun_angle_at.
  rewrite critical_angles_at_finite, sun_vector_quarter.
  cbn [fst snd col2]. rewrite asin_0. cbn [num_gtb].
  rewrite (proj2 (Rltb_true (-5) (57.296 * 0))) by lra. reflexivity.
Qed.

Lemma alarm_implies_not_allowable_witness :
  calculate_allowable_map (scalar 90) (scalar 0) (PyFloat 0) 15 (IZR 14)
                          empty_world
  = (Ok (scalar false), empty_world).
Proof.
  apply (alarm_implies_not_allowable 90 0 0 15 14
           (map (day_line 90 0 0 15) (range (- 14) (14 + 1)))
           (day_line 90 0 0 15 0) empty_world).
  - apply check_range_prints.
  - apply in_map_iff. exists 0%Z. split; [reflexivity |].
    unfold range. apply in_map_iff. exists 14%nat.
    split; [reflexivity | apply in_seq; simpl; lia].
  - right; left. reflexivity.
  - right; right. rewrite day_line_quarter_cz. discriminate.
Defined.

(** ** The map on arrays *)

(** X9.  On arrays dlong and decl of one size and a roll that is a number, the
    map has the shape of dlong, and its cell j is what the function returns
    for the numbers dlong[j] and decl[j]. *)
Theorem calculate_allowable_map_cellwise (dlong decl : ndarray R)
    (roll : pyobj) (r ylim ndays : R) (w : World)
    (Hd : well_shaped dlong)
    (He : length (data decl) = length (data dlong))
    (Hr : scalar_roll roll = Some r) :
  exists m : ndarray bool,
    calculate_allowable_map dlong decl roll ylim ndays w = (Ok m, w)
    /\ shape m = shape dlong
    /\ length (data m) = length (data dlong)
    /\ forall j, (j < length (data dlong))%nat ->
         calculate_allowable_map (scalar (nth j (data dlong) 0))
           (scalar (nth j (data decl) 0)) roll ylim ndays w
         = (Ok (scalar (nth j (data m) false)), w).
Proof.
  eexists. split;
    [apply (calculate_allowable_map_scalar_roll _ _ roll r); assumption |].
  cbn [shape data]. split; [reflexivity |].
  split; [apply zip_with_length; symmetry; exact He |].
  intros j Hj.
  rewrite (calculate_allowable_map_scalar_roll _ _ roll r);
    [| reflexivity | reflexivity | exact Hr].
  cbn [scalar shape data zip_with].
  rewrite (zip_with_nth _ _ _ j 0 0) by assumption. reflexivity.
Qed.

Lemma calculate_allowable_map_cellwise_witness :
  exists m : ndarray bool,
    calculate_allowable_map (mkArr [2%nat] [0; 10]) (mkArr [2%nat] [0; 20])
                            (PyInt 0) 15 14 empty_world
    = (Ok m, empty_world)
    /\ shape m = [2%nat]
    /\ length (data m) = 2%nat
    /\ forall j, (j < 2)%nat ->
         calculate_allowable_map (scalar (nth j [0; 10] 0))
           (scalar (nth j [0; 20] 0)) (PyInt 0) 15 14 empty_world
         = (Ok (scalar (nth j (data m) false)), empty_world).
Proof.
  apply (calculate_allowable_map_cellwise (mkArr [2%nat] [0; 10])
           (mkArr [2%nat] [0; 20]) (PyInt 0) 0 15 14 empty_world);
    reflexivity.
Defined.

Lemma zip_with3_repeat {A B C D : Type} (f : A -> B -> C -> D)
    (l : list A) (m : list B) (c : C) :
  length m = length l ->
  zip_with3 f l m (repeat c (length l)) = zip_with (fun a b => f a b c) l m.
Proof.
  revert m. induction l as [| a l IH]; intros [| b m] H; simpl in *;
    try discriminate; [reflexivity |].
  rewrite IH by lia. reflexivity.
Qed.

(** X10.  The two branches of [calculate_allowable_map] agree: an array roll that
    holds the number r in every cell gives the map the number r gives. *)
Theorem constant_array_roll (dlong decl : ndarray R) (r ylim ndays : R)
    (w : World)
    (Hd : well_shaped dlong)
    (He : length (data decl) = length (data dlong)) :
  calculate_allowable_map dlong decl
    (NdArray (mkArr (shape dlong) (repeat r (length (data dlong)))))
    ylim ndays w
  = calculate_allowable_map dlong decl (PyFloat r) ylim ndays w.
Proof.
  rewrite calculate_allowable_map_array_roll;
    [| exact Hd | exact He | cbn [data]; apply repeat_length].
  rewrite (calculate_allowable_map_scalar_roll _ _ (PyFloat r) r);
    [| exact Hd | exact He | reflexivity].
  cbn [data]. rewrite zip_with3_repeat by exact He. reflexivity.
Qed.

Lemma constant_array_roll_witness :
  calculate_allowable_map (mkArr [2%nat] [0; 10]) (mkArr [2%nat] [0; 20])
    (NdArray (mkArr [2%nat] (repeat 30 2))) 15 14 empty_world
  = calculate_allowable_map (mkArr [2%nat] [0; 10]) (mkArr [2%nat] [0; 20])
      (PyFloat 30) 15 14 empty_world.
Proof.
  apply (constant_array_roll (mkArr [2%nat] [0; 10]) (mkArr [2%nat] [0; 20])
           30 15 14 empty_world); reflexivity.
Defined.

Lemma conditions_at_monotone (ylim ylim' t e r : R) :
  ylim <= ylim' -> conditions_at ylim t e r = true ->
  conditions_at ylim' t e r = true.
Proof.
  unfold conditions_at. intros Hle H.
  apply andb_true_iff in H. destruct H as [H12 H3]. rewrite H12.
  apply num_ltb_true in H3. apply num_ltb_true.
  destruct (sun_angle_SC_at t e r); simpl in *; [lra | exact H3].
Qed.

Lemma spec_allowable_monotone (ylim ylim' ndays d e r : R) :
  ylim <= ylim' -> spec_allowable ylim ndays d e r = true ->
  spec_allowable ylim' ndays d e r = true.
Proof.
  unfold spec_allowable. intros Hle H.
  apply andb_true_iff in H. destruct H as [H H3].
  apply andb_true_iff in H. destruct H as [H1 H2].
  rewrite !(conditions_at_monotone ylim ylim') by assumption. reflexivity.
Qed.

Lemma zip_with_nth_impl {A B : Type} (f g : A -> B -> bool) (l : list A)
    (m : list B) (j : nat) :
  (forall a b, f a b = true -> g a b = true) ->
  nth j (zip_with f l m) false = true -> nth j (zip_with g l m) false = true.
Proof.
  intros Hfg. revert m j.
  induction l as [| a l IH]; intros [| b m] [| j] H; simpl in *;
    try discriminate; auto.
Qed.

(** X11.  A larger limit ylim never takes an orientation out of the map: a cell
    that is allowable under ylim is allowable under every ylim' >= ylim. *)
Theorem allowable_monotone_in_ylim (dlong decl : ndarray R) (roll : pyobj)
    (r ylim ylim' ndays : R) (w : World)
    (Hd : well_shaped dlong)
    (He : length (data decl) = length (data dlong))
    (Hr : scalar_roll roll = Some r)
    (Hle : ylim <= ylim') :
  exists m m' : ndarray bool,
    calculate_allowable_map dlong decl roll ylim ndays w = (Ok m, w)
    /\ calculate_allowable_map dlong decl roll ylim' ndays w = (Ok m', w)
    /\ shape m' = shape m
    /\ forall j, nth j (data m) false = true -> nth j (data m') false = true.
Proof.
  eexists _, _.
  split; [apply (calculate_allowable_map_scalar_roll _ _ roll r); assumption |].
  split; [apply (calculate_allowable_map_scalar_roll _ _ roll r); assumption |].
  cbn [shape data]. split; [reflexivity |].
  intros j. apply zip_with_nth_impl. intros d e.
  apply spec_allowable_monotone. exact Hle.
Qed.

Lemma allowable_monotone_in_ylim_witness :
  exists m m' : ndarray bool,
    calculate_allowable_map (scalar 0) (scalar 45) (PyFloat 0) 15 14
                            empty_world
    = (Ok m, empty_world)
    /\ calculate_allowable_map (scalar 0) (scalar 45) (PyFloat 0) 20 14
                               empty_world
       = (Ok m', empty_world)
    /\ shape m' = shape m
    /\ forall j, nth j (data m) false = true -> nth j (data m') false = true.
Proof.
  apply (allowable_monotone_in_ylim (scalar 0) (scalar 45) (PyFloat 0) 0 15 20
           14 empty_world); try reflexivity.
  lra.
Defined.

(** ** Arrays of unequal sizes *)

Lemma gca_mismatch_scalar_roll (ds es : list R) (r : R) (w : World) :
  length es <> length ds -> length es <> 1%nat -> length ds <> 1%nat ->
  get_critical_angles (Array ds) (Array es) (Scalar r) w
  = (Raise (RotationCountError (length es) (length ds)), w).
Proof.
  intros Hne He Hd. unfold get_critical_angles, get_critical_angles_fl, exact_arithmetic.
  erewrite bind_ok.
  2:{ apply rot_mul_ok; try apply from_euler_unit. left. reflexivity. }
  erewrite bind_raise; [reflexivity |].
  rewrite rot_mul_mismatch; cbn [quats from_euler neg compose_quats];
    rewrite ?length_map; try assumption.
  reflexivity.
Qed.

(** X12.  When dlong and decl do not hold the same number of elements, the map
    is not computed: the product of the rotations raises the error of the
    library about their numbers, three times the two sizes, and the world is
    left as it was. *)
Theorem calculate_allowable_map_size_mismatch (dlong decl : ndarray R)
    (roll : pyobj) (r ylim ndays : R) (w : World)
    (Hr : scalar_roll roll = Some r)
    (Hne : length (data decl) <> length (data dlong)) :
  calculate_allowable_map dlong decl roll ylim ndays w
  = (Raise (RotationCountError (3 * length (data decl))
                               (3 * length (data dlong))), w).
Proof.
  unfold calculate_allowable_map, calculate_allowable_map_fl; fold_exact.
  erewrite bind_raise; [reflexivity |].
  assert (Hcall :
    get_critical_angles
      (Array (ravel (asarray3 (arr_map (fun x => x - ndays) dlong) dlong
                              (arr_map (fun x => x + ndays) dlong))))
      (Array (ravel (asarray3 decl decl decl))) (Scalar r) w
    = (Raise (RotationCountError (3 * length (data decl))
                                 (3 * length (data dlong))), w)).
  { unfold ravel, asarray3, arr_map. cbn [data shape].
    rewrite gca_mismatch_scalar_roll
      by (rewrite !length_app, ?length_map; lia).
    rewrite !length_app, !length_map.
    apply (f_equal2 pair); [| reflexivity]. apply (f_equal Raise).
    apply (f_equal2 RotationCountError); lia. }
  destruct roll as [x | n | n | x | a | l | s |]; cbn [scalar_roll] in Hr;
    try discriminate Hr.
  - injection Hr as <-. exact Hcall.
  - destruct (int_fits_float n); [| discriminate Hr].
    injection Hr as <-. exact Hcall.
  - injection Hr as <-. exact Hcall.
Qed.

Lemma calculate_allowable_map_size_mismatch_witness :
  calculate_allowable_map (mkArr [2%nat] [0; 10]) (scalar 0) (PyFloat 0)
                          15 14 empty_world
  = (Raise (RotationCountError (3 * 1) (3 * 2)), empty_world).
Proof.
  apply (calculate_allowable_map_size_mismatch (mkArr [2%nat] [0; 10])
           (scalar 0) (PyFloat 0) 0 15 14 empty_world).
  - reflexivity.
  - cbn [data scalar length]. lia.
Defined.

(** X13.  Three arrays that do not all have one length, none of them of length
    1, make [get_critical_angles] raise the error of the library about the
    numbers of rotations; nothing is returned and the world is left as it
    was. *)
Theorem get_critical_angles_length_mismatch (ds es rs : list R) (w : World)
    (Hd : length ds <> 1%nat) (He : length es <> 1%nat)
    (Hr : length rs <> 1%nat)
    (Hne : ~ (length es = length ds /\ length rs = length ds)) :
  exists a b : nat,
    get_critical_angles (Array ds) (Array es) (Array rs) w
    = (Raise (RotationCountError a b), w).
Proof.
  unfold get_critical_angles, get_critical_angles_fl, exact_arithmetic.
  destruct (Nat.eq_dec (length rs) (length es)) as [Hre | Hre].
  - exists (length rs), (length ds).
    erewrite bind_ok.
    2:{ apply rot_mul_ok; try apply from_euler_unit. right; right.
        cbn [quats from_euler neg]. rewrite !length_map. exact Hre. }
    erewrite bind_raise; [reflexivity |].
    assert (Hlen : length (compose_quats
                             (quats (from_euler AxisZ (neg (Array rs))))
                             (quats (from_euler AxisY (neg (Array es)))))
                   = length rs).
    { rewrite compose_quats_zip
        by (cbn [quats from_euler neg]; rewrite !length_map; exact Hre).
      rewrite zip_with_length;
        cbn [quats from_euler neg]; rewrite !length_map; [reflexivity | exact Hre]. }
    rewrite rot_mul_mismatch; cbn [quats]; rewrite ?Hlen;
      cbn [quats from_euler neg]; rewrite ?length_map; try assumption.
    + reflexivity.
    + intros H. apply Hne. split; lia.
  - exists (length rs), (length es).
    erewrite bind_raise; [reflexivity |].
    rewrite rot_mul_mismatch; cbn [quats from_euler neg];
      rewrite ?length_map; try assumption.
    reflexivity.
Qed.

Lemma get_critical_angles_length_mismatch_witness :
  exists a b : nat,
    get_critical_angles (Array [0; 0]) (Array [0; 0; 0]) (Array [0; 0])
                        empty_world
    = (Raise (RotationCountError a b), empty_world).
Proof.
  apply (get_critical_angles_length_mismatch [0; 0] [0; 0; 0] [0; 0]
           empty_world); cbn [length]; lia.
Defined.

(** ** The rows of the grid *)

Lemma NoDup_map_in {A B : Type} (f : A -> B) (l : list A) :
  (forall x y, In x l -> In y l -> f x = f y -> x = y) ->
  NoDup l -> NoDup (map f l).
Proof.
  intros Hinj H. induction H as [| x l Hx Hl IH]; [constructor |].
  cbn [map]. constructor.
  - intros Hin. apply in_map_iff in Hin. destruct Hin as (y & Hy & Hyl).
    apply Hx. rewrite (Hinj x y); auto; [left; reflexivity | right; exact Hyl].
  - apply IH. intros a b Ha Hb. apply Hinj; right; assumption.
Qed.

Lemma NoDup_flat_map {A B : Type} (f : A -> list B) (l : list A) :
  NoDup l ->
  (forall x, In x l -> NoDup (f x)) ->
  (forall x y z, In x l -> In y l -> In z (f x) -> In z (f y) -> x = y) ->
  NoDup (flat_map f l).
Proof.
  intros H. induction H as [| x l Hx Hl IH]; intros Hf Hdis; [constructor |].
  cbn [flat_map]. apply NoDup_app.
  - apply Hf. left. reflexivity.
  - apply IH.
    + intros y Hy. apply Hf. right. exact Hy.
    + intros a b z Ha Hb. apply Hdis; right; assumption.
  - intros z Hz Hz'. apply in_flat_map in Hz'. destruct Hz' as (y & Hy & Hzy).
    apply Hx. rewrite (Hdis x y z); auto; [left; reflexivity | right; exact Hy].
Qed.

Lemma grid_cells_NoDup : NoDup grid_cells.
Proof.
  unfold grid_cells. apply NoDup_flat_map.
  - apply seq_NoDup.
  - intros i _. apply NoDup_map_in; [| apply seq_NoDup].
    intros j j' _ _ H. apply (f_equal snd) in H. cbn [snd] in H. lia.
  - intros i i' c _ _ Hc Hc'.
    apply in_map_iff in Hc. destruct Hc as (j & <- & _).
    apply in_map_iff in Hc'. destruct Hc' as (j' & H & _).
    apply (f_equal fst) in H. cbn [fst] in H. lia.
Qed.

Lemma grid_rolls_NoDup : NoDup grid_rolls.
Proof.
  unfold grid_rolls. apply NoDup_map_in; [| apply seq_NoDup].
  intros k k' _ _ H. lia.
Qed.

Lemma row_injective (c c' : Z * Z) (roll roll' : Z) :
  [IZR (fst c); IZR (snd c); 1 * IZR roll]
  = [IZR (fst c'); IZR (snd c'); 1 * IZR roll'] ->
  c = c' /\ roll = roll'.
Proof.
  intros H. injection H as H1 H2 H3.
  apply eq_IZR in H1. apply eq_IZR in H2.
  rewrite !Rmult_1_l in H3. apply eq_IZR in H3.
  destruct c, c'. cbn [fst snd] in *. subst. split; reflexivity.
Qed.

Lemma in_grid_cells_iff (dl de : Z) :
  In (dl, de) grid_cells
  <-> (-180 <= dl <= 178)%Z /\ (dl mod 2 = 0)%Z
      /\ (-90 <= de <= 88)%Z /\ (de mod 2 = 0)%Z.
Proof.
  split; [apply (in_grid_cells (dl, de)) |].
  intros (H1 & H2 & H3 & H4).
  assert (E1 : dl = (2 * (dl / 2))%Z) by (apply Z_div_exact_2; lia).
  assert (E2 : de = (2 * (de / 2))%Z) by (apply Z_div_exact_2; lia).
  unfold grid_cells. apply in_flat_map.
  exists (Z.to_nat (dl / 2 + 90)). split; [apply in_seq; lia |].
  apply in_map_iff. exists (Z.to_nat (de / 2 + 45)).
  split; [f_equal; lia | apply in_seq; lia].
Qed.

Lemma in_grid_rolls_iff (ro : Z) :
  In ro grid_rolls <-> (-180 <= ro <= 175)%Z /\ (ro mod 5 = 0)%Z.
Proof.
  unfold grid_rolls. split.
  - intros H. apply in_map_iff in H. destruct H as (k & <- & Hk).
    apply in_seq in Hk.
    replace (-180 + 5 * Z.of_nat k)%Z with ((Z.of_nat k - 36) * 5)%Z by lia.
    rewrite Z_mod_mult. lia.
  - intros [H1 H2].
    assert (E : ro = (5 * (ro / 5))%Z) by (apply Z_div_exact_2; lia).
    apply in_map_iff. exists (Z.to_nat (ro / 5 + 36)).
    split; [lia | apply in_seq; lia].
Qed.

(** ** A roll array of one element, and the sign of ndays *)

(** X14.  A roll that is an array of one element is spread over the arrays dlong
    and decl as a number is: scipy multiplies a stack of one rotation with
    every rotation of the other stack. *)
Theorem one_element_roll_broadcast (ds es : list R) (r : R) (w : World)
    (He : length es = length ds) :
  get_critical_angles (Array ds) (Array es) (Array [r]) w
  = get_critical_angles (Array ds) (Array es) (Scalar r) w.
Proof.
  rewrite (gca_arrays_scalar_roll ds es r w He).
  apply gca_from_rfinal with (b := false).
  erewrite bind_ok.
  2:{ apply rot_mul_ok; try apply from_euler_unit. left. reflexivity. }
  assert (Hin : compose_quats (quats (from_euler AxisZ (neg (Array [r]))))
                  (quats (from_euler AxisY (neg (Array es))))
                = map (compose_quat (elementary_quat AxisZ (deg2rad (- r))))
                    (map (fun a => elementary_quat AxisY (deg2rad a))
                         (map Ropp es))).
  { reflexivity. }
  assert (Hlen : length (map (compose_quat (elementary_quat AxisZ (deg2rad (- r))))
                    (map (fun a => elementary_quat AxisY (deg2rad a))
                         (map Ropp es)))
                 = length (quats (from_euler AxisX (neg (Array ds))))).
  { simpl. rewrite !length_map. lia. }
  rewrite rot_mul_ok; try apply from_euler_unit.
  - cbn [quats single andb]. rewrite Hin, compose_quats_zip by exact Hlen.
    cbn [from_euler neg quats]. rewrite rfinal_quats_scalar_roll. reflexivity.
  - apply compose_quats_unit; apply from_euler_unit.
  - right; right. cbn [quats]. rewrite Hin. exact Hlen.
Qed.

Lemma one_element_roll_broadcast_witness :
  get_critical_angles (Array [0; 10]) (Array [0; 20]) (Array [30]) empty_world
  = get_critical_angles (Array [0; 10]) (Array [0; 20]) (Scalar 30)
                        empty_world.
Proof.
  apply (one_element_roll_broadcast [0; 10] [0; 20] 30 empty_world).
  reflexivity.
Defined.

Lemma spec_allowable_opp_ndays (ylim ndays d e r : R) :
  spec_allowable ylim (- ndays) d e r = spec_allowable ylim ndays d e r.
Proof.
  unfold spec_allowable.
  replace (d - - ndays) with (d + ndays) by ring.
  replace (d + - ndays) with (d - ndays) by ring.
  destruct (conditions_at ylim (d + ndays) e r),
    (conditions_at ylim d e r), (conditions_at ylim (d - ndays) e r);
    reflexivity.
Qed.

Lemma zip_with_ext {A B C : Type} (f g : A -> B -> C) (l : list A)
    (m : list B) :
  (forall a b, f a b = g a b) -> zip_with f l m = zip_with g l m.
Proof.
  intros H. revert m. induction l as [| a l IH]; intros [| b m];
    try reflexivity.
  cbn [zip_with]. rewrite H, IH. reflexivity.
Qed.

(** X15.  The map looks at dlong - ndays and dlong + ndays alike: ndays and
    -ndays give the same map. *)
Theorem ndays_sign_is_irrelevant (dlong decl : ndarray R) (roll : pyobj)
    (r ylim ndays : R) (w : World)
    (Hd : well_shaped dlong)
    (He : length (data decl) = length (data dlong))
    (Hr : scalar_roll roll = Some r) :
  calculate_allowable_map dlong decl roll ylim (- ndays) w
  = calculate_allowable_map dlong decl roll ylim ndays w.
Proof.
  rewrite !(calculate_allowable_map_scalar_roll _ _ roll r) by assumption.
  apply (f_equal2 pair); [| reflexivity]. apply (f_equal Ok).
  apply (f_equal (mkArr (shape dlong))).
  apply zip_with_ext. intros d e. apply spec_allowable_opp_ndays.
Qed.

Lemma ndays_sign_is_irrelevant_witness :
  calculate_allowable_map (scalar 0) (scalar 45) (PyFloat 0) 15 (- 14)
                          empty_world
  = calculate_allowable_map (scalar 0) (scalar 45) (PyFloat 0) 15 14
                            empty_world.
Proof.
  apply (ndays_sign_is_irrelevant (scalar 0) (scalar 45) (PyFloat 0) 0 15 14
           empty_world); reflexivity.
Defined.

(** ** The order of the rows *)

Lemma StronglySorted_app {A : Type} (Rel : A -> A -> Prop) (l1 l2 : list A) :
  StronglySorted Rel l1 -> StronglySorted Rel l2 ->
  (forall a b, In a l1 -> In b l2 -> Rel a b) ->
  StronglySorted Rel (l1 ++ l2).
Proof.
  intros H1 H2 H12. induction H1 as [| a l1 Hl1 IH Ha]; [exact H2 |].
  cbn [app]. constructor.
  - apply IH. intros x y Hx Hy. apply H12; [right; exact Hx | exact Hy].
  - apply Forall_app. split; [exact Ha |].
    apply Forall_forall. intros y Hy. apply H12; [left; reflexivity | exact Hy].
Qed.

Lemma StronglySorted_flat_map {A B : Type} (Rel : B -> B -> Prop)
    (P : A -> A -> Prop) (f : A -> list B) (l : list A) :
  StronglySorted P l ->
  (forall x, StronglySorted Rel (f x)) ->
  (forall x y a b, P x y -> In a (f x) -> In b (f y) -> Rel a b) ->
  StronglySorted Rel (flat_map f l).
Proof.
  intros Hl Hf Hcross. induction Hl as [| x l Hl IH Hx]; [constructor |].
  cbn [flat_map]. apply StronglySorted_app; [apply Hf | exact IH |].
  intros a b Ha Hb. apply in_flat_map in Hb. destruct Hb as (y & Hy & Hb).
  rewrite Forall_forall in Hx. exact (Hcross x y a b (Hx y Hy) Ha Hb).
Qed.

Lemma StronglySorted_map_related {A B : Type} (Rel : B -> B -> Prop)
    (g : A -> B) (l : list A) :
  (forall x y, Rel (g x) (g y)) -> StronglySorted Rel (map g l).
Proof.
  intros H. induction l as [| x l IH]; [constructor |].
  cbn [map]. constructor; [exact IH |].
  apply Forall_map, Forall_forall. intros y _. apply H.
Qed.

Lemma rolls_sorted (a n : nat) :
  StronglySorted Z.le
    (map (fun k => (-180 + 5 * Z.of_nat k)%Z) (seq a n)).
Proof.
  revert a. induction n as [| n IH]; intros a; [constructor |].
  cbn [seq map]. constructor; [apply IH |].
  apply Forall_map, Forall_forall. intros k Hk. apply in_seq in Hk. lia.
Qed.

Lemma blocks_sorted_by_roll (cells : list (Z * Z)) (rolls : list Z) :
  StronglySorted Z.le rolls ->
  StronglySorted (fun a b : list R => nth 2 a 0 <= nth 2 b 0)
                 (flat_map (block_rows cells) rolls).
Proof.
  intros Hr. apply (StronglySorted_flat_map _ Z.le); [exact Hr | |].
  - intros roll. unfold block_rows. apply StronglySorted_map_related.
    intros x y. cbn [nth]. lra.
  - intros x y a b Hxy Ha Hb. unfold block_rows in Ha, Hb.
    apply in_map_iff in Ha. destruct Ha as (c & <- & _).
    apply in_map_iff in Hb. destruct Hb as (c' & <- & _).
    cbn [nth]. apply IZR_le in Hxy. lra.
Qed.

(** X17.  The rows of the pickled array come in the order of the sweep: the roll,
    in the third column, never decreases from one row to a later one. *)
Theorem build_grid_rows_sorted_by_roll (w : World) :
  exists rows : list (list R),
    build_grid w
    = (Ok tt, mkWorld (warnings w) (stdout w) ((grid_path, rows) :: files w))
    /\ StronglySorted (fun a b : list R => nth 2 a 0 <= nth 2 b 0) rows.
Proof.
  exists spec_grid_rows. split; [apply build_grid_rows |].
  rewrite <- spec_grid_rows_blocks.
  apply blocks_sorted_by_roll. apply rolls_sorted.
Qed.

(** ** The warnings of the grid *)

Lemma np_arcsin_silent (xs : list R) (w : World) :
  wfilter (warnings w) = FilterIgnore -> np_invalid (warnings w) <> ErrRaise ->
  np_arcsin xs w = (Ok (map arcsin1 xs), w).
Proof.
  intros Hf He. unfold np_arcsin, bind, ret, invalid_value, warn.
  destruct (forallb in_arcsin_domain xs); [reflexivity |].
  rewrite Hf. destruct (np_invalid (warnings w)); try reflexivity.
  exfalso. apply He. reflexivity.
Qed.

Lemma bind_keeps {A B : Type} (c : M A) (k : A -> M B) (w : World) :
  snd (c w) = w -> (forall a, snd (k a w) = w) -> snd (bind c k w) = w.
Proof.
  intros Hc Hk. unfold bind. destruct (c w) as [[a | e] w1];
    cbn [snd] in Hc; subst w1; [apply Hk | reflexivity].
Qed.

Lemma get_critical_angles_fl_silent (fl : rounding)
    (dlong decl roll : array_like) (w : World) :
  wfilter (warnings w) = FilterIgnore -> np_invalid (warnings w) <> ErrRaise ->
  snd (get_critical_angles_fl fl dlong decl roll w) = w.
Proof.
  intros Hf He.
  destruct (gca_fl_return_or_raise fl dlong decl roll)
    as [[vsunf Hv] | [e Hr]]; [| rewrite Hr; reflexivity].
  rewrite Hv. unfold angles_of_vsunf.
  rewrite (bind_ok _ _ _ _ _ (np_arcsin_silent _ w Hf He)).
  rewrite (bind_ok _ _ _ _ _ (np_arcsin_silent _ w Hf He)).
  reflexivity.
Qed.

Lemma calculate_allowable_map_fl_silent (fl : rounding)
    (dlong decl : ndarray R) (roll : pyobj) (ylim ndays : R) (w : World) :
  wfilter (warnings w) = FilterIgnore -> np_invalid (warnings w) <> ErrRaise ->
  snd (calculate_allowable_map_fl fl dlong decl roll ylim ndays w) = w.
Proof.
  intros Hf He. unfold calculate_allowable_map_fl.
  apply bind_keeps.
  - destruct roll as [x | n | n | x | a | l | s |];
      try reflexivity;
      try (apply get_critical_angles_fl_silent; assumption).
    destruct (int_fits_float n);
      [apply get_critical_angles_fl_silent; assumption | reflexivity].
  - intros [[sign_x sun_angle] sun_angle_SC]. apply bind_keeps.
    + unfold reshape. destruct (_ =? _)%nat; reflexivity.
    + intros reshaped. unfold all_axis0.
      destruct (shape reshaped); reflexivity.
Qed.

(** What the block of [build_grid] does to the call inside it: no warning
    leaves the block, and the world is as before when the block is left. *)
Lemma catch_warnings_ignore_keeps (fl : rounding) (dlong decl : ndarray R)
    (roll : pyobj) (ylim ndays : R) (w : World) :
  np_invalid (warnings w) <> ErrRaise ->
  snd (catch_warnings_ignore
         (calculate_allowable_map_fl fl dlong decl roll ylim ndays) w)
  = w.
Proof.
  intros He. unfold catch_warnings_ignore.
  pose proof (calculate_allowable_map_fl_silent fl dlong decl roll ylim ndays
                (mkWorld (warnings w ++ [SetFilter FilterIgnore]) (stdout w)
                         (files w))) as H.
  destruct (calculate_allowable_map_fl fl dlong decl roll ylim ndays _)
    as [r w1].
  cbn [snd] in *. rewrite H.
  - cbn [stdout files]. apply world_eta.
  - cbn [warnings]. unfold wfilter. rewrite fold_left_app. reflexivity.
  - cbn [warnings]. unfold np_invalid. rewrite fold_left_app. exact He.
Qed.






(** ** The grid under a rounding that works element by element *)

Lemma elementwise_rows (fl : rounding) (f : R -> R -> R -> vec -> vec)
    (ds es : list R) (r : R) :
  elementwise fl f -> length es = length ds ->
  fl (Array ds) (Array es) (Scalar r)
     (map (at3 sun_vector) (zip_with (fun d e => (d, e, r)) ds es))
  = map (at3 (row_under f)) (zip_with (fun d e => (d, e, r)) ds es).
Proof.
  intros Hfl He. rewrite Hfl; [| exact He |].
  2:{ rewrite length_map, zip_with_length; [reflexivity | symmetry; exact He]. }
  clear Hfl. revert es He.
  induction ds as [| d ds IH]; intros [| e es] He; try reflexivity;
    try discriminate He.
  cbn [zip_with map zip_with3]. rewrite IH by (cbn [length] in He; lia).
  reflexivity.
Qed.

Lemma conditions_of_rows (ylim : R) (vs : list vec) :
  zip_with andb
    (zip_with andb (map (fun s => (0 <? s)%Z)
                        (map (fun v => sign (col0 v)) vs))
                   (map (fun a => num_ltb a (-5))
                        (map (fun v => num_scale 57.296 (arcsin1 (col2 v)))
                             vs)))
    (map (fun a => num_ltb a ylim)
         (map (fun v => num_scale 57.296 (num_abs (arcsin1 (col1 v)))) vs))
  = map (conditions_of_row ylim) vs.
Proof.
  induction vs as [| v vs IH]; [reflexivity |].
  cbn [map zip_with]. rewrite IH. reflexivity.
Qed.

Lemma allowable_of_rows (s : list nat) (ylim : R) (v1 v2 v3 : list vec)
    (w : World) :
  length v1 = size_of s -> length v2 = size_of s -> length v3 = size_of s ->
  (let '(sign_x, sun_angle, sun_angle_SC) := angles_of_rows (v1 ++ v2 ++ v3) in
   let all_conditions :=
     zip_with andb
       (zip_with andb (map (fun s => (0 <? s)%Z) sign_x)
                      (map (fun a => num_ltb a (-5)) sun_angle))
       (map (fun a => num_ltb a ylim) sun_angle_SC) in
   reshaped <- reshape all_conditions (3%nat :: s) ;;
   all_axis0 reshaped) w
  = (Ok (mkArr s (zip_with3 (fun x y z => x && y && z)
                    (map (conditions_of_row ylim) v1)
                    (map (conditions_of_row ylim) v2)
                    (map (conditions_of_row ylim) v3))), w).
Proof.
  intros H1 H2 H3. unfold angles_of_rows. rewrite conditions_of_rows.
  unfold reshape.
  assert (Hlen : (length (map (conditions_of_row ylim) (v1 ++ v2 ++ v3))
                  =? size_of (3%nat :: s))%nat = true).
  { apply Nat.eqb_eq. rewrite length_map, !length_app. cbn [size_of fold_right].
    fold (size_of s). lia. }
  rewrite Hlen. unfold bind at 1. unfold ret at 1.
  rewrite !map_app. apply all_axis0_three; rewrite length_map; assumption.
Qed.

Lemma allowable_cells_under (f : R -> R -> R -> vec -> vec)
    (ylim ndays r : R) (ds es : list R) :
  zip_with3 (fun x y z => x && y && z)
    (map (conditions_of_row ylim)
       (map (at3 (row_under f))
          (zip_with (fun d e => (d, e, r)) (map (fun x => x - ndays) ds) es)))
    (map (conditions_of_row ylim)
       (map (at3 (row_under f)) (zip_with (fun d e => (d, e, r)) ds es)))
    (map (conditions_of_row ylim)
       (map (at3 (row_under f))
          (zip_with (fun d e => (d, e, r)) (map (fun x => x + ndays) ds) es)))
  = zip_with (fun d e => allowable_under f ylim ndays d e r) ds es.
Proof.
  revert es. induction ds as [| d ds IH]; intros [| e es]; try reflexivity.
  cbn [map zip_with zip_with3]. rewrite IH. reflexivity.
Qed.

(** Where no exception comes of an invalid operation, the return statement
    returns the values of the rows. *)
Lemma angles_of_vsunf_quiet (vsunf : list vec) (w : World) :
  np_invalid (warnings w) <> ErrRaise -> wfilter (warnings w) <> FilterError ->
  exists w', angles_of_vsunf vsunf w = (Ok (angles_of_rows vsunf), w').
Proof.
  intros He Hf. pose proof (angles_of_vsunf_result vsunf w) as R.
  destruct (angles_of_vsunf vsunf w) as [res w']. cbn [fst] in R.
  exists w'. rewrite R.
  destruct (rows_in_domain vsunf); [reflexivity |].
  destruct (np_invalid (warnings w)), (wfilter (warnings w));
    try reflexivity; exfalso; auto.
Qed.

(** The map for a roll that is a number, under a rounding that works
    element by element. *)
Lemma calculate_allowable_map_fl_scalar_roll (fl : rounding)
    (f : R -> R -> R -> vec -> vec) (dlong decl : ndarray R) (roll : pyobj)
    (r ylim ndays : R) (w : World) :
  elementwise fl f ->
  well_shaped dlong -> length (data decl) = length (data dlong) ->
  scalar_roll roll = Some r ->
  np_invalid (warnings w) <> ErrRaise -> wfilter (warnings w) <> FilterError ->
  fst (calculate_allowable_map_fl fl dlong decl roll ylim ndays w)
  = Ok (mkArr (shape dlong)
          (zip_with (fun d e => allowable_under f ylim ndays d e r)
                    (data dlong) (data decl))).
Proof.
  intros Hfl Hd He Hr Herr Hfil. unfold well_shaped in Hd.
  set (ts := zip_with (fun d e => (d, e, r))
               (map (fun x => x - ndays) (data dlong)) (data decl)
             ++ zip_with (fun d e => (d, e, r)) (data dlong) (data decl)
             ++ zip_with (fun d e => (d, e, r))
                         (map (fun x => x + ndays) (data dlong)) (data decl)).
  assert (Hcall :
    get_critical_angles_fl fl
      (Array (ravel (asarray3 (arr_map (fun x => x - ndays) dlong) dlong
                              (arr_map (fun x => x + ndays) dlong))))
      (Array (ravel (asarray3 decl decl decl))) (Scalar r) w
    = angles_of_vsunf (map (at3 (row_under f)) ts) w).
  { unfold ravel, asarray3, arr_map. cbn [data shape].
    rewrite (gca_fl_from_rfinal fl _ _ _ w false
               (zip_with (fun d e => (d, e, r))
                  (map (fun x => x - ndays) (data dlong) ++ data dlong
                   ++ map (fun x => x + ndays) (data dlong))
                  (data decl ++ data decl ++ data decl))).
    2:{ apply rfinal_arrays_scalar_roll.
        rewrite !length_app, !length_map. lia. }
    rewrite (elementwise_rows fl f) by
      (try exact Hfl; rewrite !length_app, !length_map; lia).
    rewrite !zip_with_app by (rewrite ?length_map; lia). reflexivity. }
  destruct (angles_of_vsunf_quiet (map (at3 (row_under f)) ts) w Herr Hfil)
    as [w' Hq].
  unfold calculate_allowable_map_fl.
  erewrite bind_ok.
  2:{ destruct roll as [x | n | n | x | a | l | s |]; cbn [scalar_roll] in Hr;
        try discriminate Hr.
      - injection Hr as <-. rewrite Hcall. exact Hq.
      - destruct (int_fits_float n); [| discriminate Hr].
        injection Hr as <-. rewrite Hcall. exact Hq.
      - injection Hr as <-. rewrite Hcall. exact Hq. }
  unfold ts. rewrite !map_app.
  cbn [asarray3 shape arr_map].
  rewrite allowable_of_rows
    by (rewrite length_map, zip_with_length; rewrite ?length_map; lia).
  cbn [fst]. rewrite allowable_cells_under. reflexivity.
Qed.

(** What is done with the map in one turn of the loop of [build_grid]. *)
Lemma rows_of_mask (p : Z * Z -> bool) (s : list nat) (cells : list (Z * Z))
    (roll : Z) (w : World) :
  (dlong_sel <- mask_select (mkArr s (map fst cells)) (mkArr s (map p cells)) ;;
   decl_sel <- mask_select (mkArr s (map snd cells)) (mkArr s (map p cells)) ;;
   stacked <- vstack [map IZR dlong_sel; map IZR decl_sel;
                      map (fun one => one * IZR roll)
                          (repeat 1 (count_true (mkArr s (map p cells))))] ;;
   ret (transpose stacked)) w
  = (Ok (map (fun c => [IZR (fst c); IZR (snd c); 1 * IZR roll])
             (filter p cells)), w).
Proof.
  erewrite bind_ok by apply mask_select_filter.
  erewrite bind_ok by apply mask_select_filter.
  rewrite count_true_filter, (map_repeat_length _ 1 (filter p cells)), !map_map.
  unfold vstack.
  assert (Hs : same_lengths
                 [map (fun x => IZR (fst x)) (filter p cells);
                  map (fun x => IZR (snd x)) (filter p cells);
                  map (fun _ : Z * Z => 1 * IZR roll) (filter p cells)]
               = true).
  { apply (same_lengths_const (length (filter p cells))).
    repeat constructor; apply length_map. }
  rewrite Hs. unfold bind at 1. unfold ret at 1.
  rewrite (transpose_columns (fun x => IZR (fst x)) (fun x => IZR (snd x))
             (fun _ => 1 * IZR roll)).
  reflexivity.
Qed.

Lemma build_grid_block_fl_rows (fl : rounding)
    (f : R -> R -> R -> vec -> vec) (s : list nat) (cells : list (Z * Z))
    (roll : Z) (w : World) :
  elementwise fl f -> length cells = size_of s ->
  np_invalid (warnings w) <> ErrRaise ->
  build_grid_block_fl fl (mkArr s (map fst cells)) (mkArr s (map snd cells))
                      roll w
  = (Ok (rows_under f cells roll), w).
Proof.
  intros Hfl Hlen Herr. unfold build_grid_block_fl.
  set (p := fun c : Z * Z =>
              allowable_under f 15 14 (IZR (fst c)) (IZR (snd c)) (IZR roll)).
  erewrite bind_ok; [apply (rows_of_mask p) |].
  pose proof (catch_warnings_ignore_keeps fl
                (arr_map IZR (mkArr s (map fst cells)))
                (arr_map IZR (mkArr s (map snd cells)))
                (NpInteger roll) 15 14 w Herr) as Hsnd.
  unfold catch_warnings_ignore in *.
  set (w1 := mkWorld (warnings w ++ [SetFilter FilterIgnore]) (stdout w)
                     (files w)) in *.
  pose proof (calculate_allowable_map_fl_scalar_roll fl f
                (arr_map IZR (mkArr s (map fst cells)))
                (arr_map IZR (mkArr s (map snd cells)))
                (NpInteger roll) (IZR roll) 15 14 w1 Hfl) as Hfst.
  destruct (calculate_allowable_map_fl fl _ _ (NpInteger roll) 15 14 w1)
    as [res w2].
  cbn [fst snd] in *. rewrite Hsnd, Hfst.
  - unfold arr_map. cbn [shape data]. rewrite !map_map.
    rewrite (zip_with_map_same
               (fun d e => allowable_under f 15 14 d e (IZR roll))
               (fun c => IZR (fst c)) (fun c => IZR (snd c))).
    reflexivity.
  - unfold well_shaped, arr_map. cbn [shape data].
    rewrite !length_map. exact Hlen.
  - unfold arr_map. cbn [data]. rewrite !length_map. reflexivity.
  - reflexivity.
  - unfold w1. cbn [warnings]. unfold np_invalid. rewrite fold_left_app.
    exact Herr.
  - unfold w1. cbn [warnings]. unfold wfilter. rewrite fold_left_app.
    cbn [fold_left]. discriminate.
Qed.

Lemma rows_under_length (f : R -> R -> R -> vec -> vec)
    (cells : list (Z * Z)) (roll : Z) :
  Forall (fun r => length r = 3%nat) (rows_under f cells roll).
Proof.
  unfold rows_under. apply Forall_map, Forall_forall. intros; reflexivity.
Qed.

Lemma build_grid_fl_unfold (fl : rounding) :
  build_grid_fl fl
  = (r <- for_append (arange (-180) 179 5)
            (build_grid_block_fl fl
               (every_other (fst (mgrid (-180) 179 (-90) 90)))
               (every_other (snd (mgrid (-180) 179 (-90) 90))))
            [] ;;
     r <- vstack_blocks r ;;
     pickle_dump r grid_path).
Proof.
  unfold build_grid_fl, mgrid. cbv beta iota zeta. reflexivity.
Qed.

Lemma build_grid_fl_rows (fl : rounding) (f : R -> R -> R -> vec -> vec)
    (w : World) :
  elementwise fl f -> np_invalid (warnings w) <> ErrRaise ->
  build_grid_fl fl w
  = (Ok tt, mkWorld (warnings w) (stdout w)
              ((grid_path, flat_map (rows_under f grid_cells) grid_rolls)
               :: files w)).
Proof.
  intros Hfl Herr.
  rewrite build_grid_fl_unfold, grid_dlong, grid_decl, grid_arange.
  erewrite bind_ok.
  2:{ apply (for_append_ok _ (rows_under f grid_cells)). intros roll.
      apply build_grid_block_fl_rows;
        [exact Hfl | apply grid_cells_length | exact Herr]. }
  cbn [app]. unfold vstack_blocks.
  rewrite (same_lengths_const 3).
  2:{ apply Forall_concat, Forall_map, Forall_forall. intros roll _.
      apply rows_under_length. }
  unfold bind at 1. unfold ret at 1.
  rewrite <- flat_map_concat_map.
  unfold pickle_dump. reflexivity.
Qed.

Lemma rows_under_NoDup (f : R -> R -> R -> vec -> vec)
    (cells : list (Z * Z)) (rolls : list Z) :
  NoDup cells -> NoDup rolls -> NoDup (flat_map (rows_under f cells) rolls).
Proof.
  intros Hc Hr. apply NoDup_flat_map; [exact Hr | |].
  - intros roll _. unfold rows_under. apply NoDup_map_in.
    + intros c c' _ _ H. apply (row_injective c c' roll roll) in H. tauto.
    + apply NoDup_filter. exact Hc.
  - intros roll roll' row _ _ H H'. unfold rows_under in H, H'.
    apply in_map_iff in H. destruct H as (c & <- & _).
    apply in_map_iff in H'. destruct H' as (c' & E & _).
    apply row_injective in E. symmetry. tauto.
Qed.

Lemma in_rows_under (f : R -> R -> R -> vec -> vec) (cells : list (Z * Z))
    (rolls : list Z) (dl de ro : Z) :
  In [IZR dl; IZR de; IZR ro] (flat_map (rows_under f cells) rolls)
  <-> In (dl, de) cells /\ In ro rolls
      /\ allowable_under f 15 14 (IZR dl) (IZR de) (IZR ro) = true.
Proof.
  split.
  - intros H. apply in_flat_map in H. destruct H as (roll & Hroll & H).
    unfold rows_under in H. apply in_map_iff in H. destruct H as (c & E & Hc).
    apply filter_In in Hc. destruct Hc as [Hc Hallow].
    replace (IZR ro) with (1 * IZR ro) in E by ring.
    apply (row_injective c (dl, de) roll ro) in E. destruct E as [-> ->].
    auto.
  - intros (Hc & Hr & Hallow). apply in_flat_map. exists ro.
    split; [exact Hr |]. unfold rows_under. apply in_map_iff.
    exists (dl, de). cbn [fst snd]. split; [f_equal; f_equal; f_equal; ring |].
    apply filter_In. auto.
Qed.

Lemma drift_y_elementwise : elementwise drift_y drift_y_row.
Proof.
  intros ds es r rows He Hr. unfold drift_y, drift_y_row.
  revert es rows He Hr.
  induction ds as [| d ds IH]; intros [| e es] [| v rows] He Hr;
    try reflexivity; try discriminate He; try discriminate Hr.
  cbn [map zip_with3]. rewrite <- IH by (cbn [length] in *; lia).
  reflexivity.
Qed.

(** X16.  Under a rounding that works element by element, and unless numpy
    is set to raise at an invalid operation or warnings are turned into
    errors, [build_grid] returns, and the array it pickles holds no row
    twice.  It holds the row (dlong, decl, roll) exactly when dlong is even
    and from -180 to 178, decl is even and from -90 to 88, roll is a multiple
    of 5 from -180 to 175, and [calculate_allowable_map], called for these
    three numbers with the defaults ylim = 15 and ndays = 14, returns
    True. *)
Theorem build_grid_rows_exact (fl : rounding)
    (f : R -> R -> R -> vec -> vec) (w : World) (dl de ro : Z)
    (Hfl : elementwise fl f)
    (Herr : np_invalid (warnings w) <> ErrRaise)
    (Hfil : wfilter (warnings w) <> FilterError) :
  exists rows : list (list R),
    build_grid_fl fl w
    = (Ok tt, mkWorld (warnings w) (stdout w) ((grid_path, rows) :: files w))
    /\ NoDup rows
    /\ (In [IZR dl; IZR de; IZR ro] rows
        <-> ((-180 <= dl <= 178)%Z /\ (dl mod 2 = 0)%Z
             /\ (-90 <= de <= 88)%Z /\ (de mod 2 = 0)%Z)
            /\ ((-180 <= ro <= 175)%Z /\ (ro mod 5 = 0)%Z)
            /\ fst (calculate_allowable_map_fl fl (scalar (IZR dl))
                      (scalar (IZR de)) (NpInteger ro) 15 14 w)
               = Ok (scalar true)).
Proof.
  eexists. split; [apply (build_grid_fl_rows fl f); assumption |]. split.
  - apply rows_under_NoDup; [apply grid_cells_NoDup | apply grid_rolls_NoDup].
  - rewrite in_rows_under, in_grid_cells_iff, in_grid_rolls_iff.
    rewrite (calculate_allowable_map_fl_scalar_roll fl f _ _ (NpInteger ro)
               (IZR ro)); try assumption; try reflexivity.
    cbn [scalar shape data zip_with].
    assert (E : forall b : bool,
              b = true
              <-> @Ok (ndarray bool) (mkArr [] [b])
                  = Ok (mkArr (@nil nat) [true])).
    { intros b. split; [intros ->; reflexivity |].
      intros H. injection H as ->. reflexivity. }
    rewrite <- E. reflexivity.
Qed.

Lemma build_grid_rows_exact_witness :
  exists rows : list (list R),
    build_grid_fl drift_y empty_world
    = (Ok tt, mkWorld (warnings empty_world) (stdout empty_world)
                ((grid_path, rows) :: files empty_world))
    /\ NoDup rows
    /\ (In [IZR 0; IZR 0; IZR 0] rows
        <-> ((-180 <= 0 <= 178)%Z /\ (0 mod 2 = 0)%Z
             /\ (-90 <= 0 <= 88)%Z /\ (0 mod 2 = 0)%Z)
            /\ ((-180 <= 0 <= 175)%Z /\ (0 mod 5 = 0)%Z)
            /\ fst (calculate_allowable_map_fl drift_y (scalar (IZR 0))
                      (scalar (IZR 0)) (NpInteger 0) 15 14 empty_world)
               = Ok (scalar true)).
Proof.
  apply (build_grid_rows_exact drift_y drift_y_row empty_world 0 0 0).
  - exact drift_y_elementwise.
  - intros H. discriminate H.
  - intros H. discriminate H.
Defined.

